(** * EduPal: the session state machine and the profile mutators

    A shallow embedding of the EduPal client (App.tsx, types.ts and
    services/geminiService.ts).  The React component [App] is a record of
    state variables and one function per event handler; the two
    sub-components that hold logic of their own ([OnboardingView] and
    [QuizView]) are small state machines whose callbacks are the handlers
    of [App].

    Conventions of the embedding.
    - A JavaScript Number that the program keeps integral (scores,
      minutes, millisecond time stamps, option indices) is a [Z].  Where
      the source adds, subtracts, multiplies or divides such numbers, the
      operands go through binary64 ([Number] below, built on the
      [SpecFloat] specification of IEEE 754) and the result is read back
      as an integer, so that the rounding is the one a JavaScript engine
      performs.  Only small counters stepped by one (the step of the
      onboarding form, the index of the question and the counter of the
      reducer in [QuizView]) and the lengths of arrays are computed in
      [Z]: they stay far below 2^53, where binary64 counts exactly.
    - [T | null], an optional field and a possibly [undefined] array
      element are [option T].
    - An [async] function is a function to [Promise]; what the remote
      model answers is an argument of the service that awaits it.  A
      handler of [App] runs to its end, awaits included, before the next
      event: the loading overlay covers the page meanwhile.
      [TutorSessionView] keeps its input enabled while a reply is
      awaited; its [handleSend] is split at the [await] and the promises
      that have not settled are part of the state.
    - [localStorage] holds text; a stored text is represented by what
      [JSON.parse] makes of it ([StoredText]), and [setItem] does not
      fail.  A text that parses holds a value of the TypeScript type at
      which the program reads it. *)

From Stdlib Require Import ZArith List Ascii String Bool Lia.
From Stdlib Require Import SpecFloat.
Import ListNotations.

Local Open Scope string_scope.
Local Open Scope Z_scope.
Local Open Scope list_scope.

(** ** JavaScript numbers *)

Module Number.

Definition prec : Z := 53.
Definition emax : Z := 1024.

(** The binary64 value of an integer (exact up to 2^53, rounded to
    nearest-even beyond). *)
Definition of_Z (z : Z) : spec_float := binary_normalize prec emax z 0 false.

Definition add : spec_float -> spec_float -> spec_float := SFadd prec emax.
Definition sub : spec_float -> spec_float -> spec_float := SFsub prec emax.
Definition div : spec_float -> spec_float -> spec_float := SFdiv prec emax.
Definition mul : spec_float -> spec_float -> spec_float := SFmul prec emax.

(** [x >= y]; false as soon as one side is NaN. *)
Definition geb (x y : spec_float) : bool := SFleb y x.

(** The literal [0.8]: the double nearest to 4/5, 0x1.999999999999ap-1. *)
Definition lit_0_8 : spec_float := S754_finite false 7205759403792794 (-53).

(** [Math.round]: the integer nearest to [x], ties towards +infinity,
    that is floor(x + 1/2) computed exactly on the value m * 2^e.
    NaN and the infinities are returned unchanged by JavaScript; no [Z]
    denotes them and 0 stands in their place. *)
Definition Math_round (x : spec_float) : Z :=
  match x with
  | S754_finite s m e =>
      let v := if s then Z.neg m else Z.pos m in
      match e with
      | Zneg p => (2 * v + 2 ^ Z.pos p) / 2 ^ (Z.pos p + 1)
      | _ => v * 2 ^ e
      end
  | _ => 0
  end.

(** The integer that a Number with an integral value denotes, m * 2^e.
    A sum of integers has no fractional part; one that were there would
    be dropped.  As for [Math_round], 0 stands in the place of NaN and of
    the infinities, which a sum reaches only from 2^1023 on. *)
Definition to_Z (x : spec_float) : Z :=
  match x with
  | S754_finite s m e =>
      let v := if s then Z.neg m else Z.pos m in
      match e with
      | Zneg p => v / 2 ^ Z.pos p
      | _ => v * 2 ^ e
      end
  | _ => 0
  end.

(** [a + b] on two Numbers that hold integers: exact while the sum is
    below 2^53, rounded to the nearest double beyond. *)
Definition plus (a b : Z) : Z := to_Z (add (of_Z a) (of_Z b)).

(** A number that is not negative: +0, a positive finite value,
    +infinity.  NaN is kept on this side because [Math_round] sends it
    to 0. *)
Definition nonneg (x : spec_float) : Prop :=
  match x with
  | S754_zero s | S754_infinity s | S754_finite s _ _ => s = false
  | S754_nan => True
  end.

End Number.

(** ** types.ts *)

Inductive KnowledgeLevel := BEGINNER | INTERMEDIATE | ADVANCED.
Inductive LearningGoal := EXAM_PREP | CONCEPT_UNDERSTANDING | SKILL_BUILDING.
Inductive LearningStyle := TEXT | VIDEO | QUIZZES | MIXED.
Inductive SessionFeedback := easy | medium | hard.

Record PerformanceData := {
  quizScores : list Z;
  timeSpentMinutes : Z;
  lastFeedback : option SessionFeedback;
  completedTopics : list string;
  averageAccuracy : Z
}.

Record UserProfile := {
  name : string;
  classInfo : string;
  subject : string;
  level : KnowledgeLevel;
  goal : LearningGoal;
  style : LearningStyle;
  timePerDay : Z;
  topic : string;
  language : string;
  performance : PerformanceData
}.

Inductive ModuleStatus := locked | current | completed.

Module Source.
Record t := { uri : string; title : string }.
End Source.

(** The interface [Module] of types.ts ([Module] is a keyword here). *)
Module Mod.
Record t := {
  id : string;
  title : string;
  description : string;
  status : ModuleStatus;
  topics : list string;
  videoUrl : option string;
  sources : option (list Source.t)
}.
End Mod.

Record LearningPath := {
  modules : list Mod.t;
  estimatedWeeks : Z;
  personalizedReasoning : string
}.

Record QuizQuestion := {
  question : string;
  options : list string;
  correctAnswer : Z;
  explanation : string
}.

Module Quiz.
Record t := { title : string; questions : list QuizQuestion }.
End Quiz.

(** ** Promises and exceptions *)

Inductive Exn := GatewayError | SyntaxError | TypeError.

Inductive Promise (A : Type) :=
| Resolved (a : A)
| Rejected (e : Exn).
Arguments Resolved {A} a.
Arguments Rejected {A} e.

(** ** services/geminiService.ts *)

(** What [JSON.parse] makes of a text: a syntax error, or a value.  Values
    are typed: a text that parses is taken to hold a value of the
    TypeScript type at which the program reads it. *)
Inductive Parsed (A : Type) :=
| NotJson
| Json (a : A).
Arguments NotJson {A}.
Arguments Json {A} a.

(** A module as the model writes it, before [status] and [sources] are
    attached. *)
Record RawModule := {
  raw_id : string;
  raw_title : string;
  raw_description : string;
  raw_topics : list string;
  raw_videoUrl : option string
}.

Record RawPath := {
  raw_modules : list RawModule;
  raw_estimatedWeeks : Z;
  raw_personalizedReasoning : string
}.

(** What the reply to the path prompt parses to: an object with a
    [modules] array, or a value on which [path.modules.map] cannot be
    called (the object of ['{}'], [null], a [modules] that is no array). *)
Inductive PathValue :=
| NoModuleArray
| PathObject (raw : RawPath).

(** What the reply to the quiz prompt parses to: a quiz, or the object of
    ['{}'], which has no [questions]. *)
Inductive QuizValue :=
| EmptyObject
| QuizObject (quiz : Quiz.t).

(** A grounding chunk: [chunk.web?.uri] and [chunk.web?.title]. *)
Record Web := { web_uri : option string; web_title : option string }.
Record GroundingChunk := { web : option Web }.

(** A response of [ai.models.generateContent]: [text] is [None] when
    [response.text] is undefined or empty. *)
Record GenerateContentResponse (A : Type) := {
  text : option (Parsed A);
  groundingChunks : list GroundingChunk
}.
Arguments text {A} _.
Arguments groundingChunks {A} _.

(** [s || d] on an optional string: [undefined] and the empty string are
    falsy. *)
Definition or_string (s : option string) (d : string) : string :=
  match s with
  | Some v => if String.eqb v EmptyString then d else v
  | None => d
  end.

Definition chunk_source (chunk : GroundingChunk) : Source.t :=
  {| Source.uri := or_string (match web chunk with Some w => web_uri w | None => None end)
                     EmptyString;
     Source.title := or_string (match web chunk with Some w => web_title w | None => None end)
                       "Educational Context" |}.

Definition grounding_sources (chunks : list GroundingChunk) : list Source.t :=
  filter (fun s => negb (String.eqb (Source.uri s) EmptyString)) (map chunk_source chunks).

(** [{ ...m, status: 'current', sources: sources.length > 0 ? sources : undefined }] *)
Definition unlock (srcs : list Source.t) (m : RawModule) : Mod.t :=
  {| Mod.id := raw_id m;
     Mod.title := raw_title m;
     Mod.description := raw_description m;
     Mod.status := current;
     Mod.topics := raw_topics m;
     Mod.videoUrl := raw_videoUrl m;
     Mod.sources := match srcs with [] => None | _ => Some srcs end |}.

(** The object returned by the [catch] branch of [generateLearningPath]. *)
Definition fallbackPath (p : UserProfile) : LearningPath :=
  {| estimatedWeeks := 4;
     personalizedReasoning :=
       "Fallback sequence activated due to search constraints. Focusing on core mastery.";
     modules :=
       [ {| Mod.id := "m1";
            Mod.title := ("Foundations of " ++ topic p)%string;
            Mod.description := "A comprehensive overview of the fundamental principles.";
            Mod.status := current;
            Mod.topics := ["Terminology"; "Core Concepts"; "Introductory Theory"];
            Mod.videoUrl := Some "https://www.youtube.com/watch?v=0pThnRneDjw";
            Mod.sources := None |} ] |}.

(** The [try] block of [generateLearningPath]: [None] when it throws.
    A missing text is replaced by ['{}'], which parses to an object
    without [modules]. *)
Definition tryGenerateLearningPath
    (reply : Promise (GenerateContentResponse PathValue)) : option LearningPath :=
  match reply with
  | Rejected _ => None
  | Resolved response =>
      match text response with
      | None | Some NotJson | Some (Json NoModuleArray) => None
      | Some (Json (PathObject path)) =>
          let srcs := grounding_sources (groundingChunks response) in
          Some {| modules := map (unlock srcs) (raw_modules path);
                  estimatedWeeks := raw_estimatedWeeks path;
                  personalizedReasoning := raw_personalizedReasoning path |}
      end
  end.

Definition generateLearningPath
    (reply : Promise (GenerateContentResponse PathValue))
    (p : UserProfile) : Promise LearningPath :=
  match tryGenerateLearningPath reply with
  | Some path => Resolved path
  | None => Resolved (fallbackPath p)
  end.

Definition fallbackSuggestions (p : UserProfile) : list string :=
  [ ("Advanced " ++ topic p ++ " Strategies")%string;
    ("The Ethics of " ++ topic p)%string;
    ("Practical " ++ topic p ++ " Applications")%string;
    ("Future Trends in " ++ topic p)%string;
    (topic p ++ " Masterclass")%string ].

(** [JSON.parse(response.text || '[]')] inside a [try] whose [catch]
    returns the five templated titles; a missing text is replaced by
    ['[]']. *)
Definition getRelatedCourseSuggestions
    (reply : Promise (GenerateContentResponse (list string)))
    (p : UserProfile) : Promise (list string) :=
  match reply with
  | Rejected _ => Resolved (fallbackSuggestions p)
  | Resolved response =>
      match text response with
      | None => Resolved []
      | Some (Json titles) => Resolved titles
      | Some NotJson => Resolved (fallbackSuggestions p)
      end
  end.

(** [JSON.parse(response.text || '{}')] after the awaited call, with no
    [try]: the promise of [generateQuiz] rejects when the call does or
    when the text is not JSON; a missing text is replaced by ['{}'],
    which parses to an object without [questions]. *)
Definition generateQuiz (reply : Promise (GenerateContentResponse QuizValue))
    (p : UserProfile) (moduleTitle : string) : Promise QuizValue :=
  match reply with
  | Rejected e => Rejected e
  | Resolved response =>
      match text response with
      | None => Resolved EmptyObject
      | Some NotJson => Rejected SyntaxError
      | Some (Json quiz) => Resolved quiz
      end
  end.

(** The three imports of [App] from the service module. *)
Record Services := {
  svc_generateLearningPath : UserProfile -> Promise LearningPath;
  svc_getRelatedCourseSuggestions : UserProfile -> Promise (list string);
  svc_generateQuiz : UserProfile -> string -> Promise QuizValue
}.

(** What the remote model answers to each of the three calls. *)
Record Gateway := {
  pathReply : Promise (GenerateContentResponse PathValue);
  suggestionsReply : Promise (GenerateContentResponse (list string));
  quizReply : Promise (GenerateContentResponse QuizValue)
}.

Definition geminiService (g : Gateway) : Services :=
  {| svc_generateLearningPath := generateLearningPath (pathReply g);
     svc_getRelatedCourseSuggestions := getRelatedCourseSuggestions (suggestionsReply g);
     svc_generateQuiz := generateQuiz (quizReply g) |}.

(** ** The browser store *)

(** A text under a key of [localStorage]: the output of [JSON.stringify]
    on a value, a non-empty text that [JSON.parse] rejects, or the empty
    text. *)
Inductive StoredText (A : Type) :=
| Stringified (a : A)
| Unparseable
| EmptyText.
Arguments Stringified {A} a.
Arguments Unparseable {A}.
Arguments EmptyText {A}.

(** The two keys the application uses; [None] is the [null] that
    [getItem] returns for a missing key. *)
Record Storage := {
  edupal_profile : option (StoredText UserProfile);
  edupal_path : option (StoredText LearningPath)
}.

(** [localStorage.clear()] *)
Definition clearStorage : Storage :=
  {| edupal_profile := None; edupal_path := None |}.

(** Truthiness of what [getItem] returns: [null] and the empty string are
    falsy. *)
Definition truthy {A} (s : option (StoredText A)) : bool :=
  match s with
  | Some (Stringified _) | Some Unparseable => true
  | Some EmptyText | None => false
  end.

(** [JSON.parse] of what [getItem] returned. *)
Definition JSON_parse {A} (s : option (StoredText A)) : Parsed A :=
  match s with
  | Some (Stringified a) => Json a
  | _ => NotJson
  end.

Definition JSON_stringify {A} (a : A) : StoredText A := Stringified a.

(** ** App.tsx: the component state *)

Inductive View := WELCOME | ONBOARDING | DASHBOARD | TUTORING | QUIZ | FEEDBACK.

Record AppState := {
  view : View;
  profile : option UserProfile;
  learningPath : option LearningPath;
  suggestedTitles : list string;
  currentModule : option Mod.t;
  isLoading : bool;
  loadingMsg : string;
  activeQuiz : option QuizValue;
  sessionStartTime : Z;
  localStorage : Storage;
  console : list Exn
}.

(** The state on mount, over whatever the store holds. *)
Definition initialState (store : Storage) : AppState :=
  {| view := WELCOME;
     profile := None;
     learningPath := None;
     suggestedTitles := [];
     currentModule := None;
     isLoading := false;
     loadingMsg := "Initializing...";
     activeQuiz := None;
     sessionStartTime := 0;
     localStorage := store;
     console := [] |}.

Definition setView (v : View) (st : AppState) : AppState :=
  {| view := v; profile := profile st; learningPath := learningPath st;
     suggestedTitles := suggestedTitles st; currentModule := currentModule st;
     isLoading := isLoading st; loadingMsg := loadingMsg st;
     activeQuiz := activeQuiz st; sessionStartTime := sessionStartTime st;
     localStorage := localStorage st; console := console st |}.

Definition setProfile (p : UserProfile) (st : AppState) : AppState :=
  {| view := view st; profile := Some p; learningPath := learningPath st;
     suggestedTitles := suggestedTitles st; currentModule := currentModule st;
     isLoading := isLoading st; loadingMsg := loadingMsg st;
     activeQuiz := activeQuiz st; sessionStartTime := sessionStartTime st;
     localStorage := localStorage st; console := console st |}.

Definition setLearningPath (path : LearningPath) (st : AppState) : AppState :=
  {| view := view st; profile := profile st; learningPath := Some path;
     suggestedTitles := suggestedTitles st; currentModule := currentModule st;
     isLoading := isLoading st; loadingMsg := loadingMsg st;
     activeQuiz := activeQuiz st; sessionStartTime := sessionStartTime st;
     localStorage := localStorage st; console := console st |}.

Definition setSuggestedTitles (titles : list string) (st : AppState) : AppState :=
  {| view := view st; profile := profile st; learningPath := learningPath st;
     suggestedTitles := titles; currentModule := currentModule st;
     isLoading := isLoading st; loadingMsg := loadingMsg st;
     activeQuiz := activeQuiz st; sessionStartTime := sessionStartTime st;
     localStorage := localStorage st; console := console st |}.

(** The argument is [path.modules[0]] or a module of the path:
    [undefined] and [null] are both [None]. *)
Definition setCurrentModule (m : option Mod.t) (st : AppState) : AppState :=
  {| view := view st; profile := profile st; learningPath := learningPath st;
     suggestedTitles := suggestedTitles st; currentModule := m;
     isLoading := isLoading st; loadingMsg := loadingMsg st;
     activeQuiz := activeQuiz st; sessionStartTime := sessionStartTime st;
     localStorage := localStorage st; console := console st |}.

Definition setIsLoading (b : bool) (st : AppState) : AppState :=
  {| view := view st; profile := profile st; learningPath := learningPath st;
     suggestedTitles := suggestedTitles st; currentModule := currentModule st;
     isLoading := b; loadingMsg := loadingMsg st;
     activeQuiz := activeQuiz st; sessionStartTime := sessionStartTime st;
     localStorage := localStorage st; console := console st |}.

Definition setLoadingMsg (msg : string) (st : AppState) : AppState :=
  {| view := view st; profile := profile st; learningPath := learningPath st;
     suggestedTitles := suggestedTitles st; currentModule := currentModule st;
     isLoading := isLoading st; loadingMsg := msg;
     activeQuiz := activeQuiz st; sessionStartTime := sessionStartTime st;
     localStorage := localStorage st; console := console st |}.

Definition setActiveQuiz (q : QuizValue) (st : AppState) : AppState :=
  {| view := view st; profile := profile st; learningPath := learningPath st;
     suggestedTitles := suggestedTitles st; currentModule := currentModule st;
     isLoading := isLoading st; loadingMsg := loadingMsg st;
     activeQuiz := Some q; sessionStartTime := sessionStartTime st;
     localStorage := localStorage st; console := console st |}.

(** [sessionStartTime.current = t] *)
Definition setSessionStartTime (t : Z) (st : AppState) : AppState :=
  {| view := view st; profile := profile st; learningPath := learningPath st;
     suggestedTitles := suggestedTitles st; currentModule := currentModule st;
     isLoading := isLoading st; loadingMsg := loadingMsg st;
     activeQuiz := activeQuiz st; sessionStartTime := t;
     localStorage := localStorage st; console := console st |}.

Definition setLocalStorage (store : Storage) (st : AppState) : AppState :=
  {| view := view st; profile := profile st; learningPath := learningPath st;
     suggestedTitles := suggestedTitles st; currentModule := currentModule st;
     isLoading := isLoading st; loadingMsg := loadingMsg st;
     activeQuiz := activeQuiz st; sessionStartTime := sessionStartTime st;
     localStorage := store; console := console st |}.

(** [console.error(e)] *)
Definition console_error (e : Exn) (st : AppState) : AppState :=
  {| view := view st; profile := profile st; learningPath := learningPath st;
     suggestedTitles := suggestedTitles st; currentModule := currentModule st;
     isLoading := isLoading st; loadingMsg := loadingMsg st;
     activeQuiz := activeQuiz st; sessionStartTime := sessionStartTime st;
     localStorage := localStorage st; console := console st ++ [e] |}.

(** ** App.tsx: the handlers *)

(** [localStorage.setItem(key, text)], one function per key. *)
Definition setItem_profile (t : StoredText UserProfile) (store : Storage) : Storage :=
  {| edupal_profile := Some t; edupal_path := edupal_path store |}.

Definition setItem_path (t : StoredText LearningPath) (store : Storage) : Storage :=
  {| edupal_profile := edupal_profile store; edupal_path := Some t |}.

Definition saveState (newProfile : UserProfile) (newPath : LearningPath)
    (st : AppState) : AppState :=
  setLocalStorage
    (setItem_path (JSON_stringify newPath)
       (setItem_profile (JSON_stringify newProfile) (localStorage st)))
    st.

(** [loadSuggestions]: the state after the awaited titles are stored, or
    the rejection of the call. *)
Definition loadSuggestions (svc : Services) (p : UserProfile) (st : AppState)
  : Promise AppState :=
  match svc_getRelatedCourseSuggestions svc p with
  | Resolved titles => Resolved (setSuggestedTitles titles st)
  | Rejected e => Rejected e
  end.

(** A call of [loadSuggestions] that is not awaited: its update is applied
    where the call is made, and a rejection reaches nobody. *)
Definition loadSuggestions_detached (svc : Services) (p : UserProfile)
    (st : AppState) : AppState :=
  match loadSuggestions svc p st with
  | Resolved st' => st'
  | Rejected _ => st
  end.

(** How a synchronous block ends: normally, or by an exception that
    nothing catches. *)
Inductive Completion :=
| Normal (st : AppState)
| Throws (e : Exn) (st : AppState).

(** The effect that runs once on mount. *)
Definition restoreSession (svc : Services) (st : AppState) : Completion :=
  let savedProfile := edupal_profile (localStorage st) in
  let savedPath := edupal_path (localStorage st) in
  if truthy savedProfile && truthy savedPath then
    match JSON_parse savedProfile with
    | NotJson => Throws SyntaxError st
    | Json p =>
        match JSON_parse savedPath with
        | NotJson => Throws SyntaxError st
        | Json path =>
            Normal
              (loadSuggestions_detached svc p
                 (setView DASHBOARD
                    (setCurrentModule (hd_error (modules path))
                       (setLearningPath path (setProfile p st)))))
        end
    end
  else Normal st.

Definition handleOnboardingComplete (svc : Services) (userData : UserProfile)
    (st : AppState) : AppState :=
  let st := setIsLoading true st in
  let st := setLoadingMsg "Synthesizing Personalized Curriculum..." st in
  let st := setProfile userData st in
  let st :=
    match svc_generateLearningPath svc userData with
    | Rejected error => console_error error st
    | Resolved path =>
        let st := setLearningPath path st in
        let st := setCurrentModule (hd_error (modules path)) st in
        let st := saveState userData path st in
        match loadSuggestions svc userData st with
        | Rejected error => console_error error st
        | Resolved st => setView DASHBOARD st
        end
    end in
  setIsLoading false st.

(** The double quote of the loading message. *)
Definition dquote : string := String "034"%char EmptyString.

(** [{ ...profile, topic: newTopic }] *)
Definition with_topic (newTopic : string) (p : UserProfile) : UserProfile :=
  {| name := name p; classInfo := classInfo p; subject := subject p;
     level := level p; goal := goal p; style := style p;
     timePerDay := timePerDay p; topic := newTopic; language := language p;
     performance := performance p |}.

Definition handleSelectSuggested (svc : Services) (newTopic : string)
    (st : AppState) : AppState :=
  match profile st with
  | None => st
  | Some p =>
      let st := setIsLoading true st in
      let st := setLoadingMsg ("Architecting " ++ dquote ++ newTopic ++ dquote ++ "...")%string st in
      let newProfile := with_topic newTopic p in
      let st := setProfile newProfile st in
      let st :=
        match svc_generateLearningPath svc newProfile with
        | Rejected e => console_error e st
        | Resolved path =>
            let st := setLearningPath path st in
            let st := setCurrentModule (hd_error (modules path)) st in
            let st := saveState newProfile path st in
            let st := loadSuggestions_detached svc newProfile st in
            setView DASHBOARD st
        end in
      setIsLoading false st
  end.

(** [x || 0] on a number. *)
Definition or_zero (x : Z) : Z := if Z.eqb x 0 then 0 else x.

(** [Math.round((Date.now() - sessionStartTime.current) / 60000)] *)
Definition elapsedMinutes (now start : Z) : Z :=
  Number.Math_round
    (Number.div (Number.sub (Number.of_Z now) (Number.of_Z start)) (Number.of_Z 60000)).

(** [{ ...profile, performance: { ...profile.performance, timeSpentMinutes: t } }] *)
Definition with_timeSpentMinutes (t : Z) (p : UserProfile) : UserProfile :=
  {| name := name p; classInfo := classInfo p; subject := subject p;
     level := level p; goal := goal p; style := style p;
     timePerDay := timePerDay p; topic := topic p; language := language p;
     performance :=
       {| quizScores := quizScores (performance p);
          timeSpentMinutes := t;
          lastFeedback := lastFeedback (performance p);
          completedTopics := completedTopics (performance p);
          averageAccuracy := averageAccuracy (performance p) |} |}.

(** [now] is the value of [Date.now()] when the handler runs. *)
Definition handleEndSession (now : Z) (st : AppState) : AppState :=
  let elapsed := elapsedMinutes now (sessionStartTime st) in
  let st :=
    match profile st with
    | Some p =>
        setProfile
          (with_timeSpentMinutes
             (Number.plus (or_zero (timeSpentMinutes (performance p))) elapsed) p)
          st
    | None => st
    end in
  setView FEEDBACK st.

(** [{ ...profile, performance: { ...profile.performance, lastFeedback: feedback } }] *)
Definition with_lastFeedback (feedback : SessionFeedback) (p : UserProfile) : UserProfile :=
  {| name := name p; classInfo := classInfo p; subject := subject p;
     level := level p; goal := goal p; style := style p;
     timePerDay := timePerDay p; topic := topic p; language := language p;
     performance :=
       {| quizScores := quizScores (performance p);
          timeSpentMinutes := timeSpentMinutes (performance p);
          lastFeedback := Some feedback;
          completedTopics := completedTopics (performance p);
          averageAccuracy := averageAccuracy (performance p) |} |}.

Definition submitFeedback (feedback : SessionFeedback) (st : AppState) : AppState :=
  let st :=
    match profile st, learningPath st with
    | Some p, Some path =>
        let updatedProfile := with_lastFeedback feedback p in
        saveState updatedProfile path (setProfile updatedProfile st)
    | _, _ => st
    end in
  setView DASHBOARD st.

Definition startQuiz (svc : Services) (st : AppState) : AppState :=
  match profile st, currentModule st with
  | Some p, Some m =>
      let st := setIsLoading true st in
      let st := setLoadingMsg "Generating Assessment..." st in
      let st :=
        match svc_generateQuiz svc p (Mod.title m) with
        | Resolved quiz => setView QUIZ (setActiveQuiz quiz st)
        | Rejected error => console_error error st
        end in
      setIsLoading false st
  | _, _ => st
  end.

(** [(score / total) >= 0.8] *)
Definition passes (score total : Z) : bool :=
  Number.geb (Number.div (Number.of_Z score) (Number.of_Z total)) Number.lit_0_8.

(** [currentScores.reduce((a, b) => a + b, 0)]: the scores are added one
    by one, each sum rounded as binary64 rounds it. *)
Definition reduceSum (currentScores : list Z) : spec_float :=
  fold_left (fun a b => Number.add a (Number.of_Z b)) currentScores (Number.of_Z 0).

(** [Math.round((currentScores.reduce((a, b) => a + b, 0) / (currentScores.length * 5)) * 100)] *)
Definition avgAccuracy (currentScores : list Z) : Z :=
  Number.Math_round
    (Number.mul
       (Number.div (reduceSum currentScores)
                   (Number.mul (Number.of_Z (Z.of_nat (List.length currentScores)))
                               (Number.of_Z 5)))
       (Number.of_Z 100)).

(** [{ ...m, status: 'completed' }] *)
Definition with_status_completed (m : Mod.t) : Mod.t :=
  {| Mod.id := Mod.id m; Mod.title := Mod.title m;
     Mod.description := Mod.description m; Mod.status := completed;
     Mod.topics := Mod.topics m; Mod.videoUrl := Mod.videoUrl m;
     Mod.sources := Mod.sources m |}.

(** The callback of [learningPath.modules.map] in [handleQuizComplete]. *)
Definition complete_if_current (cm m : Mod.t) : Mod.t :=
  if String.eqb (Mod.id m) (Mod.id cm) then with_status_completed m else m.

(** [{ ...learningPath, modules: updatedModules }] *)
Definition with_modules (ms : list Mod.t) (path : LearningPath) : LearningPath :=
  {| modules := ms; estimatedWeeks := estimatedWeeks path;
     personalizedReasoning := personalizedReasoning path |}.

(** The profile that [handleQuizComplete] builds. *)
Definition with_quiz_result (score : Z) (passed : bool) (moduleTitle : string)
    (p : UserProfile) : UserProfile :=
  let currentScores := quizScores (performance p) ++ [score] in
  {| name := name p; classInfo := classInfo p; subject := subject p;
     level := level p; goal := goal p; style := style p;
     timePerDay := timePerDay p; topic := topic p; language := language p;
     performance :=
       {| quizScores := currentScores;
          timeSpentMinutes := timeSpentMinutes (performance p);
          lastFeedback := lastFeedback (performance p);
          completedTopics :=
            if passed then completedTopics (performance p) ++ [moduleTitle]
            else completedTopics (performance p);
          averageAccuracy := avgAccuracy currentScores |} |}.

Definition handleQuizComplete (score total : Z) (st : AppState) : AppState :=
  match learningPath st, currentModule st, profile st with
  | Some path, Some cm, Some p =>
      let passed := passes score total in
      let newPath :=
        if passed then with_modules (map (complete_if_current cm) (modules path)) path
        else path in
      let st := if passed then setLearningPath newPath st else st in
      let newProfile := with_quiz_result score passed (Mod.title cm) p in
      saveState newProfile newPath (setProfile newProfile st)
  | _, _, _ => st
  end.

(** [now] is the value of [Date.now()] when the handler runs. *)
Definition handleSelectModule (module : Mod.t) (now : Z) (st : AppState) : AppState :=
  setView TUTORING (setSessionStartTime now (setCurrentModule (Some module) st)).

(** The logo of the header: [profile && setView(View.DASHBOARD)]. *)
Definition handleLogoClick (st : AppState) : AppState :=
  match profile st with
  | Some _ => setView DASHBOARD st
  | None => st
  end.

(** The sign-out button: [localStorage.clear(); window.location.reload()].
    The page starts again over the emptied store. *)
Definition handleLogout (st : AppState) : AppState := initialState clearStorage.

(** ** App.tsx: OnboardingView *)

Definition zeroPerformance : PerformanceData :=
  {| quizScores := []; timeSpentMinutes := 0; lastFeedback := None;
     completedTopics := []; averageAccuracy := 0 |}.

(** The [Partial<UserProfile>] of the form.  The six fields that the
    initial value sets are never removed; the four text fields start
    undefined. *)
Record Draft := {
  d_name : option string;
  d_classInfo : option string;
  d_subject : option string;
  d_level : KnowledgeLevel;
  d_goal : LearningGoal;
  d_style : LearningStyle;
  d_timePerDay : Z;
  d_topic : option string;
  d_language : string;
  d_performance : PerformanceData
}.

Definition initialDraft : Draft :=
  {| d_name := None; d_classInfo := None; d_subject := None;
     d_level := BEGINNER; d_goal := CONCEPT_UNDERSTANDING; d_style := MIXED;
     d_timePerDay := 1; d_topic := None; d_language := "English";
     d_performance := zeroPerformance |}.

Record OnboardingState := { step : Z; data : Draft }.

Definition initialOnboarding : OnboardingState := {| step := 1; data := initialDraft |}.

(** The controls of the three steps. *)
Inductive OnboardingEvent :=
| ChangeName (v : string)
| ChangeClassInfo (v : string)
| ChangeSubject (v : string)
| ClickContinue
| ChooseLevel (lvl : KnowledgeLevel)
| ChangeTopic (v : string)
| ClickBack
| ClickNextStep
| ChangeLanguage (v : string)
| ChooseGoal (g : LearningGoal)
| ClickLaunch.

(** Truthiness of an optional text. *)
Definition filled (s : option string) : bool :=
  match s with
  | Some v => negb (String.eqb v EmptyString)
  | None => false
  end.

(** [data as UserProfile], defined where the four text fields are set. *)
Definition as_UserProfile (d : Draft) : option UserProfile :=
  match d_name d, d_classInfo d, d_subject d, d_topic d with
  | Some n, Some c, Some s, Some t =>
      Some {| name := n; classInfo := c; subject := s; level := d_level d;
              goal := d_goal d; style := d_style d; timePerDay := d_timePerDay d;
              topic := t; language := d_language d;
              performance := d_performance d |}
  | _, _, _, _ => None
  end.

Definition set_d_name (v : string) (d : Draft) : Draft :=
  {| d_name := Some v; d_classInfo := d_classInfo d; d_subject := d_subject d;
     d_level := d_level d; d_goal := d_goal d; d_style := d_style d;
     d_timePerDay := d_timePerDay d; d_topic := d_topic d;
     d_language := d_language d; d_performance := d_performance d |}.

Definition set_d_classInfo (v : string) (d : Draft) : Draft :=
  {| d_name := d_name d; d_classInfo := Some v; d_subject := d_subject d;
     d_level := d_level d; d_goal := d_goal d; d_style := d_style d;
     d_timePerDay := d_timePerDay d; d_topic := d_topic d;
     d_language := d_language d; d_performance := d_performance d |}.

Definition set_d_subject (v : string) (d : Draft) : Draft :=
  {| d_name := d_name d; d_classInfo := d_classInfo d; d_subject := Some v;
     d_level := d_level d; d_goal := d_goal d; d_style := d_style d;
     d_timePerDay := d_timePerDay d; d_topic := d_topic d;
     d_language := d_language d; d_performance := d_performance d |}.

Definition set_d_level (lvl : KnowledgeLevel) (d : Draft) : Draft :=
  {| d_name := d_name d; d_classInfo := d_classInfo d; d_subject := d_subject d;
     d_level := lvl; d_goal := d_goal d; d_style := d_style d;
     d_timePerDay := d_timePerDay d; d_topic := d_topic d;
     d_language := d_language d; d_performance := d_performance d |}.

Definition set_d_topic (v : string) (d : Draft) : Draft :=
  {| d_name := d_name d; d_classInfo := d_classInfo d; d_subject := d_subject d;
     d_level := d_level d; d_goal := d_goal d; d_style := d_style d;
     d_timePerDay := d_timePerDay d; d_topic := Some v;
     d_language := d_language d; d_performance := d_performance d |}.

Definition set_d_language (v : string) (d : Draft) : Draft :=
  {| d_name := d_name d; d_classInfo := d_classInfo d; d_subject := d_subject d;
     d_level := d_level d; d_goal := d_goal d; d_style := d_style d;
     d_timePerDay := d_timePerDay d; d_topic := d_topic d;
     d_language := v; d_performance := d_performance d |}.

Definition set_d_goal (g : LearningGoal) (d : Draft) : Draft :=
  {| d_name := d_name d; d_classInfo := d_classInfo d; d_subject := d_subject d;
     d_level := d_level d; d_goal := g; d_style := d_style d;
     d_timePerDay := d_timePerDay d; d_topic := d_topic d;
     d_language := d_language d; d_performance := d_performance d |}.

Definition setData (d : Draft) (s : OnboardingState) : OnboardingState :=
  {| step := step s; data := d |}.

Definition setStep (n : Z) (s : OnboardingState) : OnboardingState :=
  {| step := n; data := data s |}.

(** One event of the form.  [None]: the control is not rendered at this
    step, or is disabled.  Otherwise the next state and, for the launch
    button, the profile handed to [onComplete]. *)
Definition onboardingEvent (ev : OnboardingEvent) (s : OnboardingState)
  : option (OnboardingState * option UserProfile) :=
  let d := data s in
  match ev with
  | ChangeName v =>
      if step s =? 1 then Some (setData (set_d_name v d) s, None) else None
  | ChangeClassInfo v =>
      if step s =? 1 then Some (setData (set_d_classInfo v d) s, None) else None
  | ChangeSubject v =>
      if step s =? 1 then Some (setData (set_d_subject v d) s, None) else None
  | ClickContinue =>
      if (step s =? 1) && filled (d_name d) && filled (d_classInfo d) && filled (d_subject d)
      then Some (setStep (step s + 1) s, None) else None
  | ChooseLevel lvl =>
      if step s =? 2 then Some (setData (set_d_level lvl d) s, None) else None
  | ChangeTopic v =>
      if step s =? 2 then Some (setData (set_d_topic v d) s, None) else None
  | ClickBack =>
      if (step s =? 2) || (step s =? 3) then Some (setStep (step s - 1) s, None) else None
  | ClickNextStep =>
      if (step s =? 2) && filled (d_topic d)
      then Some (setStep (step s + 1) s, None) else None
  | ChangeLanguage v =>
      if step s =? 3 then Some (setData (set_d_language v d) s, None) else None
  | ChooseGoal g =>
      if step s =? 3 then Some (setData (set_d_goal g d) s, None) else None
  | ClickLaunch =>
      if step s =? 3 then
        match as_UserProfile d with
        | Some p => Some (s, Some p)
        | None => None
        end
      else None
  end.

(** The states of the form that some sequence of events leads to. *)
Inductive onboardingReachable : OnboardingState -> Prop :=
| onb_init : onboardingReachable initialOnboarding
| onb_step s ev s' out :
    onboardingReachable s ->
    onboardingEvent ev s = Some (s', out) ->
    onboardingReachable s'.

(** The guard of the spec on a draft handed to [completeOnboarding]. *)
Definition validDraft (p : UserProfile) : Prop :=
  name p <> EmptyString /\ classInfo p <> EmptyString /\
  subject p <> EmptyString /\ topic p <> EmptyString.

(** ** App.tsx: QuizView *)

Record QuizViewState := {
  currentIdx : Z;
  answers : list Z;
  showResult : bool;
  selected : option Z
}.

Definition initialQuizView : QuizViewState :=
  {| currentIdx := 0; answers := []; showResult := false; selected := None |}.

(** [newAnswers.reduce((acc, ans, i) =>
      ans === quiz.questions[i].correctAnswer ? acc + 1 : acc, 0)],
    from index [i] on with accumulator [acc].  [None]: [quiz.questions[i]]
    is undefined and reading its [correctAnswer] throws. *)
Fixpoint reduceScore (qs : list QuizQuestion) (i : nat) (newAnswers : list Z)
    (acc : Z) : option Z :=
  match newAnswers with
  | [] => Some acc
  | ans :: rest =>
      match nth_error qs i with
      | None => None
      | Some q =>
          reduceScore qs (S i) rest (if ans =? correctAnswer q then acc + 1 else acc)
      end
  end.

(** What a call of [handleNext] does. *)
Inductive NextOutcome :=
| NextIgnored                                   (* nothing selected: return *)
| NextAdvanced (s : QuizViewState)              (* next question *)
| NextCompleted (s : QuizViewState) (score total : Z)  (* onComplete(score, total) *)
| NextThrew (e : Exn).

Definition handleNext (quiz : Quiz.t) (s : QuizViewState) : NextOutcome :=
  match selected s with
  | None => NextIgnored
  | Some sel =>
      let newAnswers := answers s ++ [sel] in
      let len := Z.of_nat (List.length (Quiz.questions quiz)) in
      if currentIdx s <? len - 1 then
        NextAdvanced {| currentIdx := currentIdx s + 1; answers := newAnswers;
                        showResult := showResult s; selected := None |}
      else
        match reduceScore (Quiz.questions quiz) 0 newAnswers 0 with
        | None => NextThrew TypeError
        | Some score =>
            NextCompleted {| currentIdx := currentIdx s; answers := newAnswers;
                             showResult := true; selected := None |}
                          score len
        end
  end.

(** [onClick={() => setSelected(i)}] of the [i]-th option button. *)
Definition setSelected (i : Z) (s : QuizViewState) : QuizViewState :=
  {| currentIdx := currentIdx s; answers := answers s;
     showResult := showResult s; selected := Some i |}.

(** The states of the view that clicks lead to.  The option buttons and the
    next button are rendered only while the result is not shown; there is
    one option button per option of the question on screen. *)
Inductive quizReachable (quiz : Quiz.t) : QuizViewState -> Prop :=
| quiz_init : quizReachable quiz initialQuizView
| quiz_select s q i :
    quizReachable quiz s ->
    showResult s = false ->
    nth_error (Quiz.questions quiz) (Z.to_nat (currentIdx s)) = Some q ->
    0 <= i < Z.of_nat (List.length (options q)) ->
    quizReachable quiz (setSelected i s)
| quiz_next_advanced s s' :
    quizReachable quiz s ->
    showResult s = false ->
    handleNext quiz s = NextAdvanced s' ->
    quizReachable quiz s'
| quiz_next_completed s s' score total :
    quizReachable quiz s ->
    showResult s = false ->
    handleNext quiz s = NextCompleted s' score total ->
    quizReachable quiz s'.

(** The number of positions at which the recorded answer is the
    question's [correctAnswer]. *)
Definition countCorrect (recorded : list Z) (qs : list QuizQuestion) : Z :=
  Z.of_nat
    (List.length (filter (fun aq => fst aq =? correctAnswer (snd aq)) (combine recorded qs))).

(** A whole sitting: each answer is selected and confirmed in turn; the
    result is the call of [onComplete], if the sitting reaches it. *)
Fixpoint sitQuiz (quiz : Quiz.t) (given : list Z) (s : QuizViewState)
  : option (Z * Z) :=
  match given with
  | [] => None
  | a :: rest =>
      match handleNext quiz (setSelected a s) with
      | NextAdvanced s' => sitQuiz quiz rest s'
      | NextCompleted _ score total => Some (score, total)
      | NextIgnored | NextThrew _ => None
      end
  end.

(** The sum of a score sequence, as the spec words it. *)
Definition sumScores (scores : list Z) : Z := fold_right Z.add 0 scores.

(** round(sum(scores) / (count(scores) * 5) * 100) as the spec words it,
    in exact arithmetic: the integer nearest to the quotient
    100 * sum / (5 * count), a half rounded up.  With x = 20 * sum / count
    this is floor(x + 1/2) = floor((40 * sum + count) / (2 * count)). *)
Definition specAccuracy (scores : list Z) : Z :=
  let count := Z.of_nat (List.length scores) in
  (40 * sumScores scores + count) / (2 * count).

(** ** What the claims say, where the code is compared with it *)

(** Path synthesis fails: the remote call rejects, or its text is missing,
    is not JSON, or holds no module array. *)
Definition pathSynthesisFails (reply : Promise (GenerateContentResponse PathValue)) : Prop :=
  match reply with
  | Rejected _ => True
  | Resolved response =>
      match text response with
      | Some (Json (PathObject _)) => False
      | _ => True
      end
  end.

(** The five parts of the session state that the onboarding claim names. *)
Definition sessionUnchanged (st st' : AppState) : Prop :=
  view st' = view st /\ profile st' = profile st /\
  learningPath st' = learningPath st /\ currentModule st' = currentModule st /\
  localStorage st' = localStorage st.

(** The onboarding claim at one draft, one state and one gateway. *)
Definition onboardingClaim (g : Gateway) (draft : UserProfile) (st : AppState) : Prop :=
  let st' := handleOnboardingComplete (geminiService g) draft st in
  (view st' = DASHBOARD /\ profile st' = Some draft /\
   exists path, learningPath st' = Some path /\ modules path <> [])
  \/ (pathSynthesisFails (pathReply g) /\ sessionUnchanged st st').

(** The topic-selection claim at one title, one state and one gateway. *)
Definition selectSuggestedClaim (g : Gateway) (newTopic : string) (st : AppState) : Prop :=
  let st' := handleSelectSuggested (geminiService g) newTopic st in
  pathSynthesisFails (pathReply g) ->
  view st' = DASHBOARD /\ profile st' = profile st /\
  learningPath st' = learningPath st /\ currentModule st' = currentModule st.

(** The start-up claim at one store: the effect ends normally, at Welcome,
    with nothing restored. *)
Definition freshStartClaim (svc : Services) (store : Storage) : Prop :=
  exists st', restoreSession svc (initialState store) = Normal st' /\
              view st' = WELCOME /\ profile st' = None /\ learningPath st' = None.

(** A stored pair of which at least one text fails to deserialize. *)
Definition deserializationFails (store : Storage) : Prop :=
  truthy (edupal_profile store) = true /\ truthy (edupal_path store) = true /\
  (edupal_profile store = Some Unparseable \/ edupal_path store = Some Unparseable).

(** The end-of-session claim at one session, opened at [t0] and ended at
    [t1]: no minute is counted for a session shorter than one minute, and
    the minutes counted are added to those of the profile. *)
Definition endSessionClaim (st : AppState) (m : Mod.t) (t0 t1 : Z) : Prop :=
  let ended := handleEndSession t1 (handleSelectModule m t0 st) in
  (t1 - t0 < 60000 -> elapsedMinutes t1 t0 = 0) /\
  (forall p p',
      profile st = Some p -> profile ended = Some p' ->
      timeSpentMinutes (performance p') =
      timeSpentMinutes (performance p) + elapsedMinutes t1 t0).

(** The accuracy claim at one completed quiz: the stored accuracy is the
    spec's formula over the updated scores. *)
Definition accuracyClaim (score total : Z) (st : AppState) : Prop :=
  forall p',
    profile (handleQuizComplete score total st) = Some p' ->
    averageAccuracy (performance p') = specAccuracy (quizScores (performance p')).

(** [averageAccuracy] of the profile on screen, if any. *)
Definition accuracyOf (st : AppState) : option Z :=
  option_map (fun p => averageAccuracy (performance p)) (profile st).

(** ** Sample data *)

Definition adaProfile : UserProfile :=
  {| name := "Ada"; classInfo := "Grade 11"; subject := "Physics";
     level := BEGINNER; goal := CONCEPT_UNDERSTANDING; style := MIXED;
     timePerDay := 1; topic := "Optics"; language := "English";
     performance := zeroPerformance |}.

Definition opticsModule : Mod.t :=
  {| Mod.id := "m1"; Mod.title := "Lenses"; Mod.description := "Thin lenses";
     Mod.status := current; Mod.topics := ["Refraction"];
     Mod.videoUrl := None; Mod.sources := None |}.

Definition wavesModule : Mod.t :=
  {| Mod.id := "m2"; Mod.title := "Waves"; Mod.description := "Interference";
     Mod.status := current; Mod.topics := ["Diffraction"];
     Mod.videoUrl := None; Mod.sources := None |}.

Definition opticsPath : LearningPath :=
  {| modules := [opticsModule; wavesModule]; estimatedWeeks := 2;
     personalizedReasoning := "Starts from lenses." |}.

(** The gateway is down: each of the three calls rejects. *)
Definition gatewayDown : Gateway :=
  {| pathReply := Rejected GatewayError;
     suggestionsReply := Rejected GatewayError;
     quizReply := Rejected GatewayError |}.

(** The gateway answers with a well-formed path that has no module. *)
Definition gatewayEmptyPath : Gateway :=
  {| pathReply :=
       Resolved {| text := Some (Json (PathObject
                                         {| raw_modules := []; raw_estimatedWeeks := 1;
                                            raw_personalizedReasoning := "Nothing found." |}));
                   groundingChunks := [] |};
     suggestionsReply := Rejected GatewayError;
     quizReply := Rejected GatewayError |}.

(** The form is on screen, nothing is stored. *)
Definition onboardingScreen : AppState := setView ONBOARDING (initialState clearStorage).

(** The dashboard of Ada, restored from the store. *)
Definition adaStore : Storage :=
  {| edupal_profile := Some (Stringified adaProfile);
     edupal_path := Some (Stringified opticsPath) |}.

Definition adaDashboard : AppState :=
  {| view := DASHBOARD; profile := Some adaProfile; learningPath := Some opticsPath;
     suggestedTitles := []; currentModule := Some opticsModule;
     isLoading := false; loadingMsg := "Initializing...";
     activeQuiz := None; sessionStartTime := 0;
     localStorage := adaStore; console := [] |}.

(** Ada after 2^53 minutes of study, as a store may hand her back. *)
Definition veteranDashboard : AppState :=
  setProfile (with_timeSpentMinutes 9007199254740992 adaProfile) adaDashboard.

(** Ada after seven quizzes, the last two of them failed outright. *)
Definition sevenQuizzes : PerformanceData :=
  {| quizScores := [5; 5; 5; 5; 3; 0; 0]; timeSpentMinutes := 0; lastFeedback := None;
     completedTopics := []; averageAccuracy := 66 |}.

Definition adaAfterSevenQuizzes : AppState :=
  setProfile
    {| name := "Ada"; classInfo := "Grade 11"; subject := "Physics";
       level := BEGINNER; goal := CONCEPT_UNDERSTANDING; style := MIXED;
       timePerDay := 1; topic := "Optics"; language := "English";
       performance := sevenQuizzes |}
    adaDashboard.

(** A store whose profile text is corrupted. *)
Definition corruptedStore : Storage :=
  {| edupal_profile := Some Unparseable;
     edupal_path := Some (Stringified opticsPath) |}.

Definition yesNo (q : string) (correct : Z) : QuizQuestion :=
  {| question := q; options := ["yes"; "no"]; correctAnswer := correct;
     explanation := "By definition." |}.

Definition opticsQuiz : Quiz.t :=
  {| Quiz.title := "Lenses";
     Quiz.questions := [yesNo "Q1" 0; yesNo "Q2" 1; yesNo "Q3" 0; yesNo "Q4" 1; yesNo "Q5" 0] |}.

Definition oneQuestionQuiz : Quiz.t :=
  {| Quiz.title := "Lenses"; Quiz.questions := [yesNo "Q1" 0] |}.

(** The form after the three steps have been filled in. *)
Definition filledOnboarding : OnboardingState :=
  {| step := 3;
     data := set_d_topic "Optics"
               (set_d_subject "Physics"
                  (set_d_classInfo "Grade 11" (set_d_name "Ada" initialDraft))) |}.

(** ** App.tsx: what is on screen *)

(** The dashboard is rendered:
    [view === View.DASHBOARD && profile && learningPath]. *)
Definition dashboardShown (st : AppState) : Prop :=
  view st = DASHBOARD /\ profile st <> None /\ learningPath st <> None.

(** The states of the application that user events lead to.  An event is
    available where its control is rendered; a handler that awaits the
    gateway runs to its end before the next event, the loading overlay
    covering the page meanwhile.  Where the render of [QuizView] throws,
    the page is taken down and no event follows; the relation keeps the
    events of the header and the way back there, so that it holds every
    state the program reaches, and possibly more. *)
Inductive appReachable : AppState -> Prop :=
| app_mount svc store st :
    restoreSession svc (initialState store) = Normal st ->
    appReachable st
| app_start st :
    appReachable st -> view st = WELCOME ->
    appReachable (setView ONBOARDING st)
| app_onboarding svc s userData st :
    appReachable st -> view st = ONBOARDING ->
    onboardingReachable s ->
    onboardingEvent ClickLaunch s = Some (s, Some userData) ->
    appReachable (handleOnboardingComplete svc userData st)
| app_select_suggested svc newTopic st :
    appReachable st -> dashboardShown st ->
    In newTopic (suggestedTitles st) ->
    appReachable (handleSelectSuggested svc newTopic st)
| app_select_module m now st path :
    appReachable st -> dashboardShown st ->
    learningPath st = Some path ->
    In m (modules path) \/ currentModule st = Some m ->
    appReachable (handleSelectModule m now st)
| app_end_session now st :
    appReachable st -> view st = TUTORING ->
    profile st <> None -> currentModule st <> None ->
    appReachable (handleEndSession now st)
| app_submit_feedback feedback st :
    appReachable st -> view st = FEEDBACK ->
    appReachable (submitFeedback feedback st)
| app_start_quiz svc st :
    appReachable st -> dashboardShown st ->
    appReachable (startQuiz svc st)
| app_quiz_complete quiz s s' score total st :
    appReachable st -> view st = QUIZ -> activeQuiz st = Some (QuizObject quiz) ->
    quizReachable quiz s -> showResult s = false ->
    handleNext quiz s = NextCompleted s' score total ->
    appReachable (handleQuizComplete score total st)
| app_quiz_back st :
    appReachable st -> view st = QUIZ -> activeQuiz st <> None ->
    appReachable (setView DASHBOARD st)
| app_logo st :
    appReachable st ->
    appReachable (handleLogoClick st)
| app_logout st :
    appReachable st -> profile st <> None ->
    view st <> WELCOME -> view st <> ONBOARDING ->
    appReachable (handleLogout st).

(** Past the onboarding there is a profile, and while the quiz is on
    screen there are a learning path and a current module too. *)
Definition sessionInvariant (st : AppState) : Prop :=
  (view st = WELCOME \/ view st = ONBOARDING \/ profile st <> None) /\
  (view st = QUIZ -> learningPath st <> None /\ currentModule st <> None).

(** ** Invariants of the two forms *)

(** While a question is on screen, the answers recorded so far are those
    of the questions before it. *)
Definition quizInvariant (quiz : Quiz.t) (s : QuizViewState) : Prop :=
  showResult s = false ->
  Z.of_nat (List.length (answers s)) = currentIdx s /\
  0 <= currentIdx s < Z.of_nat (List.length (Quiz.questions quiz)).

(** What holds of the onboarding form at every step: the performance
    record is the initial one, and the fields that the buttons passed so
    far require are filled in. *)
Definition onboardingInvariant (s : OnboardingState) : Prop :=
  d_performance (data s) = zeroPerformance /\
  1 <= step s <= 3 /\
  (2 <= step s ->
   filled (d_name (data s)) = true /\ filled (d_classInfo (data s)) = true /\
   filled (d_subject (data s)) = true) /\
  (3 <= step s -> filled (d_topic (data s)) = true).

(** Runs a sequence of events of the onboarding form; [None] as soon as
    one of them is not available. *)
Definition runOnboarding (evs : list OnboardingEvent) (s : OnboardingState)
  : option OnboardingState :=
  fold_left (fun acc ev => match acc with
                           | Some st => option_map fst (onboardingEvent ev st)
                           | None => None
                           end) evs (Some s).

(** ** App.tsx: DashboardView *)

(** [m.status === 'completed'] *)
Definition isCompleted (m : Mod.t) : bool :=
  match Mod.status m with
  | completed => true
  | _ => false
  end.

(** [path.modules.filter(m => m.status === 'completed').length] *)
Definition completedCount (path : LearningPath) : Z :=
  Z.of_nat (List.length (filter isCompleted (modules path))).

(** [(completed / path.modules.length) * 100], the argument of
    [Math.round] in [DashboardView]. *)
Definition progressRatio (path : LearningPath) : spec_float :=
  Number.mul
    (Number.div (Number.of_Z (completedCount path))
                (Number.of_Z (Z.of_nat (List.length (modules path)))))
    (Number.of_Z 100).

(** The percentage on the progress ring. *)
Definition progress (path : LearningPath) : Z := Number.Math_round (progressRatio path).

(** A Number that is neither NaN nor an infinity. *)
Definition isFiniteNumber (x : spec_float) : Prop :=
  match x with
  | S754_zero _ | S754_finite _ _ _ => True
  | S754_infinity _ | S754_nan => False
  end.

(** ** App.tsx: the result screen of QuizView *)

(** What the result screen computes from the recorded answers: the score
    [s] it prints and the flag [passed] that picks the badge.  [None]:
    reading [quiz.questions[i].correctAnswer] throws. *)
Definition quizResult (quiz : Quiz.t) (s : QuizViewState) : option (Z * bool) :=
  match reduceScore (Quiz.questions quiz) 0 (answers s) 0 with
  | None => None
  | Some score =>
      Some (score,
            Number.geb
              (Number.div (Number.of_Z score)
                          (Number.of_Z (Z.of_nat (List.length (Quiz.questions quiz)))))
              Number.lit_0_8)
  end.

(** What a render of [QuizView] returns: the result screen, the question
    on screen, or an exception. *)
Inductive QuizScreen :=
| ResultScreen (score : Z) (passed : bool)
| QuestionScreen (q : QuizQuestion)
| RenderThrows (e : Exn).

(** The render of [QuizView] over the value that [App] hands it.  Both
    branches read [quiz.questions]: [quiz.questions.length] and
    [quiz.questions[i].correctAnswer] on the result screen,
    [quiz.questions[currentIdx]] and then [q.question] otherwise. *)
Definition renderQuizView (qv : QuizValue) (s : QuizViewState) : QuizScreen :=
  match qv with
  | EmptyObject => RenderThrows TypeError
  | QuizObject quiz =>
      if showResult s then
        match quizResult quiz s with
        | Some (score, passed) => ResultScreen score passed
        | None => RenderThrows TypeError
        end
      else if currentIdx s <? 0 then RenderThrows TypeError
      else
        match nth_error (Quiz.questions quiz) (Z.to_nat (currentIdx s)) with
        | Some q => QuestionScreen q
        | None => RenderThrows TypeError
        end
  end.

(** The address of a grounding chunk, if it has one: [chunk.web?.uri],
    when it is there and not empty. *)
Definition chunkAddress (chunk : GroundingChunk) : option string :=
  match web chunk with
  | Some w =>
      match web_uri w with
      | Some u => if String.eqb u EmptyString then None else Some u
      | None => None
      end
  | None => None
  end.

(** The title of a grounding chunk, if it has one: [chunk.web?.title],
    when it is there and not empty. *)
Definition chunkTitle (chunk : GroundingChunk) : option string :=
  match web chunk with
  | Some w =>
      match web_title w with
      | Some t => if String.eqb t EmptyString then None else Some t
      | None => None
      end
  | None => None
  end.

(** ** services/geminiService.ts: getTutorResponse *)

Inductive Role := user | assistant | system.

Record Message := { role : Role; content : string; timestamp : Z }.

(** The two roles of the request: [m.role === 'assistant' ? 'model' : 'user']. *)
Inductive ContentRole := role_user | role_model.

(** [history.map(m => ({ role: ..., parts: [{ text: m.content }] }))] *)
Definition tutorContents (history : list Message) : list (ContentRole * string) :=
  map (fun m => (match role m with
                 | assistant => role_model
                 | _ => role_user
                 end, content m)) history.

(** The reply used when [response.text] is undefined or empty. *)
Definition nudge : string :=
  "That's an interesting observation. How might we test that hypothesis?".

(** [getTutorResponse] awaits the call with no [try]: it rejects when the
    call does.  [reply] is what the remote model answers to a request:
    the rejection of the call, or [response.text]. *)
Definition getTutorResponse
    (reply : UserProfile -> string -> list (ContentRole * string) -> Promise (option string))
    (history : list Message) (p : UserProfile) (currentModule : string) : Promise string :=
  match reply p currentModule (tutorContents history) with
  | Rejected e => Rejected e
  | Resolved text => Resolved (or_string text nudge)
  end.

(** ** App.tsx: TutorSessionView *)

(** The characters that [String.prototype.trim] removes, among the code
    units below 256: tab, line feed, vertical tab, form feed, carriage
    return, space and the no-break space. *)
Definition isWhiteSpace (c : ascii) : bool :=
  let n := nat_of_ascii c in
  ((n =? 9) || (n =? 10) || (n =? 11) || (n =? 12) || (n =? 13) || (n =? 32)
   || (n =? 160))%nat.

Fixpoint trimStart (s : string) : string :=
  match s with
  | EmptyString => EmptyString
  | String c s' => if isWhiteSpace c then trimStart s' else s
  end.

Fixpoint trimEnd (s : string) : string :=
  match s with
  | EmptyString => EmptyString
  | String c s' =>
      match trimEnd s' with
      | EmptyString => if isWhiteSpace c then EmptyString else String c EmptyString
      | t => String c t
      end
  end.

(** [s.trim()] *)
Definition trim (s : string) : string := trimEnd (trimStart s).

Record TutorState := {
  messages : list Message;
  input : string;
  isTyping : bool;
  tutorConsole : list Exn
}.

(** The text of the first message of a session. *)
Definition greeting (p : UserProfile) (m : Mod.t) : string :=
  ("Identity verified, " ++ name p ++ ". Initializing the " ++ dquote ++ Mod.title m
   ++ dquote
   ++ " node. To begin our session, how would you describe the fundamental objective of this concept in your own words?")%string.

(** The state on mount; [now] is the value of [Date.now()]. *)
Definition initialTutor (p : UserProfile) (m : Mod.t) (now : Z) : TutorState :=
  {| messages := [ {| role := assistant; content := greeting p m; timestamp := now |} ];
     input := EmptyString;
     isTyping := false;
     tutorConsole := [] |}.

Definition setMessages (ms : list Message) (s : TutorState) : TutorState :=
  {| messages := ms; input := input s; isTyping := isTyping s;
     tutorConsole := tutorConsole s |}.

Definition setInput (v : string) (s : TutorState) : TutorState :=
  {| messages := messages s; input := v; isTyping := isTyping s;
     tutorConsole := tutorConsole s |}.

Definition setIsTyping (b : bool) (s : TutorState) : TutorState :=
  {| messages := messages s; input := input s; isTyping := b;
     tutorConsole := tutorConsole s |}.

Definition tutor_console_error (e : Exn) (s : TutorState) : TutorState :=
  {| messages := messages s; input := input s; isTyping := isTyping s;
     tutorConsole := tutorConsole s ++ [e] |}.

(** [handleSend]; [tutor] is the import [getTutorResponse], [now1] and
    [now2] are the values of [Date.now()] when the message is sent and
    when the reply arrives. *)
Definition handleSend
    (tutor : list Message -> UserProfile -> string -> Promise string)
    (p : UserProfile) (m : Mod.t) (now1 now2 : Z) (s : TutorState) : TutorState :=
  if String.eqb (trim (input s)) EmptyString || isTyping s then s
  else
    let userMsg := {| role := user; content := input s; timestamp := now1 |} in
    let newHistory := messages s ++ [userMsg] in
    let s := setIsTyping true (setInput EmptyString (setMessages newHistory s)) in
    let s :=
      match tutor newHistory p (Mod.title m) with
      | Resolved reply =>
          setMessages
            (messages s ++ [ {| role := assistant; content := reply; timestamp := now2 |} ]) s
      | Rejected e => tutor_console_error e s
      end in
    setIsTyping false s.

(** [handleSend] up to its [await]: [None] when the guard returns,
    otherwise the state that the three setters leave and the history of
    the request. *)
Definition handleSend_request (now1 : Z) (s : TutorState)
  : option (TutorState * list Message) :=
  if String.eqb (trim (input s)) EmptyString || isTyping s then None
  else
    let userMsg := {| role := user; content := input s; timestamp := now1 |} in
    let newHistory := messages s ++ [userMsg] in
    Some (setIsTyping true (setInput EmptyString (setMessages newHistory s)), newHistory).

(** [handleSend] from its [await] on, when the awaited promise settles
    with [outcome]; [setMessages(prev => ...)] reads the transcript of
    that moment. *)
Definition handleSend_settle (outcome : Promise string) (now2 : Z) (s : TutorState)
  : TutorState :=
  let s :=
    match outcome with
    | Resolved reply =>
        setMessages
          (messages s ++ [ {| role := assistant; content := reply; timestamp := now2 |} ]) s
    | Rejected e => tutor_console_error e s
    end in
  setIsTyping false s.

(** The states of the view that typing and sending lead to, each with
    the promises of [getTutorResponse] that have not settled yet.  The
    input stays enabled while a reply is awaited: typing and the Enter
    key are events of that time too, and a promise settles at any
    moment. *)
Inductive tutorReachable
    (tutor : list Message -> UserProfile -> string -> Promise string)
    (p : UserProfile) (m : Mod.t) : TutorState -> list (Promise string) -> Prop :=
| tutor_init now : tutorReachable tutor p m (initialTutor p m now) []
| tutor_type s awaited v :
    tutorReachable tutor p m s awaited ->
    tutorReachable tutor p m (setInput v s) awaited
| tutor_send s awaited now1 s' history :
    tutorReachable tutor p m s awaited ->
    handleSend_request now1 s = Some (s', history) ->
    tutorReachable tutor p m s' (awaited ++ [tutor history p (Mod.title m)])
| tutor_settle s before outcome after now2 :
    tutorReachable tutor p m s (before ++ outcome :: after) ->
    tutorReachable tutor p m (handleSend_settle outcome now2 s) (before ++ after).

(** Nothing is awaited and the typing indicator is off, or exactly one
    reply is awaited, the one to the transcript on screen, which ends
    with the message of the student, and the indicator is on. *)
Definition oneRequestAtMost
    (tutor : list Message -> UserProfile -> string -> Promise string)
    (p : UserProfile) (m : Mod.t) (s : TutorState) (awaited : list (Promise string)) : Prop :=
  (awaited = [] /\ isTyping s = false) \/
  (awaited = [tutor (messages s) p (Mod.title m)] /\ isTyping s = true /\
   exists earlier sent, messages s = earlier ++ [sent] /\ role sent = user).

(** A message as the view shows them: one of the two parties wrote it,
    the student something other than blanks, the tutor something. *)
Definition wellFormedMessage (msg : Message) : Prop :=
  match role msg with
  | user => trim (content msg) <> EmptyString
  | assistant => content msg <> EmptyString
  | system => False
  end.

(** ** What the store holds in a running session *)

(** The store holds the records of [p] and [path]. *)
Definition storedPair (store : Storage) (p : UserProfile) (path : LearningPath) : Prop :=
  store = {| edupal_profile := Some (Stringified p);
             edupal_path := Some (Stringified path) |}.

(** The store either holds no session or a pair of well-formed records;
    a learning path in memory is the stored one; and the current module
    is, by its identifier, a module of the learning path. *)
Definition persistenceInvariant (st : AppState) : Prop :=
  (truthy (edupal_profile (localStorage st)) && truthy (edupal_path (localStorage st)) = false
   \/ exists p path, storedPair (localStorage st) p path) /\
  (forall path, learningPath st = Some path ->
                exists p, storedPair (localStorage st) p path) /\
  (forall path cm, learningPath st = Some path -> currentModule st = Some cm ->
                   In (Mod.id cm) (map Mod.id (modules path))).

(** The fields of a module that [handleQuizComplete] has no business
    with. *)
Definition sameModuleContent (m m' : Mod.t) : Prop :=
  Mod.id m' = Mod.id m /\ Mod.title m' = Mod.title m /\
  Mod.description m' = Mod.description m /\ Mod.topics m' = Mod.topics m /\
  Mod.videoUrl m' = Mod.videoUrl m /\ Mod.sources m' = Mod.sources m.

(** [sub] occurs in [s]. *)
Definition mentions (s sub : string) : Prop :=
  exists pre suf, s = (pre ++ sub ++ suf)%string.

(** The gateway answers every quiz request with the five questions on
    lenses. *)
Definition gatewayWithQuiz : Gateway :=
  {| pathReply := Rejected GatewayError;
     suggestionsReply := Rejected GatewayError;
     quizReply := Resolved {| text := Some (Json (QuizObject opticsQuiz));
                              groundingChunks := [] |} |}.

(** The gateway answers every quiz request without a text. *)
Definition gatewaySilentQuiz : Gateway :=
  {| pathReply := Rejected GatewayError;
     suggestionsReply := Rejected GatewayError;
     quizReply := Resolved {| text := None; groundingChunks := [] |} |}.

(** A reply to the path prompt with one module and three grounding
    chunks: one with an address and no title, one without [web], one with
    both. *)
Definition groundedReply : GenerateContentResponse PathValue :=
  {| text :=
       Some (Json (PathObject
                     {| raw_modules :=
                          [ {| raw_id := "m1"; raw_title := "Lenses";
                               raw_description := "Thin lenses";
                               raw_topics := ["Refraction"];
                               raw_videoUrl := Some "https://youtu.be/abcdefghijk" |} ];
                        raw_estimatedWeeks := 1;
                        raw_personalizedReasoning := "One module." |}));
     groundingChunks :=
       [ {| web := Some {| web_uri := Some "https://example.org/lenses";
                           web_title := None |} |};
         {| web := None |};
         {| web := Some {| web_uri := Some "https://example.org/optics";
                           web_title := Some "Optics" |} |} ] |}.

(** The quiz on lenses is on screen. *)
Definition adaQuizScreen : AppState := startQuiz (geminiService gatewayWithQuiz) adaDashboard.

(** Every call to the gateway fails, the suggestions included. *)
Definition offlineServices : Services :=
  {| svc_generateLearningPath := fun _ => Rejected GatewayError;
     svc_getRelatedCourseSuggestions := fun _ => Rejected GatewayError;
     svc_generateQuiz := fun _ _ => Rejected GatewayError |}.

(** What the tutoring and the quiz screens need to be rendered. *)
Definition screenInvariant (st : AppState) : Prop :=
  (view st = TUTORING -> profile st <> None /\ currentModule st <> None) /\
  (view st = QUIZ -> activeQuiz st <> None).

(** The two fields of the form that no control of it changes. *)
Definition draftDefaults (s : OnboardingState) : Prop :=
  d_style (data s) = MIXED /\ d_timePerDay (data s) = 1.

(** The first message of a session started at [now]. *)
Definition greetingMessage (p : UserProfile) (m : Mod.t) (now : Z) : Message :=
  {| role := assistant; content := greeting p m; timestamp := now |}.

(** A gateway that answers every tutoring request with the same text. *)
Definition tutorSays (reply : string)
  : UserProfile -> string -> list (ContentRole * string) -> Promise (option string) :=
  fun _ _ _ => Resolved (Some reply).

(** The path of Ada after the quiz on lenses was passed. *)
Definition opticsPathLensesDone : LearningPath :=
  with_modules (map (complete_if_current opticsModule) (modules opticsPath)) opticsPath.

(** A quiz score out of five. *)
Definition scoreOutOfFive (s : Z) : Prop := 0 <= s <= 5.

(** [avgAccuracy] of a single perfect score of [n] is 20 * n. *)
Definition perfectScoreAccuracy (n : nat) : bool :=
  avgAccuracy [Z.of_nat n] =? 20 * Z.of_nat n.

(** ** App.tsx: getYoutubeEmbedId *)

(** *** The regular expressions of the pattern

    A text is matched as its sequence of code units, of which the model
    has those below 256.  The matcher is the backtracking matcher of
    JavaScript for the constructs that the pattern uses: each construct
    is given the continuation that matches what follows it, a greedy
    star tries the longest repetition first, an alternation its
    branches from left to right, and a pair of parentheses records the
    text its body matched. *)

Definition Captures := nat -> option (list ascii).

Definition noCaptures : Captures := fun _ => None.

Definition setCapture (n : nat) (v : list ascii) (caps : Captures) : Captures :=
  fun j => if Nat.eqb j n then Some v else caps j.

(** What is left to match: applied to the index reached, the text from
    there on and the captures so far. *)
Definition Continuation := nat -> list ascii -> Captures -> option Captures.

Inductive Regex :=
| Eps                              (* the empty pattern *)
| Bol                              (* ^ *)
| Char (p : ascii -> bool)         (* one character of a class *)
| Star (p : ascii -> bool)         (* c* for a class c, greedy *)
| Seq (r1 r2 : Regex)              (* r1 r2 *)
| Alt (r1 r2 : Regex)              (* r1|r2 *)
| Group (n : nat) (r : Regex).     (* the n-th pair of parentheses *)

Fixpoint starMatch (p : ascii -> bool) (k : Continuation) (i : nat) (s : list ascii)
    (caps : Captures) : option Captures :=
  match s with
  | c :: s' =>
      if p c then
        match starMatch p k (S i) s' caps with
        | Some r => Some r
        | None => k i s caps
        end
      else k i s caps
  | [] => k i s caps
  end.

Fixpoint rmatch (r : Regex) (k : Continuation) (i : nat) (s : list ascii)
    (caps : Captures) : option Captures :=
  match r with
  | Eps => k i s caps
  | Bol => if Nat.eqb i 0 then k i s caps else None
  | Char p =>
      match s with
      | c :: s' => if p c then k (S i) s' caps else None
      | [] => None
      end
  | Star p => starMatch p k i s caps
  | Seq r1 r2 => rmatch r1 (rmatch r2 k) i s caps
  | Alt r1 r2 =>
      match rmatch r1 k i s caps with
      | Some res => Some res
      | None => rmatch r2 k i s caps
      end
  | Group n r0 =>
      rmatch r0 (fun j s' caps' => k j s' (setCapture n (firstn (j - i) s) caps')) i s caps
  end.

(** The end of the pattern: the match is found. *)
Definition accept : Continuation := fun _ _ caps => Some caps.

(** [RegExp.prototype.exec] without the flags [g] and [y]: the match is
    tried at index 0, then at each later index in turn. *)
Fixpoint execFrom (r : Regex) (i : nat) (s : list ascii) : option Captures :=
  match rmatch r accept i s noCaptures with
  | Some caps => Some caps
  | None =>
      match s with
      | [] => None
      | _ :: s' => execFrom r (S i) s'
      end
  end.

(** [text.match(r)] *)
Definition String_match (text : string) (r : Regex) : option Captures :=
  execFrom r 0 (list_ascii_of_string text).

(** A literal character and a literal text. *)
Definition lit (c : ascii) : Regex := Char (Ascii.eqb c).

Fixpoint str (w : list ascii) : Regex :=
  match w with
  | [] => Eps
  | c :: w' => Seq (lit c) (str w')
  end.

Definition chars (w : string) : list ascii := list_ascii_of_string w.

(** The line terminators below 256: line feed and carriage return. *)
Definition isLineTerminator (c : ascii) : bool :=
  let n := nat_of_ascii c in ((n =? 10) || (n =? 13))%nat.

(** [.] *)
Definition dot (c : ascii) : bool := negb (isLineTerminator c).

(** [\w] *)
Definition wordChar (c : ascii) : bool :=
  let n := nat_of_ascii c in
  ((48 <=? n) && (n <=? 57) || (65 <=? n) && (n <=? 90) || (97 <=? n) && (n <=? 122)
   || (n =? 95))%nat.

(** [[^#\&\?]] *)
Definition notSeparator (c : ascii) : bool :=
  negb (Ascii.eqb c "#" || Ascii.eqb c "&" || Ascii.eqb c "?").

(** [(youtu.be\/|v\/|u\/\w\/|embed\/|watch\?v=|\&v=)], the body of the
    first pair of parentheses. *)
Definition markers : Regex :=
  Alt (Seq (str (chars "youtu")) (Seq (Char dot) (str (chars "be/"))))
 (Alt (str (chars "v/"))
 (Alt (Seq (str (chars "u/")) (Seq (Char wordChar) (str (chars "/"))))
 (Alt (str (chars "embed/"))
 (Alt (str (chars "watch?v="))
      (str (chars "&v=")))))).

(** The pattern of [getYoutubeEmbedId],
    "/^.*(youtu.be\/|v\/|u\/\w\/|embed\/|watch\?v=|\&v=)([^#\&\?]*).*/". *)
Definition regExp : Regex :=
  Seq Bol
 (Seq (Star dot)
 (Seq (Group 1 markers)
 (Seq (Group 2 (Star notSeparator))
      (Star dot)))).

(** How a call ends: with a value, or with an exception. *)
Inductive Outcome (A : Type) :=
| Returns (a : A)
| Raises (e : Exn).
Arguments Returns {A} a.
Arguments Raises {A} e.

(** [url] is [None] for [undefined]; the result is [None] for [null].
    Reading [match[2].length] throws when the second pair of parentheses
    took no part in the match. *)
Definition getYoutubeEmbedId (url : option string) : Outcome (option string) :=
  match url with
  | None => Returns None
  | Some u =>
      if String.eqb u EmptyString then Returns None
      else
        match String_match u regExp with
        | None => Returns None
        | Some caps =>
            match caps 2%nat with
            | None => Raises TypeError
            | Some id =>
                if Nat.eqb (List.length id) 11 then Returns (Some (string_of_list_ascii id))
                else Returns None
            end
        end
  end.

(** One of the six texts that the first pair of parentheses matches. *)
Definition isMarker (mk : list ascii) : Prop :=
  (exists c, dot c = true /\ mk = chars "youtu" ++ c :: chars "be/") \/
  mk = chars "v/" \/
  (exists c, wordChar c = true /\ mk = chars "u/" ++ c :: chars "/") \/
  mk = chars "embed/" \/
  mk = chars "watch?v=" \/
  mk = chars "&v=".

(** [text] holds [mk] right after [pre], and [pre] lies on the first
    line. *)
Definition markerAt (text pre mk : list ascii) : Prop :=
  exists rest, text = pre ++ mk ++ rest /\ forallb dot pre = true /\ isMarker mk.

(** The characters of a video identifier: letters, digits, hyphen and
    underscore. *)
Definition idChar (c : ascii) : bool := wordChar c || Ascii.eqb c "-".

(** The number of leading characters of [s] that belong to the class. *)
Fixpoint runLength (p : ascii -> bool) (s : list ascii) : nat :=
  match s with
  | c :: s' => if p c then S (runLength p s') else 0%nat
  | [] => 0%nat
  end.

(** ** The history of a profile *)

(** [p'] records what [p] records, and possibly more at the end: no quiz
    score and no completed topic of [p] is missing or moved, and the
    identity of the learner is the same. *)
Definition historyKept (p p' : UserProfile) : Prop :=
  (exists more, quizScores (performance p') = quizScores (performance p) ++ more) /\
  (exists more, completedTopics (performance p') = completedTopics (performance p) ++ more) /\
  name p' = name p /\ classInfo p' = classInfo p /\ subject p' = subject p /\
  level p' = level p /\ goal p' = goal p /\ language p' = language p.

(** One step of a session past the onboarding: every handler of [App]
    but [handleOnboardingComplete] and the sign-out. *)
Inductive sessionStep (st : AppState) : AppState -> Prop :=
| step_select_suggested svc newTopic : sessionStep st (handleSelectSuggested svc newTopic st)
| step_select_module m now : sessionStep st (handleSelectModule m now st)
| step_end_session now : sessionStep st (handleEndSession now st)
| step_submit_feedback feedback : sessionStep st (submitFeedback feedback st)
| step_start_quiz svc : sessionStep st (startQuiz svc st)
| step_quiz_complete score total : sessionStep st (handleQuizComplete score total st)
| step_quiz_back : sessionStep st (setView DASHBOARD st)
| step_logo : sessionStep st (handleLogoClick st).

(** ** Tactics *)

(** Pushes a projection through the setters of [AppState]. *)
Ltac setters :=
  cbn [view profile learningPath suggestedTitles currentModule isLoading loadingMsg
       activeQuiz sessionStartTime localStorage console
       setView setProfile setLearningPath setSuggestedTitles setCurrentModule
       setIsLoading setLoadingMsg setActiveQuiz setSessionStartTime
       setLocalStorage console_error saveState].

(** Hides the powers of two from the arithmetic procedures. *)
Ltac hide_powers :=
  repeat match goal with
         | |- context [2 ^ ?x] =>
             let a := fresh "pw" in set (a := 2 ^ x) in *; clearbody a
         | H : context [2 ^ ?x] |- _ =>
             let a := fresh "pw" in set (a := 2 ^ x) in *; clearbody a
         end.

(** * Properties *)

(** ** Binary64: signs and magnitudes through rounding *)

Section Binary64Bounds.

Import Number.

(** Rounding a mantissa keeps the sign it is given. *)
Lemma binary_round_aux_sign (sx : bool) (mx ex : Z) (lx : location) :
  match binary_round_aux prec emax sx mx ex lx with
  | S754_zero s | S754_infinity s | S754_finite s _ _ => s = sx
  | S754_nan => True
  end.
Proof.
  unfold binary_round_aux.
  destruct (shr_fexp prec emax mx ex lx) as [mrs' e'].
  destruct (shr_fexp prec emax _ e' loc_Exact) as [mrs'' e''].
  destruct (shr_m mrs''); auto.
  destruct (e'' <=? emax - prec); auto.
Qed.

Lemma of_Z_nonneg (z : Z) : 0 <= z -> nonneg (of_Z z).
Proof.
  intros Hz. unfold of_Z, binary_normalize.
  destruct z as [|m|m]; [reflexivity| |lia].
  unfold binary_round.
  destruct (shl_align m 0 _) as [mz ez].
  pose proof (binary_round_aux_sign false (Z.pos mz) ez loc_Exact) as H.
  unfold nonneg. destruct (binary_round_aux _ _ _ _ _ _); auto.
Qed.

Lemma div_nonneg (x y : spec_float) : nonneg x -> nonneg y -> nonneg (div x y).
Proof.
  unfold div, SFdiv, nonneg.
  destruct x as [sx|sx| |sx mx ex], y as [sy|sy| |sy my ey];
    intros Hx Hy; subst; simpl; auto.
  destruct (SFdiv_core_binary prec emax (Z.pos mx) ex (Z.pos my) ey) as [[mz ez] lz].
  pose proof (binary_round_aux_sign false mz ez lz) as H.
  destruct (binary_round_aux _ _ _ _ _ _); auto.
Qed.

Lemma Math_round_nonneg (x : spec_float) : nonneg x -> 0 <= Math_round x.
Proof.
  destruct x as [s|s| |s m e]; cbv beta iota delta [Math_round nonneg]; try lia.
  intros ->. destruct e as [|p|p].
  - pose proof (Z.pow_0_r (Z.pos m)); simpl; lia.
  - apply Z.mul_nonneg_nonneg; [lia|]. apply Z.pow_nonneg. lia.
  - apply Z.div_pos.
    + assert (0 < 2 ^ Z.pos p) by (apply Z.pow_pos_nonneg; lia). lia.
    + apply Z.pow_pos_nonneg; lia.
Qed.

(** *** Digits and shifts *)

Lemma digits2_pos_bounds (p : positive) :
  2 ^ (Z.pos (digits2_pos p) - 1) <= Z.pos p < 2 ^ Z.pos (digits2_pos p).
Proof.
  induction p as [p IH|p IH|]; cbn [digits2_pos].
  - rewrite Pos2Z.inj_succ, (Pos2Z.inj_xI p).
    replace (Z.succ (Z.pos (digits2_pos p)) - 1)
      with (Z.succ (Z.pos (digits2_pos p) - 1)) by lia.
    rewrite !Z.pow_succ_r by lia. hide_powers. lia.
  - rewrite Pos2Z.inj_succ, (Pos2Z.inj_xO p).
    replace (Z.succ (Z.pos (digits2_pos p)) - 1)
      with (Z.succ (Z.pos (digits2_pos p) - 1)) by lia.
    rewrite !Z.pow_succ_r by lia. hide_powers. lia.
  - simpl. lia.
Qed.

Lemma iter_xO_value (p t : positive) :
  Z.pos (Pos.iter xO p t) = Z.pos p * 2 ^ Z.pos t.
Proof.
  induction t as [|t IH] using Pos.peano_ind.
  - cbn [Pos.iter]. rewrite (Pos2Z.inj_xO p), Z.pow_1_r. lia.
  - rewrite Pos.iter_succ, (Pos2Z.inj_xO (Pos.iter xO p t)), IH, Pos2Z.inj_succ,
      Z.pow_succ_r by lia. lia.
Qed.

Lemma iter_xO_digits (p t : positive) :
  Z.pos (digits2_pos (Pos.iter xO p t)) = Z.pos (digits2_pos p) + Z.pos t.
Proof.
  induction t as [|t IH] using Pos.peano_ind.
  - cbn [Pos.iter digits2_pos]. lia.
  - rewrite Pos.iter_succ. cbn [digits2_pos]. rewrite Pos2Z.inj_succ, IH. lia.
Qed.

Lemma shr_1_bound (mrs : shr_record) :
  0 <= shr_m mrs ->
  0 <= shr_m (shr_1 mrs) /\ 2 * shr_m (shr_1 mrs) <= shr_m mrs.
Proof.
  destruct mrs as [m r s]. cbn [shr_m]. intros Hm.
  destruct m as [|[p|p|]|p]; cbn [shr_1 shr_m]; lia.
Qed.

Lemma iter_shr_1_bound (p : positive) :
  forall mrs : shr_record,
    0 <= shr_m mrs ->
    0 <= shr_m (iter_pos shr_1 p mrs) /\
    2 ^ Z.pos p * shr_m (iter_pos shr_1 p mrs) <= shr_m mrs.
Proof.
  induction p as [p IH|p IH|]; intros mrs Hm; cbn [iter_pos].
  - destruct (shr_1_bound mrs Hm) as [H0 H1].
    destruct (IH _ H0) as [H2 H3]. destruct (IH _ H2) as [H4 H5].
    split; [assumption|].
    rewrite (Pos2Z.inj_xI p), Z.pow_add_r, Z.pow_twice_r, Z.pow_1_r by lia.
    assert (0 < 2 ^ Z.pos p) by (apply Z.pow_pos_nonneg; lia). nia.
  - destruct (IH _ Hm) as [H2 H3]. destruct (IH _ H2) as [H4 H5].
    split; [assumption|].
    rewrite (Pos2Z.inj_xO p), Z.pow_twice_r.
    assert (0 < 2 ^ Z.pos p) by (apply Z.pow_pos_nonneg; lia). nia.
  - rewrite Z.pow_1_r. apply shr_1_bound, Hm.
Qed.

Lemma shr_bound (mrs mrs' : shr_record) (e n e' : Z) :
  0 <= shr_m mrs ->
  shr mrs e n = (mrs', e') ->
  0 <= shr_m mrs' /\ e' = e + Z.max 0 n /\
  2 ^ Z.max 0 n * shr_m mrs' <= shr_m mrs.
Proof.
  intros Hm Hshr. unfold shr in Hshr.
  destruct n as [|p|p]; inversion Hshr; subst; clear Hshr.
  - rewrite Z.max_id, Z.pow_0_r. lia.
  - rewrite Z.max_r by lia. destruct (iter_shr_1_bound p mrs Hm). lia.
  - rewrite Z.max_l, Z.pow_0_r by lia. lia.
Qed.

Lemma round_nearest_even_bound (m : Z) (l : location) :
  m <= round_nearest_even m l <= m + 1.
Proof.
  unfold round_nearest_even. destruct l as [|[| |]]; try destruct (Z.even m); lia.
Qed.

Lemma shr_record_of_loc_m (m : Z) (l : location) : shr_m (shr_record_of_loc m l) = m.
Proof. destruct l as [|[| |]]; reflexivity. Qed.

(** *** Rounding adds at most one unit in the last place kept *)

Lemma binary_round_aux_bound (sx s : bool) (mx ex : Z) (lx : location)
    (m : positive) (e : Z) :
  0 <= mx ->
  binary_round_aux prec emax sx mx ex lx = S754_finite s m e ->
  exists k, 0 <= k /\ e = ex + k /\
            2 ^ k * Z.pos m <=
            mx + 2 ^ Z.max 0 (fexp prec emax (Zdigits2 mx + ex) - ex).
Proof.
  intros Hmx Hround. unfold binary_round_aux, shr_fexp in Hround.
  set (n1 := fexp prec emax (Zdigits2 mx + ex) - ex) in *.
  destruct (shr (shr_record_of_loc mx lx) ex n1) as [mrs1 e1] eqn:E1.
  apply shr_bound in E1; [|rewrite shr_record_of_loc_m; exact Hmx].
  rewrite shr_record_of_loc_m in E1. destruct E1 as (Hm1 & He1 & Hb1).
  pose proof (round_nearest_even_bound (shr_m mrs1) (loc_of_shr_record mrs1)) as Hr.
  set (m1' := round_nearest_even (shr_m mrs1) (loc_of_shr_record mrs1)) in *.
  set (n2 := fexp prec emax (Zdigits2 m1' + e1) - e1) in *.
  destruct (shr (shr_record_of_loc m1' loc_Exact) e1 n2) as [mrs2 e2] eqn:E2.
  apply shr_bound in E2; [|cbn [shr_m shr_record_of_loc]; lia].
  cbn [shr_m shr_record_of_loc] in E2. destruct E2 as (Hm2 & He2 & Hb2).
  destruct (shr_m mrs2) as [|m2|m2] eqn:Em2; try discriminate.
  destruct (e2 <=? emax - prec); inversion Hround; subst s m e; clear Hround.
  exists (Z.max 0 n1 + Z.max 0 n2).
  split; [lia|]. split; [lia|].
  rewrite Z.pow_add_r by lia.
  assert (0 < 2 ^ Z.max 0 n1) by (apply Z.pow_pos_nonneg; lia).
  assert (0 < 2 ^ Z.max 0 n2) by (apply Z.pow_pos_nonneg; lia).
  nia.
Qed.

(** [Math.round] of a positive double below one half. *)
Lemma Math_round_below_half (m : positive) (e : Z) :
  e < 0 -> 2 * Z.pos m < 2 ^ (- e) ->
  Math_round (S754_finite false m e) = 0.
Proof.
  intros He Hm. destruct e as [|p|p]; try lia.
  cbv beta iota delta [Math_round].
  change (- Z.neg p) with (Z.pos p) in Hm.
  apply Z.div_small.
  replace (Z.pos p + 1) with (Z.succ (Z.pos p)) by lia.
  rewrite Z.pow_succ_r by lia.
  assert (0 < 2 ^ Z.pos p) by (apply Z.pow_pos_nonneg; lia). lia.
Qed.

(** If the mantissa handed to the rounding is below one half by more than
    the unit the rounding may add, the rounded double is below one half
    too. *)
Lemma Math_round_binary_round_aux (mx ex : Z) (lx : location) :
  0 <= mx -> ex < 0 ->
  2 * (mx + 2 ^ Z.max 0 (fexp prec emax (Zdigits2 mx + ex) - ex)) < 2 ^ (- ex) ->
  Math_round (binary_round_aux prec emax false mx ex lx) = 0.
Proof.
  intros Hmx Hex Hsmall.
  pose proof (binary_round_aux_sign false mx ex lx) as Hsign.
  destruct (binary_round_aux prec emax false mx ex lx) as [s|s| |s m e] eqn:E;
    try reflexivity.
  subst s.
  destruct (binary_round_aux_bound _ _ _ _ _ _ _ Hmx E) as (k & Hk & He & Hb).
  set (u := 2 ^ Z.max 0 (fexp prec emax (Zdigits2 mx + ex) - ex)) in *.
  assert (Hpk : 0 < 2 ^ k) by (apply Z.pow_pos_nonneg; lia).
  assert (Hlt : 2 ^ (k + 1) < 2 ^ (- ex)).
  { rewrite Z.pow_add_r, Z.pow_1_r by lia. nia. }
  apply Z.pow_lt_mono_r_iff in Hlt; [|lia|lia].
  apply Math_round_below_half; [lia|].
  replace (- ex) with (k + - e) in Hsmall by lia.
  rewrite Z.pow_add_r in Hsmall by lia.
  assert (0 < 2 ^ (- e)) by (apply Z.pow_pos_nonneg; lia).
  nia.
Qed.

(** The quotient of two positive doubles, before rounding. *)
Lemma div_finite (m1 m2 : positive) (e1 e2 : Z) :
  exists q e' l,
    div (S754_finite false m1 e1) (S754_finite false m2 e2) =
      binary_round_aux prec emax false q e' l /\
    e' = Z.min (fexp prec emax (Z.pos (digits2_pos m1) + e1 - (Z.pos (digits2_pos m2) + e2)))
               (e1 - e2) /\
    0 <= q /\
    q * Z.pos m2 <= Z.pos m1 * 2 ^ (e1 - e2 - e').
Proof.
  unfold div, SFdiv, SFdiv_core_binary. cbn [Zdigits2 xorb].
  set (e' := Z.min _ (e1 - e2)).
  assert (Hs : 0 <= e1 - e2 - e') by lia.
  set (m' := match e1 - e2 - e' with
             | 0 => Z.pos m1
             | Z.pos _ => Z.shiftl (Z.pos m1) (e1 - e2 - e')
             | Z.neg _ => 0
             end).
  assert (Hm' : m' = Z.pos m1 * 2 ^ (e1 - e2 - e')).
  { subst m'. destruct (e1 - e2 - e') as [|s|s] eqn:Es.
    - rewrite Z.pow_0_r. lia.
    - apply Z.shiftl_mul_pow2. lia.
    - lia. }
  pose proof (Z_div_mod m' (Z.pos m2) ltac:(lia)) as Hdiv.
  destruct (Z.div_eucl m' (Z.pos m2)) as [q r]. destruct Hdiv as [Heq Hr].
  exists q, e', (new_location (Z.pos m2) r).
  split; [reflexivity|]. split; [reflexivity|].
  rewrite <- Hm'. split; nia.
Qed.

(** The double of a small positive integer, before rounding: the integer
    shifted to 53 digits. *)
Lemma of_Z_small (d : positive) :
  Z.pos d < 2 ^ 15 ->
  exists mz,
    of_Z (Z.pos d) =
      binary_round_aux prec emax false (Z.pos mz) (Z.pos (digits2_pos d) - 53) loc_Exact /\
    Z.pos mz = Z.pos d * 2 ^ (53 - Z.pos (digits2_pos d)) /\
    Z.pos (digits2_pos mz) = 53 /\
    1 <= Z.pos (digits2_pos d) <= 15.
Proof.
  intros Hd.
  pose proof (digits2_pos_bounds d) as [Hlo _].
  assert (Hk : 1 <= Z.pos (digits2_pos d) <= 15).
  { split; [lia|].
    assert (H : 2 ^ (Z.pos (digits2_pos d) - 1) < 2 ^ 15) by lia.
    apply Z.pow_lt_mono_r_iff in H; lia. }
  unfold of_Z, binary_normalize, binary_round, shl_align.
  assert (Hf : fexp prec emax (Z.pos (digits2_pos d) + 0) - 0 = Z.pos (digits2_pos d) - 53)
    by (unfold fexp, emin, prec, emax; lia).
  assert (Hf' : fexp prec emax (Z.pos (digits2_pos d) + 0) = Z.pos (digits2_pos d) - 53)
    by lia.
  rewrite Hf, Hf'.
  destruct (Z.pos (digits2_pos d) - 53) as [|t|t] eqn:Et; try lia.
  exists (Pos.iter xO d t).
  split; [reflexivity|].
  rewrite iter_xO_value, iter_xO_digits.
  replace (53 - Z.pos (digits2_pos d)) with (Z.pos t) by lia.
  split; [reflexivity|]. split; lia.
Qed.

Lemma of_Z_60000 : of_Z 60000 = S754_finite false 8246337208320000 (-37).
Proof. reflexivity. Qed.

(** A duration below half a minute is rounded to 0 minutes: the exact
    quotient is at most 29999/60000, and neither the conversion of the
    duration nor the division can round it up to one half. *)
Lemma Math_round_div_60000_small (d : Z) :
  0 <= d < 30000 -> Math_round (div (of_Z d) (of_Z 60000)) = 0.
Proof.
  intros Hd. rewrite of_Z_60000.
  destruct d as [|d|d]; [reflexivity| |lia].
  destruct (of_Z_small d) as (mz & Hof & Hmz & Hdmz & Hk); [simpl; lia|].
  rewrite Hof.
  set (dk := Z.pos (digits2_pos d)) in *.
  pose proof (binary_round_aux_sign false (Z.pos mz) (dk - 53) loc_Exact) as Hsign.
  destruct (binary_round_aux prec emax false (Z.pos mz) (dk - 53) loc_Exact)
    as [s|s| |s m1 e1] eqn:Ea; try reflexivity.
  subst s.
  (* the numerator, as a double *)
  destruct (binary_round_aux_bound _ _ _ _ _ _ _ (Pos2Z.is_nonneg mz) Ea)
    as (k & Hk0 & He1 & Hb1).
  cbn [Zdigits2] in Hb1. rewrite Hdmz in Hb1.
  replace (Z.max 0 (fexp prec emax (53 + (dk - 53)) - (dk - 53))) with 0 in Hb1
    by (unfold fexp, emin, prec, emax; lia).
  rewrite Z.pow_0_r in Hb1.
  pose proof (digits2_pos_bounds mz) as [_ Hmz53]. rewrite Hdmz in Hmz53.
  pose proof (digits2_pos_bounds m1) as [Hm1lo _].
  set (d1 := Z.pos (digits2_pos m1)) in *.
  assert (Hd1 : d1 + k <= 54).
  { assert (H : 2 ^ (k + (d1 - 1)) < 2 ^ 54).
    { rewrite Z.pow_add_r by lia.
      assert (0 < 2 ^ k) by (apply Z.pow_pos_nonneg; lia).
      change (2 ^ 54) with (2 * 2 ^ 53). nia. }
    apply Z.pow_lt_mono_r_iff in H; lia. }
  (* the quotient, before rounding *)
  destruct (div_finite m1 8246337208320000 e1 (-37)) as (q & e' & l & Hdiv & He' & Hq0 & Hq).
  rewrite Hdiv. clear Hdiv.
  change (Z.pos (digits2_pos 8246337208320000)) with 53 in He'.
  fold d1 in He'.
  assert (He'53 : e' <= -53) by (unfold fexp, emin, prec, emax in He'; lia).
  assert (He'lo : -1074 <= e') by (unfold fexp, emin, prec, emax in He'; lia).
  assert (Hs : e1 - -37 - e' = k + (37 + (dk + (- e' - 53)))) by lia.
  rewrite Hs in Hq. rewrite !Z.pow_add_r in Hq by lia.
  set (P := 2 ^ k) in *. set (D := 2 ^ dk) in *. set (M := 2 ^ (- e' - 53)) in *.
  assert (HP : 0 < P) by (apply Z.pow_pos_nonneg; lia).
  assert (HM : 0 < M) by (apply Z.pow_pos_nonneg; lia).
  assert (HD : 0 < D <= 2 ^ 15).
  { split; [apply Z.pow_pos_nonneg; lia|apply Z.pow_le_mono_r; lia]. }
  assert (HRD : 2 ^ (53 - dk) * D = 2 ^ 53).
  { subst D. rewrite <- Z.pow_add_r by lia. f_equal. lia. }
  assert (HN : 2 ^ (- e') = 2 ^ 53 * M).
  { subst M. rewrite <- Z.pow_add_r by lia. f_equal. lia. }
  assert (Hq60 : q * 60000 <= (Z.pos d * 2 ^ 53 + D) * M).
  { assert (H1 : q * 60000 <= (P * Z.pos m1) * (D * M)).
    { change (2 ^ 37) with 137438953472 in Hq. nia. }
    assert (H2 : (P * Z.pos m1) * (D * M) <= (Z.pos mz + 1) * (D * M)).
    { apply Z.mul_le_mono_nonneg_r; nia. }
    rewrite Hmz in H2.
    replace ((Z.pos d * 2 ^ (53 - dk) + 1) * (D * M))
      with ((Z.pos d * (2 ^ (53 - dk) * D) + D) * M) in H2 by ring.
    rewrite HRD in H2. lia. }
  change (2 ^ 53) with 9007199254740992 in *.
  change (2 ^ 15) with 32768 in *.
  apply Math_round_binary_round_aux; [exact Hq0|lia|].
  rewrite HN.
  assert (Hu : 2 ^ Z.max 0 (fexp prec emax (Zdigits2 q + e') - e') <= M).
  { subst M. apply Z.pow_le_mono_r; [lia|].
    destruct q as [|qp|qp]; [| |lia].
    - cbn [Zdigits2]. unfold fexp, emin, prec, emax. lia.
    - cbn [Zdigits2].
      pose proof (digits2_pos_bounds qp) as [Hqlo _].
      set (dq := Z.pos (digits2_pos qp)) in *.
      assert (Hqlt : Z.pos qp < 2 ^ (- e' - 1)).
      { replace (- e' - 1) with (52 + (- e' - 53)) by lia.
        rewrite Z.pow_add_r by lia.
        change (2 ^ 52) with 4503599627370496.
        set (M := 2 ^ (- e' - 53)) in *. nia. }
      assert (H : 2 ^ (dq - 1) < 2 ^ (- e' - 1)) by lia.
      apply Z.pow_lt_mono_r_iff in H; [|lia|lia].
      unfold fexp, emin, prec, emax. lia. }
  set (u := 2 ^ Z.max 0 (fexp prec emax (Zdigits2 q + e') - e')) in *.
  nia.
Qed.

End Binary64Bounds.

(** ** Binary64: percentages *)

Section Binary64Percent.

Import Number.

(** What the rounding of a non-negative mantissa returns: zero, or the
    mantissa shifted right by some [k] places and rounded, at most one
    unit in the last place kept above it; an infinity when the exponent
    leaves the format. *)
Lemma binary_round_aux_shape (sx : bool) (mx ex : Z) (lx : location) :
  0 <= mx ->
  binary_round_aux prec emax sx mx ex lx = S754_zero sx \/
  exists (m : positive) (k : Z),
    0 <= k /\
    2 ^ k * Z.pos m <= mx + 2 ^ Z.max 0 (fexp prec emax (Zdigits2 mx + ex) - ex) /\
    binary_round_aux prec emax sx mx ex lx =
      (if ex + k <=? emax - prec then S754_finite sx m (ex + k) else S754_infinity sx).
Proof.
  intros Hmx. unfold binary_round_aux, shr_fexp.
  set (n1 := fexp prec emax (Zdigits2 mx + ex) - ex) in *.
  destruct (shr (shr_record_of_loc mx lx) ex n1) as [mrs1 e1] eqn:E1.
  apply shr_bound in E1; [|rewrite shr_record_of_loc_m; exact Hmx].
  rewrite shr_record_of_loc_m in E1. destruct E1 as (Hm1 & He1 & Hb1).
  pose proof (round_nearest_even_bound (shr_m mrs1) (loc_of_shr_record mrs1)) as Hr.
  set (m1' := round_nearest_even (shr_m mrs1) (loc_of_shr_record mrs1)) in *.
  set (n2 := fexp prec emax (Zdigits2 m1' + e1) - e1) in *.
  destruct (shr (shr_record_of_loc m1' loc_Exact) e1 n2) as [mrs2 e2] eqn:E2.
  apply shr_bound in E2; [|cbn [shr_m shr_record_of_loc]; lia].
  cbn [shr_m shr_record_of_loc] in E2. destruct E2 as (Hm2 & He2 & Hb2).
  destruct (shr_m mrs2) as [|m2|m2] eqn:Em2; [now left| |lia].
  right. exists m2, (Z.max 0 n1 + Z.max 0 n2).
  split; [lia|]. split.
  - rewrite Z.pow_add_r by lia.
    assert (0 < 2 ^ Z.max 0 n1) by (apply Z.pow_pos_nonneg; lia).
    assert (0 < 2 ^ Z.max 0 n2) by (apply Z.pow_pos_nonneg; lia).
    nia.
  - replace (ex + (Z.max 0 n1 + Z.max 0 n2)) with e2 by lia. reflexivity.
Qed.

(** A mantissa of 53 digits with an exponent of the format is a double
    as it stands. *)
Lemma binary_round_aux_canonical (s : bool) (m : positive) (e : Z) :
  Z.pos (digits2_pos m) = 53 -> -1074 <= e <= 971 ->
  binary_round_aux prec emax s (Z.pos m) e loc_Exact = S754_finite s m e.
Proof.
  intros Hd He. unfold binary_round_aux, shr_fexp.
  cbn [Zdigits2 shr_record_of_loc]. rewrite Hd.
  replace (fexp prec emax (53 + e) - e) with 0 by (unfold fexp, emin, prec, emax; lia).
  cbn [shr shr_m loc_of_shr_record round_nearest_even shr_record_of_loc Zdigits2].
  rewrite Hd.
  replace (fexp prec emax (53 + e) - e) with 0 by (unfold fexp, emin, prec, emax; lia).
  cbn [shr shr_m].
  replace (e <=? emax - prec) with true
    by (symmetry; apply Z.leb_le; unfold emax, prec; lia).
  reflexivity.
Qed.

(** The double of a positive integer below 2^53 is the integer itself,
    written with 53 digits. *)
Lemma of_Z_exact (d : positive) :
  Z.pos d < 2 ^ 53 ->
  exists m,
    of_Z (Z.pos d) = S754_finite false m (Z.pos (digits2_pos d) - 53) /\
    Z.pos m = Z.pos d * 2 ^ (53 - Z.pos (digits2_pos d)) /\
    Z.pos (digits2_pos m) = 53 /\
    1 <= Z.pos (digits2_pos d) <= 53.
Proof.
  intros Hd.
  pose proof (digits2_pos_bounds d) as [Hlo _].
  assert (Hk : 1 <= Z.pos (digits2_pos d) <= 53).
  { split; [lia|].
    assert (H : 2 ^ (Z.pos (digits2_pos d) - 1) < 2 ^ 53) by lia.
    apply Z.pow_lt_mono_r_iff in H; lia. }
  unfold of_Z, binary_normalize, binary_round, shl_align.
  assert (Hf : fexp prec emax (Z.pos (digits2_pos d) + 0) - 0 = Z.pos (digits2_pos d) - 53)
    by (unfold fexp, emin, prec, emax; lia).
  assert (Hf' : fexp prec emax (Z.pos (digits2_pos d) + 0) = Z.pos (digits2_pos d) - 53)
    by lia.
  rewrite Hf, Hf'.
  destruct (Z.pos (digits2_pos d) - 53) as [|t|t] eqn:Et; try lia.
  - exists d. rewrite binary_round_aux_canonical by lia.
    replace (53 - Z.pos (digits2_pos d)) with 0 by lia.
    rewrite Z.pow_0_r. repeat split; lia.
  - exists (Pos.iter xO d t).
    assert (Hdig : Z.pos (digits2_pos (Pos.iter xO d t)) = 53)
      by (rewrite iter_xO_digits; lia).
    rewrite binary_round_aux_canonical by lia.
    rewrite iter_xO_value.
    replace (53 - Z.pos (digits2_pos d)) with (Z.pos t) by lia.
    repeat split; lia.
Qed.


Lemma of_Z_100 : of_Z 100 = S754_finite false 7036874417766400 (-46).
Proof. reflexivity. Qed.

(** [Math.round] of a positive double from a bound on its value: with
    the value and the bound both scaled by 2^t, a value below N + 1/2
    rounds to at most N. *)
Lemma Math_round_le_scaled (m : positive) (e t N : Z) :
  0 <= t -> 0 <= e + t ->
  2 * (Z.pos m * 2 ^ (e + t)) < (2 * N + 1) * 2 ^ t ->
  Math_round (S754_finite false m e) <= N.
Proof.
  intros Ht Het Hv.
  assert (HT : 0 < 2 ^ t) by (apply Z.pow_pos_nonneg; lia).
  destruct e as [|p|p]; cbv beta iota zeta delta [Math_round].
  - rewrite Z.pow_0_r. rewrite Z.add_0_l in Hv. hide_powers. nia.
  - rewrite Z.pow_add_r in Hv by lia.
    assert (0 < 2 ^ Z.pos p) by (apply Z.pow_pos_nonneg; lia). hide_powers. nia.
  - assert (HP : 0 < 2 ^ Z.pos p) by (apply Z.pow_pos_nonneg; lia).
    assert (HS : 0 < 2 ^ (Z.neg p + t)) by (apply Z.pow_pos_nonneg; lia).
    assert (Hsplit : 2 ^ t = 2 ^ Z.pos p * 2 ^ (Z.neg p + t)).
    { rewrite <- Z.pow_add_r by lia. f_equal. lia. }
    rewrite Hsplit in Hv.
    assert (Hlt : (2 * Z.pos m + 2 ^ Z.pos p) / 2 ^ (Z.pos p + 1) < N + 1).
    { apply Z.div_lt_upper_bound; [apply Z.pow_pos_nonneg; lia|].
      rewrite Z.pow_add_r, Z.pow_1_r by lia. hide_powers. nia. }
    lia.
Qed.

(** The quotient of two positive integers a <= b below 2^53: a double
    that is at most 1 + 2^-51 (the conversions are exact, and the
    rounding of the quotient adds at most one unit in the last place). *)
Lemma div_ratio_bound (a b : positive) :
  Z.pos a <= Z.pos b -> Z.pos b < 2 ^ 53 ->
  div (of_Z (Z.pos a)) (of_Z (Z.pos b)) = S754_zero false \/
  exists (m : positive) (e : Z),
    div (of_Z (Z.pos a)) (of_Z (Z.pos b)) = S754_finite false m e /\
    e <= 0 /\ 2 ^ 51 * Z.pos m <= 2 ^ (- e) * (2 ^ 51 + 1).
Proof.
  intros Hab Hb.
  destruct (of_Z_exact a) as (m1 & Ha1 & Hm1 & Hd1 & Hka); [lia|].
  destruct (of_Z_exact b) as (m2 & Hb1 & Hm2 & Hd2 & Hkb); [lia|].
  rewrite Ha1, Hb1.
  set (ka := Z.pos (digits2_pos a)) in *. set (kb := Z.pos (digits2_pos b)) in *.
  assert (Hkab : ka <= kb).
  { pose proof (digits2_pos_bounds a) as [Hlo _]. pose proof (digits2_pos_bounds b) as [_ Hhi].
    fold ka in Hlo. fold kb in Hhi.
    assert (H : 2 ^ (ka - 1) < 2 ^ kb) by lia.
    apply Z.pow_lt_mono_r_iff in H; lia. }
  destruct (div_finite m1 m2 (ka - 53) (kb - 53)) as (q & e' & l & Hdiv & He' & Hq0 & Hq).
  rewrite Hdiv. clear Hdiv.
  rewrite Hd1, Hd2 in He'.
  assert (He'v : e' = ka - kb - 53) by (unfold fexp, emin, prec, emax in He'; lia).
  clear He'.
  replace (ka - 53 - (kb - 53) - e') with 53 in Hq by lia.
  (* the quotient, before rounding *)
  pose proof (digits2_pos_bounds m1) as [_ Hm1hi]. rewrite Hd1 in Hm1hi.
  pose proof (digits2_pos_bounds m2) as [Hm2lo _]. rewrite Hd2 in Hm2lo.
  assert (Hq54 : q < 2 ^ 54).
  { change (2 ^ 54) with 18014398509481984. change (2 ^ 53) with 9007199254740992 in *.
    change (2 ^ (53 - 1)) with 4503599627370496 in *. nia. }
  assert (HqN : q <= 2 ^ (- e')).
  { replace (- e') with (53 + (kb - ka)) by lia. rewrite Z.pow_add_r by lia.
    assert (Hsplit : 2 ^ (53 - ka) = 2 ^ (53 - kb) * 2 ^ (kb - ka)).
    { rewrite <- Z.pow_add_r by lia. f_equal. lia. }
    rewrite Hm1, Hm2, Hsplit in Hq.
    assert (0 < 2 ^ (53 - kb)) by (apply Z.pow_pos_nonneg; lia).
    assert (0 < 2 ^ (kb - ka)) by (apply Z.pow_pos_nonneg; lia).
    set (X := 2 ^ (53 - kb)) in *. set (Y := 2 ^ (kb - ka)) in *.
    change (2 ^ 53) with 9007199254740992 in *.
    assert (H1 : q * (Z.pos b * X) <= Z.pos b * (X * Y * 9007199254740992)) by nia.
    assert (H2 : (Z.pos b * X) * q <= (Z.pos b * X) * (9007199254740992 * Y)) by nia.
    apply Z.mul_le_mono_pos_l in H2; [lia|nia]. }
  assert (Hn1 : 2 ^ Z.max 0 (fexp prec emax (Zdigits2 q + e') - e') <= 2 ^ 1).
  { apply Z.pow_le_mono_r; [lia|].
    destruct q as [|qp|qp]; [| |lia].
    - cbn [Zdigits2]. unfold fexp, emin, prec, emax. lia.
    - cbn [Zdigits2]. pose proof (digits2_pos_bounds qp) as [Hqlo _].
      assert (H : 2 ^ (Z.pos (digits2_pos qp) - 1) < 2 ^ 54) by lia.
      apply Z.pow_lt_mono_r_iff in H; [|lia|lia].
      unfold fexp, emin, prec, emax. lia. }
  rewrite Z.pow_1_r in Hn1.
  destruct (binary_round_aux_shape false q e' l Hq0) as [Hz|(m & k & Hk & Hb' & Hres)];
    [now left|right].
  set (u := 2 ^ Z.max 0 (fexp prec emax (Zdigits2 q + e') - e')) in *.
  assert (HN : 2 ^ 53 <= 2 ^ (- e')) by (apply Z.pow_le_mono_r; lia).
  assert (Hke : k <= - e').
  { assert (Hpk : 0 < 2 ^ k) by (apply Z.pow_pos_nonneg; lia).
    assert (H : 2 ^ k < 2 ^ (1 + - e')).
    { rewrite Z.pow_add_r, Z.pow_1_r by lia.
      change (2 ^ 53) with 9007199254740992 in HN. nia. }
    apply Z.pow_lt_mono_r_iff in H; lia. }
  exists m, (e' + k).
  split.
  { rewrite Hres.
    replace (e' + k <=? emax - prec) with true
      by (symmetry; apply Z.leb_le; unfold emax, prec; lia).
    reflexivity. }
  split; [lia|].
  assert (Hsplit : 2 ^ (- e') = 2 ^ (- (e' + k)) * 2 ^ k).
  { rewrite <- Z.pow_add_r by lia. f_equal. lia. }
  rewrite Hsplit in HqN, HN.
  assert (HU : 0 < 2 ^ (- (e' + k))) by (apply Z.pow_pos_nonneg; lia).
  set (U := 2 ^ (- (e' + k))) in *.
  change (2 ^ 51) with 2251799813685248. change (2 ^ 53) with 9007199254740992 in HN.
  assert (Hcases : k = 0 \/ k = 1 \/ 2 <= k) by lia.
  destruct Hcases as [->|[->|Hk2]].
  - rewrite Z.pow_0_r in *. lia.
  - rewrite Z.pow_1_r in *. lia.
  - assert (H4 : 2 ^ 2 <= 2 ^ k) by (apply Z.pow_le_mono_r; lia).
    change (2 ^ 2) with 4 in H4. set (K := 2 ^ k) in *. nia.
Qed.

Lemma mul_zero_finite (s : bool) (m : positive) (e : Z) :
  mul (S754_zero false) (S754_finite s m e) = S754_zero s.
Proof. reflexivity. Qed.

(** A ratio of two integers 0 <= a <= b, 0 < b < 2^53, taken to a
    percentage as JavaScript computes it, [Math.round(a / b * 100)]: the
    product is a finite number and its rounding lies between 0 and 100. *)
Lemma percent_bounds (a b : Z) :
  0 <= a <= b -> 0 < b < 2 ^ 53 ->
  isFiniteNumber (mul (div (of_Z a) (of_Z b)) (of_Z 100)) /\
  0 <= Math_round (mul (div (of_Z a) (of_Z b)) (of_Z 100)) <= 100.
Proof.
  intros Ha Hb.
  destruct b as [|b|b]; try lia.
  destruct a as [|a|a]; try lia.
  { (* nothing out of b *)
    destruct (of_Z_exact b) as (m2 & Hb1 & _); [lia|].
    rewrite Hb1, of_Z_100. cbn. split; [exact I|lia]. }
  rewrite of_Z_100.
  destruct (div_ratio_bound a b) as [Hz|(m & e & Hdiv & He & Hm)]; [lia|lia| |].
  { rewrite Hz. cbn. split; [exact I|lia]. }
  rewrite Hdiv. unfold mul, SFmul. cbn [xorb].
  set (P := Z.pos (m * 7036874417766400)).
  assert (HP : P = Z.pos m * 7036874417766400) by reflexivity.
  set (t := 46 - e).
  assert (HT : 2 ^ t = 2 ^ (- e) * 70368744177664).
  { subst t. replace (46 - e) with (- e + 46) by lia. now rewrite Z.pow_add_r by lia. }
  assert (HU : 0 < 2 ^ (- e)) by (apply Z.pow_pos_nonneg; lia).
  change (2 ^ 51) with 2251799813685248 in Hm.
  (* the product, before rounding *)
  assert (HP128 : P < 2 ^ (7 + t)).
  { rewrite Z.pow_add_r by lia. change (2 ^ 7) with 128. rewrite HT, HP.
    set (U := 2 ^ (- e)) in *. nia. }
  assert (Hn' : 70368744177664 * 2 ^ Z.max 0 (fexp prec emax (Zdigits2 P + (e + -46)) - (e + -46))
                <= 2 ^ t).
  { change 70368744177664 with (2 ^ 46). rewrite <- Z.pow_add_r by lia.
    apply Z.pow_le_mono_r; [lia|].
    unfold P. cbn [Zdigits2].
    pose proof (digits2_pos_bounds (m * 7036874417766400)) as [Hlo _]. fold P in Hlo.
    assert (H : 2 ^ (Z.pos (digits2_pos (m * 7036874417766400)) - 1) < 2 ^ (7 + t)) by lia.
    apply Z.pow_lt_mono_r_iff in H; [|lia|lia].
    unfold fexp, emin, prec, emax. lia. }
  destruct (binary_round_aux_shape false P (e + -46) loc_Exact ltac:(lia))
    as [Hz|(mp & k & Hk & Hb' & Hres)].
  { rewrite Hz. cbn. split; [exact I|lia]. }
  set (u := 2 ^ Z.max 0 (fexp prec emax (Zdigits2 P + (e + -46)) - (e + -46))) in *.
  assert (Hpk : 0 < 2 ^ k) by (apply Z.pow_pos_nonneg; lia).
  assert (Hbound : 2 * (2 ^ k * Z.pos mp) < 201 * 2 ^ t).
  { rewrite HT in *. rewrite HP in Hb'. set (U := 2 ^ (- e)) in *. nia. }
  assert (Hkt : k < 8 + t).
  { assert (H : 2 ^ k < 2 ^ (8 + t)).
    { rewrite (Z.pow_add_r 2 8 t) by lia. change (2 ^ 8) with 256.
      assert (0 < 2 ^ t) by (apply Z.pow_pos_nonneg; lia). nia. }
    apply Z.pow_lt_mono_r_iff in H; lia. }
  rewrite Hres.
  replace (e + -46 + k <=? emax - prec) with true
    by (symmetry; apply Z.leb_le; unfold emax, prec; lia).
  split; [exact I|]. split.
  - apply Math_round_nonneg. reflexivity.
  - apply (Math_round_le_scaled mp (e + -46 + k) t 100); [lia|lia|].
    replace (e + -46 + k + t) with k by lia. lia.
Qed.


(** A positive integer below 2^53 divided by itself is exactly 1. *)
Lemma div_same (b : positive) :
  Z.pos b < 2 ^ 53 ->
  div (of_Z (Z.pos b)) (of_Z (Z.pos b)) = S754_finite false 4503599627370496 (-52).
Proof.
  intros Hb.
  destruct (of_Z_exact b) as (m & Hof & _ & Hd & _); [lia|].
  rewrite Hof. set (e := Z.pos (digits2_pos b) - 53).
  unfold div, SFdiv, SFdiv_core_binary. cbn [Zdigits2 xorb]. rewrite Hd.
  replace (53 + e - (53 + e)) with 0 by lia.
  replace (e - e) with 0 by lia.
  change (Z.min (fexp prec emax 0) 0) with (-53).
  change (0 - -53) with 53. cbv beta iota.
  rewrite Z.shiftl_mul_pow2 by lia.
  pose proof (Z_div_mod (Z.pos m * 2 ^ 53) (Z.pos m) ltac:(lia)) as Hdiv.
  destruct (Z.div_eucl (Z.pos m * 2 ^ 53) (Z.pos m)) as [q r]. destruct Hdiv as [Heq Hr].
  change (2 ^ 53) with 9007199254740992 in Heq.
  assert (Hq : q = 9007199254740992) by nia.
  assert (Hr0 : r = 0) by nia.
  subst q r.
  replace (new_location (Z.pos m) 0) with loc_Exact
    by (unfold new_location, new_location_even, new_location_odd;
        destruct (Z.even (Z.pos m)); reflexivity).
  reflexivity.
Qed.

Lemma percent_full (b : Z) :
  0 < b < 2 ^ 53 -> Math_round (mul (div (of_Z b) (of_Z b)) (of_Z 100)) = 100.
Proof.
  intros Hb. destruct b as [|b|b]; try lia.
  rewrite div_same by lia. reflexivity.
Qed.

Lemma percent_none (b : Z) :
  0 < b < 2 ^ 53 -> Math_round (mul (div (of_Z 0) (of_Z b)) (of_Z 100)) = 0.
Proof.
  intros Hb. destruct b as [|b|b]; try lia.
  destruct (of_Z_exact b) as (m & Hof & _); [lia|].
  rewrite Hof. reflexivity.
Qed.

End Binary64Percent.

(** ** Binary64: a quotient and its nearest integer *)

Section Binary64Nearest.

Import Number.

Lemma shr_1_lower (mrs : shr_record) :
  0 <= shr_m mrs -> shr_m mrs <= 2 * shr_m (shr_1 mrs) + 1.
Proof.
  destruct mrs as [m r s]. cbn [shr_m]. intros Hm.
  destruct m as [|[p|p|]|p]; cbn [shr_1 shr_m]; lia.
Qed.

Lemma iter_shr_1_lower (p : positive) :
  forall mrs : shr_record,
    0 <= shr_m mrs ->
    shr_m mrs < 2 ^ Z.pos p * (shr_m (iter_pos shr_1 p mrs) + 1).
Proof.
  induction p as [p IH|p IH|]; intros mrs Hm; cbn [iter_pos].
  - pose proof (shr_1_lower mrs Hm) as H0.
    destruct (shr_1_bound mrs Hm) as [Hn0 _].
    pose proof (IH _ Hn0) as H1.
    destruct (iter_shr_1_bound p _ Hn0) as [Hn1 _].
    pose proof (IH _ Hn1) as H2.
    rewrite (Pos2Z.inj_xI p), Z.pow_add_r, Z.pow_twice_r, Z.pow_1_r by lia.
    assert (0 < 2 ^ Z.pos p) by (apply Z.pow_pos_nonneg; lia).
    set (P := 2 ^ Z.pos p) in *.
    set (x1 := shr_m (shr_1 mrs)) in *.
    set (x2 := shr_m (iter_pos shr_1 p (shr_1 mrs))) in *.
    set (x3 := shr_m (iter_pos shr_1 p (iter_pos shr_1 p (shr_1 mrs)))) in *.
    assert (x1 + 1 <= P * (x2 + 1)) by lia.
    assert (x2 + 1 <= P * (x3 + 1)) by lia.
    assert (P * (x2 + 1) <= P * (P * (x3 + 1))) by (apply Z.mul_le_mono_nonneg_l; lia).
    nia.
  - pose proof (IH _ Hm) as H1.
    destruct (iter_shr_1_bound p _ Hm) as [Hn1 _].
    pose proof (IH _ Hn1) as H2.
    rewrite (Pos2Z.inj_xO p), Z.pow_twice_r.
    assert (0 < 2 ^ Z.pos p) by (apply Z.pow_pos_nonneg; lia).
    set (P := 2 ^ Z.pos p) in *.
    set (x1 := shr_m (iter_pos shr_1 p mrs)) in *.
    set (x2 := shr_m (iter_pos shr_1 p (iter_pos shr_1 p mrs))) in *.
    assert (x1 + 1 <= P * (x2 + 1)) by lia.
    assert (P * (x1 + 1) <= P * (P * (x2 + 1))) by (apply Z.mul_le_mono_nonneg_l; lia).
    nia.
  - rewrite Z.pow_1_r. pose proof (shr_1_lower mrs Hm). lia.
Qed.

Lemma shr_lower (mrs mrs' : shr_record) (e n e' : Z) :
  0 <= shr_m mrs ->
  shr mrs e n = (mrs', e') ->
  shr_m mrs < 2 ^ Z.max 0 n * (shr_m mrs' + 1).
Proof.
  intros Hm Hshr. unfold shr in Hshr.
  destruct n as [|p|p]; inversion Hshr; subst; clear Hshr.
  - rewrite Z.max_id, Z.pow_0_r. lia.
  - rewrite Z.max_r by lia. apply iter_shr_1_lower, Hm.
  - rewrite Z.max_l, Z.pow_0_r by lia. lia.
Qed.

Lemma Zdigits2_unique (m d : Z) :
  2 ^ (d - 1) <= m < 2 ^ d -> 1 <= d -> Zdigits2 m = d.
Proof.
  intros [Hlo Hhi] Hd.
  assert (0 < 2 ^ (d - 1)) by (apply Z.pow_pos_nonneg; lia).
  destruct m as [|p|p]; try lia. cbn [Zdigits2].
  pose proof (digits2_pos_bounds p) as [Hplo Hphi].
  set (dp := Z.pos (digits2_pos p)) in *.
  assert (H1 : 2 ^ (dp - 1) < 2 ^ d) by lia.
  apply Z.pow_lt_mono_r_iff in H1; [|lia|lia].
  assert (H2 : 2 ^ (d - 1) < 2 ^ dp) by lia.
  apply Z.pow_lt_mono_r_iff in H2; [|lia|lia].
  lia.
Qed.

(** The rounding of a mantissa of 53 or 54 digits in the normal range:
    a double whose exponent is at most two places up, with the mantissa
    shifted accordingly, at most two units above it before the shift and
    less than one unit below it after; the mantissa of the double has
    53 digits. *)
Lemma round_quotient (sx : bool) (mx ex : Z) (lx : location) :
  2 ^ 52 <= mx < 2 ^ 54 -> -1074 <= ex <= 900 ->
  exists (m : positive) (k : Z),
    binary_round_aux prec emax sx mx ex lx = S754_finite sx m (ex + k) /\
    0 <= k <= 2 /\
    2 ^ k * Z.pos m <= mx + 2 /\
    mx < 2 ^ k * (Z.pos m + 1) /\
    2 ^ 52 <= Z.pos m < 2 ^ 53.
Proof.
  intros Hmx Hex.
  change (2 ^ 52) with 4503599627370496 in Hmx.
  change (2 ^ 54) with 18014398509481984 in Hmx.
  unfold binary_round_aux, shr_fexp.
  set (n1 := fexp prec emax (Zdigits2 mx + ex) - ex).
  assert (Hn1 : (mx < 2 ^ 53 /\ n1 = 0) \/ (2 ^ 53 <= mx /\ n1 = 1)).
  { destruct (Z.lt_ge_cases mx (2 ^ 53)) as [Hlt|Hge]; [left|right]; (split; [assumption|]).
    - subst n1. rewrite (Zdigits2_unique mx 53) by (cbn; lia).
      unfold fexp, emin, prec, emax. lia.
    - subst n1. rewrite (Zdigits2_unique mx 54) by (cbn; lia).
      unfold fexp, emin, prec, emax. lia. }
  change (2 ^ 53) with 9007199254740992 in Hn1.
  destruct (shr (shr_record_of_loc mx lx) ex n1) as [mrs1 e1] eqn:E1.
  assert (H0 : 0 <= shr_m (shr_record_of_loc mx lx)) by (rewrite shr_record_of_loc_m; lia).
  pose proof (shr_lower _ _ _ _ _ H0 E1) as Hl1. clear H0.
  apply shr_bound in E1; [|rewrite shr_record_of_loc_m; lia].
  rewrite shr_record_of_loc_m in E1, Hl1. destruct E1 as (Hm1 & He1 & Hb1).
  pose proof (round_nearest_even_bound (shr_m mrs1) (loc_of_shr_record mrs1)) as Hr.
  set (m1 := shr_m mrs1) in *.
  set (m1' := round_nearest_even m1 (loc_of_shr_record mrs1)) in *.
  assert (Hm1range : 4503599627370496 <= m1 < 9007199254740992).
  { destruct Hn1 as [[Hlt ->]|[Hge ->]].
    - rewrite Z.max_id, Z.pow_0_r in *. lia.
    - rewrite Z.max_r, Z.pow_1_r in * by lia. lia. }
  set (n2 := fexp prec emax (Zdigits2 m1' + e1) - e1).
  assert (Hn2 : (m1' < 2 ^ 53 /\ n2 = 0) \/ (m1' = 2 ^ 53 /\ n2 = 1)).
  { assert (He1range : -1074 <= e1 <= 901) by (destruct Hn1 as [[_ ->]|[_ ->]]; lia).
    destruct (Z.lt_ge_cases m1' (2 ^ 53)) as [Hlt|Hge]; [left|right].
    - split; [assumption|]. subst n2.
      rewrite (Zdigits2_unique m1' 53) by (cbn; lia).
      unfold fexp, emin, prec, emax. lia.
    - change (2 ^ 53) with 9007199254740992 in *.
      split; [lia|]. subst n2.
      rewrite (Zdigits2_unique m1' 54) by (cbn; lia).
      unfold fexp, emin, prec, emax. lia. }
  change (2 ^ 53) with 9007199254740992 in Hn2.
  destruct (shr (shr_record_of_loc m1' loc_Exact) e1 n2) as [mrs2 e2] eqn:E2.
  assert (H0 : 0 <= shr_m (shr_record_of_loc m1' loc_Exact))
    by (cbn [shr_m shr_record_of_loc]; lia).
  pose proof (shr_lower _ _ _ _ _ H0 E2) as Hl2. clear H0.
  apply shr_bound in E2; [|cbn [shr_m shr_record_of_loc]; lia].
  cbn [shr_m shr_record_of_loc] in E2, Hl2. destruct E2 as (Hm2 & He2 & Hb2).
  assert (Hk : 0 <= Z.max 0 n1 + Z.max 0 n2 <= 2)
    by (destruct Hn1 as [[_ ->]|[_ ->]], Hn2 as [[_ ->]|[_ ->]]; lia).
  assert (Hup : 2 ^ (Z.max 0 n1 + Z.max 0 n2) * shr_m mrs2 <= mx + 2 /\
                mx < 2 ^ (Z.max 0 n1 + Z.max 0 n2) * (shr_m mrs2 + 1) /\
                4503599627370496 <= shr_m mrs2 < 9007199254740992).
  { rewrite Z.pow_add_r by lia.
    destruct Hn1 as [[Hc1 ->]|[Hc1 ->]], Hn2 as [[Hc2 ->]|[Hc2 ->]];
      rewrite ?Z.max_id, ?(Z.max_r 0 1), ?Z.pow_0_r, ?Z.pow_1_r in * by lia; lia. }
  destruct (shr_m mrs2) as [|m2|m2] eqn:Em2.
  - lia.
  - exists m2, (Z.max 0 n1 + Z.max 0 n2).
    replace (e2 <=? emax - prec) with true
      by (symmetry; apply Z.leb_le; unfold emax, prec; lia).
    split; [f_equal; lia|]. split; [exact Hk|].
    change (2 ^ 52) with 4503599627370496. change (2 ^ 53) with 9007199254740992.
    exact Hup.
  - lia.
Qed.

(** The quotient of two positive doubles before rounding, with the
    remainder on both sides. *)
Lemma div_finite_remainder (m1 m2 : positive) (e1 e2 : Z) :
  exists q e' l,
    div (S754_finite false m1 e1) (S754_finite false m2 e2) =
      binary_round_aux prec emax false q e' l /\
    e' = Z.min (fexp prec emax (Z.pos (digits2_pos m1) + e1 - (Z.pos (digits2_pos m2) + e2)))
               (e1 - e2) /\
    0 <= q /\
    q * Z.pos m2 <= Z.pos m1 * 2 ^ (e1 - e2 - e') < (q + 1) * Z.pos m2.
Proof.
  unfold div, SFdiv, SFdiv_core_binary. cbn [Zdigits2 xorb].
  set (e' := Z.min _ (e1 - e2)).
  assert (Hs : 0 <= e1 - e2 - e') by lia.
  set (m' := match e1 - e2 - e' with
             | 0 => Z.pos m1
             | Z.pos _ => Z.shiftl (Z.pos m1) (e1 - e2 - e')
             | Z.neg _ => 0
             end).
  assert (Hm' : m' = Z.pos m1 * 2 ^ (e1 - e2 - e')).
  { subst m'. destruct (e1 - e2 - e') as [|s|s] eqn:Es.
    - rewrite Z.pow_0_r. lia.
    - apply Z.shiftl_mul_pow2. lia.
    - lia. }
  pose proof (Z_div_mod m' (Z.pos m2) ltac:(lia)) as Hdiv.
  destruct (Z.div_eucl m' (Z.pos m2)) as [q r]. destruct Hdiv as [Heq Hr].
  exists q, e', (new_location (Z.pos m2) r).
  split; [reflexivity|]. split; [reflexivity|].
  rewrite <- Hm'. split; nia.
Qed.

(** [Math.round] of a positive double below 1 in the last place: an
    integer within one half of it. *)
Lemma Math_round_half (m : positive) (e : Z) :
  e < 0 ->
  2 * Math_round (S754_finite false m e) * 2 ^ (- e) <= 2 * Z.pos m + 2 ^ (- e) /\
  2 * Z.pos m + 2 ^ (- e) < 2 * (Math_round (S754_finite false m e) + 1) * 2 ^ (- e).
Proof.
  intros He. destruct e as [|p|p]; try lia.
  cbv beta iota zeta delta [Math_round]. change (- Z.neg p) with (Z.pos p).
  replace (Z.pos p + 1) with (Z.succ (Z.pos p)) by lia.
  rewrite Z.pow_succ_r by lia.
  assert (HP : 0 < 2 ^ Z.pos p) by (apply Z.pow_pos_nonneg; lia).
  set (P := 2 ^ Z.pos p) in *.
  pose proof (Z_div_mod_eq_full (2 * Z.pos m + P) (2 * P)) as Heq.
  pose proof (Z.mod_pos_bound (2 * Z.pos m + P) (2 * P) ltac:(lia)) as Hmod.
  nia.
Qed.

(** A duration of fewer than 2^51 milliseconds divided by 60000 and
    rounded: the minutes are within half a minute of the duration. *)
Lemma Math_round_div_60000_nearest (d : Z) :
  0 <= d < 2 ^ 51 ->
  d - 30000 <= 60000 * Math_round (div (of_Z d) (of_Z 60000)) <= d + 30000.
Proof.
  intros Hd. rewrite of_Z_60000.
  destruct d as [|d|d]; [cbn; lia| |lia].
  change (2 ^ 51) with 2251799813685248 in Hd.
  destruct (of_Z_exact d) as (m1 & Hof & Hm1 & Hd1 & Hk);
    [change (2 ^ 53) with 9007199254740992; lia|].
  rewrite Hof. set (kd := Z.pos (digits2_pos d)) in *.
  assert (Hkd : kd <= 51).
  { pose proof (digits2_pos_bounds d) as [Hlo _]. fold kd in Hlo.
    assert (H : 2 ^ (kd - 1) < 2 ^ 51) by (change (2 ^ 51) with 2251799813685248; lia).
    apply Z.pow_lt_mono_r_iff in H; lia. }
  destruct (div_finite_remainder m1 8246337208320000 (kd - 53) (-37))
    as (q & e' & l & Hdiv & He' & Hq0 & Hq).
  rewrite Hdiv. clear Hdiv.
  change (Z.pos (digits2_pos 8246337208320000)) with 53 in He'. rewrite Hd1 in He'.
  assert (He'v : e' = kd - 69) by (unfold fexp, emin, prec, emax in He'; lia).
  clear He'. subst e'.
  replace (kd - 53 - -37 - (kd - 69)) with 53 in Hq by lia.
  change (2 ^ 53) with 9007199254740992 in Hq.
  pose proof (digits2_pos_bounds m1) as [Hm1lo Hm1hi]. rewrite Hd1 in Hm1lo, Hm1hi.
  change (2 ^ (53 - 1)) with 4503599627370496 in Hm1lo.
  change (2 ^ 53) with 9007199254740992 in Hm1hi.
  destruct (round_quotient false q (kd - 69) l) as (m & k & Hres & Hk2 & Hup & Hlow & _).
  { change (2 ^ 52) with 4503599627370496. change (2 ^ 54) with 18014398509481984. nia. }
  { lia. }
  rewrite Hres.
  destruct (Math_round_half m (kd - 69 + k) ltac:(lia)) as [Hr1 Hr2].
  set (E := Math_round (S754_finite false m (kd - 69 + k))) in *.
  (* 2^(-e) * 2^k = 2^16 * 2^(53 - kd) *)
  assert (Hpow : 2 ^ (- (kd - 69 + k)) * 2 ^ k = 65536 * 2 ^ (53 - kd)).
  { rewrite <- Z.pow_add_r by lia. change 65536 with (2 ^ 16).
    rewrite <- Z.pow_add_r by lia. f_equal. lia. }
  assert (HA : 4 <= 2 ^ (53 - kd)).
  { change 4 with (2 ^ 2). apply Z.pow_le_mono_r; lia. }
  assert (HK : 1 <= 2 ^ k <= 4).
  { assert (0 < 2 ^ k) by (apply Z.pow_pos_nonneg; lia).
    assert (2 ^ k <= 2 ^ 2) by (apply Z.pow_le_mono_r; lia).
    change (2 ^ 2) with 4 in *. lia. }
  assert (HP : 0 < 2 ^ (- (kd - 69 + k))) by (apply Z.pow_pos_nonneg; lia).
  set (A := 2 ^ (53 - kd)) in *. set (K := 2 ^ k) in *.
  set (P := 2 ^ (- (kd - 69 + k))) in *.
  set (M := Z.pos m) in *. set (D := Z.pos d) in *. set (M1 := Z.pos m1) in *.
  assert (HM : 0 < M) by (subst M; lia).
  assert (HD : 0 < D) by (subst D; lia).
  clearbody A K P M D M1 E.
  subst M1.
  (* everything at the scale K * 60000 * 2^37 *)
  assert (H1 : 2 * E * (P * K) * 8246337208320000
               <= (2 * (K * M) + P * K) * 8246337208320000) by nia.
  assert (H2 : (2 * (K * M) + P * K) * 8246337208320000
               < 2 * (E + 1) * (P * K) * 8246337208320000) by nia.
  rewrite Hpow in H1, H2.
  assert (H3 : K * M * 8246337208320000
               <= D * A * 9007199254740992 + 2 * 8246337208320000) by nia.
  assert (H4 : D * A * 9007199254740992
               < K * M * 8246337208320000 + K * 8246337208320000) by nia.
  split.
  - assert (H5 : (D - 30000 - 60000 * E) * (A * 18014398509481984)
                 < A * 18014398509481984) by nia.
    nia.
  - assert (H5 : (60000 * E - D - 30000) * (A * 18014398509481984)
                 < A * 18014398509481984) by nia.
    nia.
Qed.

End Binary64Nearest.

(** ** Binary64: the pass mark *)

Section Binary64Compare.

Import Number.

(** [x >= 0.8] on a positive double. *)
Lemma geb_lit_0_8 (m : positive) (e : Z) :
  geb (S754_finite false m e) lit_0_8 = true <->
  -53 < e \/ (e = -53 /\ 7205759403792794 <= Z.pos m).
Proof.
  unfold geb, lit_0_8, SFleb, SFcompare.
  change (Pos.compare_cont Eq 7205759403792794 m) with (7205759403792794 ?= m)%positive.
  rewrite Pos2Z.inj_compare.
  destruct (Z.compare_spec (-53) e) as [Heq|Hlt|Hgt].
  - destruct (Z.compare_spec 7205759403792794 (Z.pos m)) as [H|H|H];
      split; try discriminate; try lia; intros _; reflexivity.
  - split; [intros _; now left|reflexivity].
  - split; [discriminate|lia].
Qed.

Lemma new_location_gt (nb r : Z) : 0 < r -> nb < 2 * r -> new_location nb r = loc_Inexact Gt.
Proof.
  intros Hr Hgt. unfold new_location, new_location_even, new_location_odd.
  assert (H0 : (r =? 0) = false) by (apply Z.eqb_neq; lia).
  assert (H1 : (2 * r ?= nb) = Gt) by (apply Z.compare_gt_iff; lia).
  assert (H2 : (2 * r + 1 ?= nb) = Gt) by (apply Z.compare_gt_iff; lia).
  destruct (Z.even nb); rewrite H0, ?H1, ?H2; reflexivity.
Qed.

Lemma new_location_lt (nb r : Z) :
  0 < r -> 2 * r + 1 < nb -> new_location nb r = loc_Inexact Lt.
Proof.
  intros Hr Hlt. unfold new_location, new_location_even, new_location_odd.
  assert (H0 : (r =? 0) = false) by (apply Z.eqb_neq; lia).
  assert (H1 : (2 * r ?= nb) = Lt) by (apply Z.compare_lt_iff; lia).
  assert (H2 : (2 * r + 1 ?= nb) = Lt) by (apply Z.compare_lt_iff; lia).
  destruct (Z.even nb); rewrite H0, ?H1, ?H2; reflexivity.
Qed.

(** Four fifths of anything is the double nearest to 0.8: the quotient
    4t / 5t does not depend on t. *)
Lemma div_four_fifths (t : positive) :
  5 * Z.pos t < 2 ^ 53 ->
  div (of_Z (4 * Z.pos t)) (of_Z (5 * Z.pos t)) = lit_0_8.
Proof.
  intros Ht. change (2 ^ 53) with 9007199254740992 in Ht.
  change (4 * Z.pos t) with (Z.pos (4 * t)). change (5 * Z.pos t) with (Z.pos (5 * t)).
  destruct (of_Z_exact (4 * t)) as (m1 & Hof1 & Hm1 & Hd1 & Hk4);
    [change (2 ^ 53) with 9007199254740992; lia|].
  destruct (of_Z_exact (5 * t)) as (m2 & Hof2 & Hm2 & Hd2 & Hk5);
    [change (2 ^ 53) with 9007199254740992; lia|].
  rewrite Hof1, Hof2.
  pose proof (digits2_pos_bounds (4 * t)) as [H4lo H4hi].
  pose proof (digits2_pos_bounds (5 * t)) as [H5lo H5hi].
  set (k4 := Z.pos (digits2_pos (4 * t))) in *.
  set (k5 := Z.pos (digits2_pos (5 * t))) in *.
  rewrite Pos2Z.inj_mul in Hm1, Hm2, H4lo, H4hi, H5lo, H5hi.
  assert (Hk : k5 = k4 \/ k5 = k4 + 1).
  { assert (H1 : 2 ^ (k4 - 1) < 2 ^ k5) by lia.
    apply Z.pow_lt_mono_r_iff in H1; [|lia|lia].
    assert (H2 : 2 ^ (k5 - 1) < 2 ^ (k4 + 1)).
    { rewrite Z.pow_add_r, Z.pow_1_r by lia. lia. }
    apply Z.pow_lt_mono_r_iff in H2; [|lia|lia].
    lia. }
  unfold div, SFdiv, SFdiv_core_binary. cbn [Zdigits2 xorb]. rewrite Hd1, Hd2.
  replace (53 + (k4 - 53) - (53 + (k5 - 53))) with (k4 - k5) by lia.
  replace (k4 - 53 - (k5 - 53)) with (k4 - k5) by lia.
  assert (HA : 0 < 2 ^ (53 - k5)) by (apply Z.pow_pos_nonneg; lia).
  destruct Hk as [Hk|Hk]; rewrite Hk in *.
  - replace (k4 - k4) with 0 by lia.
    change (Z.min (fexp prec emax 0) 0) with (-53).
    change (0 - -53) with 53. cbv beta iota.
    rewrite Z.shiftl_mul_pow2 by lia.
    pose proof (Z_div_mod (Z.pos m1 * 2 ^ 53) (Z.pos m2) ltac:(lia)) as Hdiv.
    destruct (Z.div_eucl (Z.pos m1 * 2 ^ 53) (Z.pos m2)) as [q r]. destruct Hdiv as [Heq Hr].
    change (2 ^ 53) with 9007199254740992 in Heq.
    set (A := 2 ^ (53 - k4)) in *.
    assert (Hq : q = 7205759403792793) by nia.
    assert (Hr3 : r = 3 * (Z.pos t * A)) by nia.
    subst q. rewrite (new_location_gt (Z.pos m2) r) by nia.
    reflexivity.
  - replace (k4 - (k4 + 1)) with (-1) by lia.
    change (Z.min (fexp prec emax (-1)) (-1)) with (-54).
    change (-1 - -54) with 53. cbv beta iota.
    rewrite Z.shiftl_mul_pow2 by lia.
    pose proof (Z_div_mod (Z.pos m1 * 2 ^ 53) (Z.pos m2) ltac:(lia)) as Hdiv.
    destruct (Z.div_eucl (Z.pos m1 * 2 ^ 53) (Z.pos m2)) as [q r]. destruct Hdiv as [Heq Hr].
    change (2 ^ 53) with 9007199254740992 in Heq.
    replace (53 - k4) with (1 + (53 - (k4 + 1))) in Hm1 by lia.
    rewrite Z.pow_add_r, Z.pow_1_r in Hm1 by lia.
    set (A := 2 ^ (53 - (k4 + 1))) in *.
    assert (Hq : q = 14411518807585587) by nia.
    assert (Hr1 : r = Z.pos t * A) by nia.
    subst q. rewrite (new_location_lt (Z.pos m2) r) by nia.
    reflexivity.
Qed.

(** The comparison of the binary64 quotient with 0.8 decides whether
    the score is at least four fifths of the total: the double nearest
    to 4/5 is reached exactly at four fifths, and a quotient on either
    side of 4/5 by one part in 5 * total is not rounded across it. *)
Lemma passes_exact (score total : Z) :
  0 <= score <= total -> 0 < total < 2 ^ 32 ->
  passes score total = (4 * total <=? 5 * score).
Proof.
  intros Hs Hn. change (2 ^ 32) with 4294967296 in Hn. unfold passes.
  destruct total as [|n|n]; try lia.
  destruct score as [|s|s]; [| |lia].
  { destruct (of_Z_exact n) as (m2 & Hof & _);
      [change (2 ^ 53) with 9007199254740992; lia|].
    rewrite Hof. reflexivity. }
  destruct (Z.compare_spec (5 * Z.pos s) (4 * Z.pos n)) as [Heq|Hlt|Hgt].
  - (* exactly four fifths *)
    assert (Ht : 0 < Z.pos n - Z.pos s) by lia.
    destruct (Z.pos n - Z.pos s) as [|t|t] eqn:Et; try lia.
    replace (Z.pos s) with (4 * Z.pos t) by lia.
    replace (Z.pos n) with (5 * Z.pos t) by lia.
    rewrite div_four_fifths by (change (2 ^ 53) with 9007199254740992; lia).
    symmetry. apply Z.leb_le. lia.
  - (* below *)
    replace (4 * Z.pos n <=? 5 * Z.pos s) with false by (symmetry; apply Z.leb_gt; lia).
    destruct (of_Z_exact s) as (m1 & Hof1 & Hm1 & Hd1 & Hks);
      [change (2 ^ 53) with 9007199254740992; lia|].
    destruct (of_Z_exact n) as (m2 & Hof2 & Hm2 & Hd2 & Hkn);
      [change (2 ^ 53) with 9007199254740992; lia|].
    rewrite Hof1, Hof2.
    pose proof (digits2_pos_bounds s) as [Hslo _].
    pose proof (digits2_pos_bounds n) as [_ Hnhi].
    set (ks := Z.pos (digits2_pos s)) in *. set (kn := Z.pos (digits2_pos n)) in *.
    assert (Hkk : ks <= kn).
    { assert (H : 2 ^ (ks - 1) < 2 ^ kn) by lia. apply Z.pow_lt_mono_r_iff in H; lia. }
    destruct (div_finite_remainder m1 m2 (ks - 53) (kn - 53))
      as (q & e' & l & Hdiv & He' & Hq0 & Hq).
    rewrite Hdiv. clear Hdiv. rewrite Hd1, Hd2 in He'.
    assert (He'v : e' = ks - kn - 53) by (unfold fexp, emin, prec, emax in He'; lia).
    clear He'. subst e'.
    replace (ks - 53 - (kn - 53) - (ks - kn - 53)) with 53 in Hq by lia.
    change (2 ^ 53) with 9007199254740992 in Hq.
    pose proof (digits2_pos_bounds m1) as [Hm1lo Hm1hi]. rewrite Hd1 in Hm1lo, Hm1hi.
    pose proof (digits2_pos_bounds m2) as [Hm2lo Hm2hi]. rewrite Hd2 in Hm2lo, Hm2hi.
    change (2 ^ (53 - 1)) with 4503599627370496 in *.
    change (2 ^ 53) with 9007199254740992 in *.
    destruct (round_quotient false q (ks - kn - 53) l)
      as (m & k & Hres & Hk2 & Hup & _ & Hcan).
    { change (2 ^ 52) with 4503599627370496. change (2 ^ 54) with 18014398509481984. nia. }
    { lia. }
    rewrite Hres.
    destruct (geb (S754_finite false m (ks - kn - 53 + k)) lit_0_8) eqn:Egeb; [|reflexivity].
    exfalso. apply geb_lit_0_8 in Egeb.
    change (2 ^ 52) with 4503599627370496 in Hcan.
    change (2 ^ 53) with 9007199254740992 in Hcan.
    (* the chain K * m * n <= s * G * 2^53 + 2 * n *)
    replace (53 - ks) with ((kn - ks) + (53 - kn)) in Hm1 by lia.
    rewrite Z.pow_add_r in Hm1 by lia.
    assert (HB : 0 < 2 ^ (53 - kn)) by (apply Z.pow_pos_nonneg; lia).
    assert (HG : 1 <= 2 ^ (kn - ks)).
    { assert (0 < 2 ^ (kn - ks)) by (apply Z.pow_pos_nonneg; lia). lia. }
    assert (HK : 0 < 2 ^ k) by (apply Z.pow_pos_nonneg; lia).
    assert (Hchain : 2 ^ k * Z.pos m * Z.pos n
                     <= Z.pos s * 2 ^ (kn - ks) * 9007199254740992 + 2 * Z.pos n).
    { set (B := 2 ^ (53 - kn)) in *. set (G := 2 ^ (kn - ks)) in *. set (K := 2 ^ k) in *.
      assert (H1 : K * Z.pos m * (Z.pos n * B)
                   <= (Z.pos s * G * 9007199254740992 + 2 * Z.pos n) * B) by nia.
      nia. }
    destruct Egeb as [Hhigh|[Hsame Hm]].
    + (* the exponent would be above that of 0.8 *)
      assert (HKG : 2 * 2 ^ (kn - ks) <= 2 ^ k).
      { rewrite <- (Z.pow_succ_r 2 (kn - ks)) by lia. apply Z.pow_le_mono_r; lia. }
      set (G := 2 ^ (kn - ks)) in *. set (K := 2 ^ k) in *.
      assert (H1 : (2 * G) * 4503599627370496 <= K * Z.pos m)
        by (apply Z.mul_le_mono_nonneg; lia).
      assert (H2 : (2 * G) * 4503599627370496 * Z.pos n <= K * Z.pos m * Z.pos n)
        by (apply Z.mul_le_mono_nonneg_r; lia).
      assert (H3 : 9007199254740992 * (Z.pos n - Z.pos s)
                   <= G * (9007199254740992 * (Z.pos n - Z.pos s))).
      { rewrite <- (Z.mul_1_l (9007199254740992 * (Z.pos n - Z.pos s))) at 1.
        apply Z.mul_le_mono_nonneg_r; lia. }
      clear - H2 H3 Hchain Hlt. lia.
    + assert (HKG : 2 ^ k = 2 ^ (kn - ks)) by (f_equal; lia).
      rewrite HKG in Hchain.
      set (G := 2 ^ (kn - ks)) in *.
      assert (H0 : 2 * Z.pos n <= G * (2 * Z.pos n)).
      { rewrite <- (Z.mul_1_l (2 * Z.pos n)) at 1. apply Z.mul_le_mono_nonneg_r; lia. }
      assert (H1 : G * (Z.pos m * Z.pos n)
                   <= G * (Z.pos s * 9007199254740992 + 2 * Z.pos n)) by lia.
      apply Z.mul_le_mono_pos_l in H1; [|lia].
      assert (H2 : 7205759403792794 * Z.pos n <= Z.pos m * Z.pos n)
        by (apply Z.mul_le_mono_nonneg_r; lia).
      clear - H1 H2 Hlt Hn. lia.
  - (* above *)
    replace (4 * Z.pos n <=? 5 * Z.pos s) with true by (symmetry; apply Z.leb_le; lia).
    destruct (of_Z_exact s) as (m1 & Hof1 & Hm1 & Hd1 & Hks);
      [change (2 ^ 53) with 9007199254740992; lia|].
    destruct (of_Z_exact n) as (m2 & Hof2 & Hm2 & Hd2 & Hkn);
      [change (2 ^ 53) with 9007199254740992; lia|].
    rewrite Hof1, Hof2.
    pose proof (digits2_pos_bounds s) as [Hslo _].
    pose proof (digits2_pos_bounds n) as [_ Hnhi].
    set (ks := Z.pos (digits2_pos s)) in *. set (kn := Z.pos (digits2_pos n)) in *.
    assert (Hkk : ks <= kn).
    { assert (H : 2 ^ (ks - 1) < 2 ^ kn) by lia. apply Z.pow_lt_mono_r_iff in H; lia. }
    destruct (div_finite_remainder m1 m2 (ks - 53) (kn - 53))
      as (q & e' & l & Hdiv & He' & Hq0 & Hq).
    rewrite Hdiv. clear Hdiv. rewrite Hd1, Hd2 in He'.
    assert (He'v : e' = ks - kn - 53) by (unfold fexp, emin, prec, emax in He'; lia).
    clear He'. subst e'.
    replace (ks - 53 - (kn - 53) - (ks - kn - 53)) with 53 in Hq by lia.
    change (2 ^ 53) with 9007199254740992 in Hq.
    pose proof (digits2_pos_bounds m1) as [Hm1lo Hm1hi]. rewrite Hd1 in Hm1lo, Hm1hi.
    pose proof (digits2_pos_bounds m2) as [Hm2lo Hm2hi]. rewrite Hd2 in Hm2lo, Hm2hi.
    change (2 ^ (53 - 1)) with 4503599627370496 in *.
    change (2 ^ 53) with 9007199254740992 in *.
    destruct (round_quotient false q (ks - kn - 53) l)
      as (m & k & Hres & Hk2 & _ & Hlow & Hcan).
    { change (2 ^ 52) with 4503599627370496. change (2 ^ 54) with 18014398509481984. nia. }
    { lia. }
    rewrite Hres. apply geb_lit_0_8.
    change (2 ^ 52) with 4503599627370496 in Hcan.
    change (2 ^ 53) with 9007199254740992 in Hcan.
    replace (53 - ks) with ((kn - ks) + (53 - kn)) in Hm1 by lia.
    rewrite Z.pow_add_r in Hm1 by lia.
    assert (HB : 0 < 2 ^ (53 - kn)) by (apply Z.pow_pos_nonneg; lia).
    assert (HG : 1 <= 2 ^ (kn - ks)).
    { assert (0 < 2 ^ (kn - ks)) by (apply Z.pow_pos_nonneg; lia). lia. }
    assert (HK : 0 < 2 ^ k) by (apply Z.pow_pos_nonneg; lia).
    (* the chain s * G * 2^53 < K * (m + 1) * n *)
    assert (Hchain : Z.pos s * 2 ^ (kn - ks) * 9007199254740992
                     < 2 ^ k * (Z.pos m + 1) * Z.pos n).
    { set (B := 2 ^ (53 - kn)) in *. set (G := 2 ^ (kn - ks)) in *. set (K := 2 ^ k) in *.
      assert (H1 : (Z.pos s * G * 9007199254740992) * B
                   < (K * (Z.pos m + 1) * Z.pos n) * B) by nia.
      nia. }
    destruct (Z.lt_trichotomy k (kn - ks)) as [Hklt|[Hkeq|Hkgt]].
    + exfalso.
      assert (HKG : 2 * 2 ^ k <= 2 ^ (kn - ks)).
      { rewrite <- (Z.pow_succ_r 2 k) by lia. apply Z.pow_le_mono_r; lia. }
      set (G := 2 ^ (kn - ks)) in *. set (K := 2 ^ k) in *.
      assert (H1 : (2 * K) * (Z.pos s * 9007199254740992)
                   <= G * (Z.pos s * 9007199254740992))
        by (apply Z.mul_le_mono_nonneg_r; lia).
      assert (H2 : K * ((Z.pos m + 1) * Z.pos n) <= K * (9007199254740992 * Z.pos n)).
      { apply Z.mul_le_mono_nonneg_l; [lia|]. apply Z.mul_le_mono_nonneg_r; lia. }
      assert (H3 : K * (2 * Z.pos s * 9007199254740992)
                   < K * (9007199254740992 * Z.pos n)) by lia.
      apply Z.mul_lt_mono_pos_l in H3; [|lia].
      clear - H3 Hgt. lia.
    + right. split; [lia|].
      assert (HKG : 2 ^ k = 2 ^ (kn - ks)) by (f_equal; lia).
      rewrite HKG in Hchain.
      set (G := 2 ^ (kn - ks)) in *.
      assert (H1 : G * (Z.pos s * 9007199254740992) < G * ((Z.pos m + 1) * Z.pos n)) by lia.
      apply Z.mul_lt_mono_pos_l in H1; [|lia].
      destruct (Z.le_gt_cases 7205759403792794 (Z.pos m)) as [Hm|Hm]; [exact Hm|exfalso].
      assert (H2 : (Z.pos m + 1) * Z.pos n <= 7205759403792794 * Z.pos n)
        by (apply Z.mul_le_mono_nonneg_r; lia).
      clear - H1 H2 Hgt Hn. lia.
    + left. lia.
Qed.

End Binary64Compare.

(** ** Binary64: sums *)

Section Binary64Sum.

Import Number.

Lemma iter_pos_nat {A : Type} (f : A -> A) (p : positive) :
  forall x, iter_pos f p x = Nat.iter (Pos.to_nat p) f x.
Proof.
  induction p as [p IH|p IH|]; intros x; cbn [iter_pos].
  - rewrite !IH, Pos2Nat.inj_xI.
    replace (S (2 * Pos.to_nat p)) with (Pos.to_nat p + (Pos.to_nat p + 1))%nat by lia.
    now rewrite !Nat.iter_add.
  - rewrite !IH, Pos2Nat.inj_xO.
    replace (2 * Pos.to_nat p)%nat with (Pos.to_nat p + Pos.to_nat p)%nat by lia.
    now rewrite Nat.iter_add.
  - reflexivity.
Qed.

(** Shifting out the zeros that a shift to the left brought in is
    exact. *)
Lemma iter_shr_1_exact (q t : positive) :
  iter_pos shr_1 t (Build_shr_record (Z.pos (Pos.iter xO q t)) false false) =
  Build_shr_record (Z.pos q) false false.
Proof.
  rewrite iter_pos_nat, Pos2Nat.inj_iter.
  induction (Pos.to_nat t) as [|n IH]; [reflexivity|].
  rewrite Nat.iter_succ_r. cbn [Nat.iter shr_1 orb]. exact IH.
Qed.

(** A mantissa of 53 digits followed by [t] zeros is rounded to itself,
    [t] places up. *)
Lemma binary_round_aux_shift (s : bool) (q t : positive) (e : Z) :
  Z.pos (digits2_pos q) = 53 -> -1074 <= e -> e + Z.pos t <= 971 ->
  binary_round_aux prec emax s (Z.pos (Pos.iter xO q t)) e loc_Exact =
  S754_finite s q (e + Z.pos t).
Proof.
  intros Hd Hlo Hhi. unfold binary_round_aux, shr_fexp.
  cbn [Zdigits2 shr_record_of_loc]. rewrite iter_xO_digits, Hd.
  replace (fexp prec emax (53 + Z.pos t + e) - e) with (Z.pos t)
    by (unfold fexp, emin, prec, emax; lia).
  cbn [shr]. rewrite iter_shr_1_exact.
  cbn [shr_m loc_of_shr_record round_nearest_even shr_record_of_loc Zdigits2].
  rewrite Hd.
  replace (fexp prec emax (53 + (e + Z.pos t)) - (e + Z.pos t)) with 0
    by (unfold fexp, emin, prec, emax; lia).
  cbn [shr shr_m].
  replace (e + Z.pos t <=? emax - prec) with true
    by (symmetry; apply Z.leb_le; unfold emax, prec; lia).
  reflexivity.
Qed.

Lemma shl_align_value (mx : positive) (ex ez : Z) :
  ez <= ex -> Z.pos (fst (shl_align mx ex ez)) = Z.pos mx * 2 ^ (ex - ez).
Proof.
  intros Hle. unfold shl_align.
  destruct (ez - ex) as [|d|d] eqn:Ed; cbn [fst].
  - replace (ex - ez) with 0 by lia. rewrite Z.pow_0_r. lia.
  - lia.
  - rewrite iter_xO_value. f_equal. f_equal. lia.
Qed.

(** A positive integer below 2^53, written with [j] zeros after it at
    the exponent [-j], is normalized to its double, whether that takes a
    shift to the right or, after a cancellation, to the left. *)
Lemma binary_normalize_scaled (c mx : positive) (j : Z) :
  Z.pos c < 2 ^ 53 -> 0 <= j <= 1074 ->
  Z.pos mx = Z.pos c * 2 ^ j ->
  binary_normalize prec emax (Z.pos mx) (- j) false = of_Z (Z.pos c).
Proof.
  intros Hc Hj Hmx.
  destruct (of_Z_exact c Hc) as (mc & Hof & Hmc & Hdc & Hk). rewrite Hof.
  set (k := Z.pos (digits2_pos c)) in *.
  pose proof (digits2_pos_bounds c) as [Hclo Hchi]. fold k in Hclo, Hchi.
  assert (HJ : 0 < 2 ^ j) by (apply Z.pow_pos_nonneg; lia).
  assert (Hdm : Z.pos (digits2_pos mx) = k + j).
  { change (Z.pos (digits2_pos mx)) with (Zdigits2 (Z.pos mx)).
    apply Zdigits2_unique; [|lia].
    rewrite Hmx. replace (k + j - 1) with ((k - 1) + j) by lia.
    rewrite !Z.pow_add_r by lia.
    split; [apply Z.mul_le_mono_nonneg_r; lia|apply Z.mul_lt_mono_pos_r; lia]. }
  cbn [binary_normalize]. unfold binary_round, shl_align. rewrite Hdm.
  replace (fexp prec emax (k + j + - j)) with (k - 53)
    by (unfold fexp, emin, prec, emax; lia).
  replace (k - 53 - - j) with (k + j - 53) by lia.
  destruct (k + j - 53) as [|t|t] eqn:Et.
  - assert (Hsplit : Z.pos mx = Z.pos mc).
    { rewrite Hmx, Hmc. f_equal. f_equal. lia. }
    injection Hsplit as ->.
    rewrite binary_round_aux_canonical by lia. f_equal. lia.
  - assert (Hsplit : Z.pos mx = Z.pos (Pos.iter xO mc t)).
    { rewrite iter_xO_value, Hmx, Hmc, <- Z.mul_assoc, <- Z.pow_add_r by lia.
      f_equal. f_equal. lia. }
    injection Hsplit as ->.
    rewrite binary_round_aux_shift by lia. f_equal. lia.
  - assert (Hsplit : Z.pos (Pos.iter xO mx t) = Z.pos mc).
    { rewrite iter_xO_value, Hmx, Hmc, <- Z.mul_assoc, <- Z.pow_add_r by lia.
      f_equal. f_equal. lia. }
    injection Hsplit as ->.
    now rewrite binary_round_aux_canonical by lia.
Qed.

(** The sum of two non-negative integers is exact while it is below
    2^53. *)
Lemma add_of_Z (a b : Z) :
  0 <= a -> 0 <= b -> a + b < 2 ^ 53 -> add (of_Z a) (of_Z b) = of_Z (a + b).
Proof.
  intros Ha Hb Hab.
  destruct a as [|a|a]; [| |lia].
  { destruct b as [|b|b]; [reflexivity| |lia].
    destruct (of_Z_exact b) as (mb & Hof & _); [lia|].
    cbn [Z.add]. rewrite Hof. reflexivity. }
  destruct b as [|b|b]; [| |lia].
  { destruct (of_Z_exact a) as (ma & Hof & _); [lia|].
    rewrite Z.add_0_r, Hof. reflexivity. }
  destruct (of_Z_exact a) as (ma & Hofa & Hma & Hda & Hka); [lia|].
  destruct (of_Z_exact b) as (mb & Hofb & Hmb & Hdb & Hkb); [lia|].
  rewrite Hofa, Hofb.
  set (ka := Z.pos (digits2_pos a)) in *. set (kb := Z.pos (digits2_pos b)) in *.
  unfold add, SFadd. cbn [cond_Zopp].
  set (ez := Z.min (ka - 53) (kb - 53)).
  pose proof (shl_align_value ma (ka - 53) ez ltac:(lia)) as Hxa.
  pose proof (shl_align_value mb (kb - 53) ez ltac:(lia)) as Hxb.
  set (xa := fst (shl_align ma (ka - 53) ez)) in *.
  set (xb := fst (shl_align mb (kb - 53) ez)) in *.
  change (Z.pos xa + Z.pos xb) with (Z.pos (xa + xb)).
  change (a + b)%positive with (a + b)%positive.
  change (Z.pos a + Z.pos b) with (Z.pos (a + b)).
  replace ez with (- (- ez)) by lia.
  apply binary_normalize_scaled.
  - rewrite Pos2Z.inj_add. lia.
  - (* the digits of the sum are at least those of either term *)
    pose proof (digits2_pos_bounds a) as [Halo _]. fold ka in Halo.
    pose proof (digits2_pos_bounds b) as [Hblo _]. fold kb in Hblo.
    pose proof (digits2_pos_bounds (a + b)) as [_ Hshi].
    set (ks := Z.pos (digits2_pos (a + b))) in *.
    rewrite Pos2Z.inj_add in Hshi.
    assert (H1 : ka <= ks).
    { assert (H : 2 ^ (ka - 1) < 2 ^ ks) by lia. apply Z.pow_lt_mono_r_iff in H; lia. }
    assert (H2 : kb <= ks).
    { assert (H : 2 ^ (kb - 1) < 2 ^ ks) by lia. apply Z.pow_lt_mono_r_iff in H; lia. }
    assert (H3 : ks <= 53).
    { pose proof (digits2_pos_bounds (a + b)) as [Hslo _]. fold ks in Hslo.
      rewrite Pos2Z.inj_add in Hslo.
      assert (H : 2 ^ (ks - 1) < 2 ^ 53) by lia. apply Z.pow_lt_mono_r_iff in H; lia. }
    lia.
  - rewrite Pos2Z.inj_add, Hxa, Hxb, Hma, Hmb, <- !Z.mul_assoc, <- !Z.pow_add_r by lia.
    replace (53 - ka + (ka - 53 - ez)) with (- ez) by lia.
    replace (53 - kb + (kb - 53 - ez)) with (- ez) by lia.
    lia.
Qed.

(** The difference of two integers 0 <= b <= a < 2^53 is exact. *)
Lemma sub_of_Z (a b : Z) :
  0 <= b <= a -> a < 2 ^ 53 -> sub (of_Z a) (of_Z b) = of_Z (a - b).
Proof.
  intros Hab Ha.
  destruct b as [|b|b]; [| |lia].
  { destruct a as [|a|a]; [reflexivity| |lia].
    destruct (of_Z_exact a) as (ma & Hof & _); [lia|].
    rewrite Z.sub_0_r, Hof. reflexivity. }
  destruct a as [|a|a]; try lia.
  destruct (of_Z_exact a) as (ma & Hofa & Hma & Hda & Hka); [lia|].
  destruct (of_Z_exact b) as (mb & Hofb & Hmb & Hdb & Hkb); [lia|].
  rewrite Hofa, Hofb.
  set (ka := Z.pos (digits2_pos a)) in *. set (kb := Z.pos (digits2_pos b)) in *.
  unfold sub, SFsub. cbn [cond_Zopp].
  set (ez := Z.min (ka - 53) (kb - 53)).
  pose proof (shl_align_value ma (ka - 53) ez ltac:(lia)) as Hxa.
  pose proof (shl_align_value mb (kb - 53) ez ltac:(lia)) as Hxb.
  set (xa := fst (shl_align ma (ka - 53) ez)) in *.
  set (xb := fst (shl_align mb (kb - 53) ez)) in *.
  assert (Hdiff : Z.pos xa - Z.pos xb = (Z.pos a - Z.pos b) * 2 ^ (- ez)).
  { rewrite Hxa, Hxb, Hma, Hmb, <- !Z.mul_assoc, <- !Z.pow_add_r by lia.
    replace (53 - ka + (ka - 53 - ez)) with (- ez) by lia.
    replace (53 - kb + (kb - 53 - ez)) with (- ez) by lia.
    lia. }
  assert (HE : 0 < 2 ^ (- ez)) by (apply Z.pow_pos_nonneg; lia).
  destruct (Z.pos a - Z.pos b) as [|c|c] eqn:Ec; try lia.
  - rewrite Hdiff. reflexivity.
  - destruct (Z.pos xa - Z.pos xb) as [|mx|mx] eqn:Emx; try lia.
    replace ez with (- (- ez)) by lia.
    apply binary_normalize_scaled; [lia|lia|exact Hdiff].
Qed.

Lemma of_Z_5 : of_Z 5 = S754_finite false 5629499534213120 (-50).
Proof. reflexivity. Qed.

(** Five times a count is exact while it is below 2^53. *)
Lemma mul_of_Z_5 (n : Z) :
  0 <= n -> n * 5 < 2 ^ 53 -> mul (of_Z n) (of_Z 5) = of_Z (n * 5).
Proof.
  intros Hn Hn5. rewrite of_Z_5.
  destruct n as [|n|n]; [reflexivity| |lia].
  destruct (of_Z_exact n) as (mn & Hofn & Hmn & Hdn & Hkn); [lia|].
  change (Z.pos n * 5) with (Z.pos (n * 5)) in *.
  destruct (of_Z_exact (n * 5) Hn5) as (mp & Hofp & Hmp & Hdp & Hkp).
  rewrite Hofn, Hofp. unfold mul, SFmul. cbn [xorb].
  set (kn := Z.pos (digits2_pos n)) in *. set (kp := Z.pos (digits2_pos (n * 5))) in *.
  assert (Hkk : kn <= kp).
  { pose proof (digits2_pos_bounds n) as [Hlo _]. fold kn in Hlo.
    pose proof (digits2_pos_bounds (n * 5)) as [_ Hhi]. fold kp in Hhi.
    rewrite Pos2Z.inj_mul in Hhi.
    assert (H : 2 ^ (kn - 1) < 2 ^ kp) by lia. apply Z.pow_lt_mono_r_iff in H; lia. }
  destruct (50 + kp - kn) as [|t|t] eqn:Et; try lia.
  assert (Hsplit : Z.pos (mn * 5629499534213120) = Z.pos (Pos.iter xO mp t)).
  { rewrite iter_xO_value, Pos2Z.inj_mul, Hmn, Hmp, Pos2Z.inj_mul.
    change (Z.pos 5629499534213120) with (5 * 2 ^ 50).
    replace (Z.pos n * 2 ^ (53 - kn) * (5 * 2 ^ 50))
      with (Z.pos n * 5 * (2 ^ (53 - kn) * 2 ^ 50)) by ring.
    rewrite <- (Z.mul_assoc (Z.pos n * 5)), <- !Z.pow_add_r by lia.
    f_equal. f_equal. lia. }
  injection Hsplit as ->.
  rewrite binary_round_aux_shift by lia. f_equal. lia.
Qed.

(** An integer below 2^53 is read back from its double as it is. *)
Lemma to_Z_of_Z (z : Z) : 0 <= z < 2 ^ 53 -> to_Z (of_Z z) = z.
Proof.
  intros Hz. destruct z as [|d|d]; [reflexivity| |lia].
  destruct (of_Z_exact d) as (m & Hof & Hm & _ & Hk); [lia|].
  rewrite Hof. cbv beta iota zeta delta [to_Z]. rewrite Hm.
  destruct (Z.pos (digits2_pos d) - 53) as [|t|t] eqn:Et; try lia.
  - replace (53 - Z.pos (digits2_pos d)) with 0 by lia. rewrite !Z.pow_0_r. lia.
  - replace (53 - Z.pos (digits2_pos d)) with (Z.pos t) by lia.
    apply Z.div_mul. apply Z.pow_nonzero; lia.
Qed.

Lemma plus_exact (a b : Z) :
  0 <= a -> 0 <= b -> a + b < 2 ^ 53 -> plus a b = a + b.
Proof.
  intros Ha Hb Hab. unfold plus. rewrite add_of_Z by assumption.
  apply to_Z_of_Z. lia.
Qed.

End Binary64Sum.

(** ** Binary64: a percentage and its nearest integer *)

Section Binary64PercentNearest.

Import Number.

(** The rounding of a mantissa of [d] digits, 53 or more, in the normal
    range: a double with a mantissa of 53 digits, [d - 53] or [d - 52]
    places up, at most one unit of the first shift above the mantissa
    and less than one unit in its last place below it. *)
Lemma round_digits (sx : bool) (mx ex : Z) (lx : location) (d : Z) :
  53 <= d -> 2 ^ (d - 1) <= mx < 2 ^ d -> -1074 <= ex + (d - 53) <= 900 ->
  exists (m : positive) (k : Z),
    binary_round_aux prec emax sx mx ex lx = S754_finite sx m (ex + k) /\
    d - 53 <= k <= d - 52 /\
    2 ^ k * Z.pos m <= mx + 2 ^ (d - 53) /\
    mx < 2 ^ k * (Z.pos m + 1) /\
    2 ^ 52 <= Z.pos m < 2 ^ 53.
Proof.
  intros Hd Hmx Hex.
  assert (Hpos : 0 < 2 ^ (d - 1)) by (apply Z.pow_pos_nonneg; lia).
  unfold binary_round_aux, shr_fexp.
  rewrite (Zdigits2_unique mx d Hmx) by lia.
  replace (fexp prec emax (d + ex) - ex) with (d - 53)
    by (unfold fexp, emin, prec, emax; lia).
  destruct (shr (shr_record_of_loc mx lx) ex (d - 53)) as [mrs1 e1] eqn:E1.
  assert (H0 : 0 <= shr_m (shr_record_of_loc mx lx)) by (rewrite shr_record_of_loc_m; lia).
  pose proof (shr_lower _ _ _ _ _ H0 E1) as Hl1.
  apply shr_bound in E1; [|exact H0]. clear H0.
  rewrite shr_record_of_loc_m in E1, Hl1. destruct E1 as (Hm1 & He1 & Hb1).
  rewrite Z.max_r in * by lia.
  pose proof (round_nearest_even_bound (shr_m mrs1) (loc_of_shr_record mrs1)) as Hr.
  set (m1 := shr_m mrs1) in *.
  set (m1' := round_nearest_even m1 (loc_of_shr_record mrs1)) in *.
  assert (HN : 0 < 2 ^ (d - 53)) by (apply Z.pow_pos_nonneg; lia).
  assert (Hs1 : 2 ^ (d - 1) = 2 ^ (d - 53) * 4503599627370496).
  { change 4503599627370496 with (2 ^ 52). rewrite <- Z.pow_add_r by lia. f_equal. lia. }
  assert (Hs2 : 2 ^ d = 2 ^ (d - 53) * 9007199254740992).
  { change 9007199254740992 with (2 ^ 53). rewrite <- Z.pow_add_r by lia. f_equal. lia. }
  rewrite Hs1, Hs2 in Hmx.
  set (N := 2 ^ (d - 53)) in *.
  assert (Hm1range : 4503599627370496 <= m1 < 9007199254740992).
  { split.
    - assert (H : N * 4503599627370496 < N * (m1 + 1)) by lia.
      apply Z.mul_lt_mono_pos_l in H; lia.
    - assert (H : N * m1 < N * 9007199254740992) by lia.
      apply Z.mul_lt_mono_pos_l in H; lia. }
  set (n2 := fexp prec emax (Zdigits2 m1' + e1) - e1).
  assert (Hn2 : (m1' < 9007199254740992 /\ n2 = 0) \/ (m1' = 9007199254740992 /\ n2 = 1)).
  { destruct (Z.lt_ge_cases m1' 9007199254740992) as [Hlt|Hge]; [left|right].
    - split; [assumption|]. subst n2.
      rewrite (Zdigits2_unique m1' 53) by (cbn; lia).
      unfold fexp, emin, prec, emax. lia.
    - split; [lia|]. subst n2.
      rewrite (Zdigits2_unique m1' 54) by (cbn; lia).
      unfold fexp, emin, prec, emax. lia. }
  destruct (shr (shr_record_of_loc m1' loc_Exact) e1 n2) as [mrs2 e2] eqn:E2.
  assert (H0 : 0 <= shr_m (shr_record_of_loc m1' loc_Exact))
    by (cbn [shr_m shr_record_of_loc]; lia).
  pose proof (shr_lower _ _ _ _ _ H0 E2) as Hl2.
  apply shr_bound in E2; [|exact H0]. clear H0.
  cbn [shr_m shr_record_of_loc] in E2, Hl2. destruct E2 as (Hm2 & He2 & Hb2).
  set (m2 := shr_m mrs2) in *.
  assert (Hfin : 4503599627370496 <= m2 < 9007199254740992 /\
                 2 ^ (d - 53 + Z.max 0 n2) * m2 <= mx + N /\
                 mx < 2 ^ (d - 53 + Z.max 0 n2) * (m2 + 1)).
  { rewrite Z.pow_add_r by lia. fold N.
    destruct Hn2 as [[Hc2 ->]|[Hc2 ->]].
    - rewrite Z.max_id, Z.pow_0_r in *.
      split; [lia|]. rewrite Z.mul_1_r.
      assert (H1 : N * m2 <= N * (m1 + 1)) by (apply Z.mul_le_mono_nonneg_l; lia).
      assert (H2 : N * (m1 + 1) <= N * (m2 + 1)) by (apply Z.mul_le_mono_nonneg_l; lia).
      lia.
    - rewrite (Z.max_r 0 1), Z.pow_1_r in * by lia.
      split; [lia|].
      assert (Hm2v : m2 = 4503599627370496) by lia.
      assert (Hm1v : m1 = 9007199254740991) by lia.
      clearbody m1 m2 N. subst m1 m2. split; lia. }
  destruct Hfin as (Hcan & Hup & Hlow).
  unfold m2 in *. destruct (shr_m mrs2) as [|p2|p2] eqn:Em2; try lia.
  exists p2, (d - 53 + Z.max 0 n2).
  replace (e2 <=? emax - prec) with true
    by (symmetry; apply Z.leb_le; unfold emax, prec;
        destruct Hn2 as [[_ ->]|[_ ->]]; lia).
  split; [f_equal; lia|].
  split; [destruct Hn2 as [[_ ->]|[_ ->]]; lia|].
  change (2 ^ 52) with 4503599627370496. change (2 ^ 53) with 9007199254740992.
  repeat split; lia.
Qed.

(** [Math.round(a / b * 100)] for integers 0 <= a <= b, 0 < b < 2^35:
    an integer within one half of the exact percentage 100 * a / b.  The
    two roundings, of the quotient and of the product, move the value by
    less than 2^-43, and the exact percentage is either a half-integer
    or at least 1 / (2 * b) away from one. *)
Lemma percent_nearest (a b : Z) :
  0 <= a <= b -> 0 < b < 2 ^ 35 ->
  2 * b * Math_round (mul (div (of_Z a) (of_Z b)) (of_Z 100)) - b <= 200 * a /\
  200 * a <= 2 * b * Math_round (mul (div (of_Z a) (of_Z b)) (of_Z 100)) + b.
Proof.
  intros Ha Hb. change (2 ^ 35) with 34359738368 in Hb.
  destruct b as [|b|b]; try lia.
  destruct a as [|a|a]; try lia.
  { rewrite percent_none by (change (2 ^ 53) with 9007199254740992; lia). lia. }
  destruct (of_Z_exact a) as (m1 & Hof1 & Hm1 & Hd1 & Hka);
    [change (2 ^ 53) with 9007199254740992; lia|].
  destruct (of_Z_exact b) as (m2 & Hof2 & Hm2 & Hd2 & Hkb);
    [change (2 ^ 53) with 9007199254740992; lia|].
  rewrite Hof1, Hof2, of_Z_100.
  pose proof (digits2_pos_bounds a) as [Halo _].
  pose proof (digits2_pos_bounds b) as [_ Hbhi].
  set (ka := Z.pos (digits2_pos a)) in *. set (kb := Z.pos (digits2_pos b)) in *.
  assert (Hkk : ka <= kb).
  { assert (H : 2 ^ (ka - 1) < 2 ^ kb) by lia. apply Z.pow_lt_mono_r_iff in H; lia. }
  assert (Hkb36 : kb <= 36).
  { pose proof (digits2_pos_bounds b) as [Hblo _]. fold kb in Hblo.
    assert (H : 2 ^ (kb - 1) < 2 ^ 36) by (change (2 ^ 36) with 68719476736; lia).
    apply Z.pow_lt_mono_r_iff in H; lia. }
  (* the quotient *)
  destruct (div_finite_remainder m1 m2 (ka - 53) (kb - 53))
    as (q & e' & l & Hdiv & He' & Hq0 & Hq).
  rewrite Hdiv. clear Hdiv. rewrite Hd1, Hd2 in He'.
  assert (He'v : e' = ka - kb - 53) by (unfold fexp, emin, prec, emax in He'; lia).
  clear He'. subst e'.
  replace (ka - 53 - (kb - 53) - (ka - kb - 53)) with 53 in Hq by lia.
  change (2 ^ 53) with 9007199254740992 in Hq.
  pose proof (digits2_pos_bounds m1) as [Hm1lo Hm1hi]. rewrite Hd1 in Hm1lo, Hm1hi.
  pose proof (digits2_pos_bounds m2) as [Hm2lo Hm2hi]. rewrite Hd2 in Hm2lo, Hm2hi.
  change (2 ^ (53 - 1)) with 4503599627370496 in *.
  change (2 ^ 53) with 9007199254740992 in *.
  destruct (round_quotient false q (ka - kb - 53) l)
    as (m & k & Hres & Hk2 & Hr1 & Hr2 & Hcan).
  { change (2 ^ 52) with 4503599627370496. change (2 ^ 54) with 18014398509481984. nia. }
  { lia. }
  rewrite Hres. clear Hres.
  change (2 ^ 52) with 4503599627370496 in Hcan.
  change (2 ^ 53) with 9007199254740992 in Hcan.
  (* the product *)
  unfold mul, SFmul. cbn [xorb].
  set (P := Z.pos (m * 7036874417766400)).
  assert (HP : P = Z.pos m * 7036874417766400) by reflexivity.
  assert (HPd : exists d, 105 <= d <= 106 /\ 2 ^ (d - 1) <= P < 2 ^ d).
  { destruct (Z.lt_ge_cases P (2 ^ 105)) as [Hlt|Hge].
    - exists 105. split; [lia|]. split; [|exact Hlt].
      change (2 ^ (105 - 1)) with 20282409603651670423947251286016. lia.
    - exists 106. split; [lia|]. split; [exact Hge|].
      change (2 ^ 106) with 81129638414606681695789005144064. lia. }
  destruct HPd as (d & Hd & HPrange).
  destruct (round_digits false P (ka - kb - 53 + k + -46) loc_Exact d)
    as (m' & k2 & Hres & Hk2' & Hp1 & Hp2 & _); [lia|exact HPrange|lia|].
  rewrite Hres. clear Hres.
  destruct (Math_round_half m' (ka - kb - 53 + k + -46 + k2) ltac:(lia)) as [Ht1 Ht2].
  set (E := Math_round (S754_finite false m' (ka - kb - 53 + k + -46 + k2))) in *.
  (* the powers of two *)
  replace (53 - ka) with ((kb - ka) + (53 - kb)) in Hm1 by lia.
  rewrite Z.pow_add_r in Hm1 by lia.
  assert (HB : 0 < 2 ^ (53 - kb)) by (apply Z.pow_pos_nonneg; lia).
  assert (HG : 1 <= 2 ^ (kb - ka)).
  { assert (0 < 2 ^ (kb - ka)) by (apply Z.pow_pos_nonneg; lia). lia. }
  assert (HK : 1 <= 2 ^ k <= 4).
  { assert (0 < 2 ^ k) by (apply Z.pow_pos_nonneg; lia).
    assert (2 ^ k <= 2 ^ 2) by (apply Z.pow_le_mono_r; lia).
    change (2 ^ 2) with 4 in *. lia. }
  assert (HK2 : 1 <= 2 ^ k2 <= 18014398509481984).
  { assert (0 < 2 ^ k2) by (apply Z.pow_pos_nonneg; lia).
    assert (2 ^ k2 <= 2 ^ 54) by (apply Z.pow_le_mono_r; lia).
    change (2 ^ 54) with 18014398509481984 in *. lia. }
  assert (HNd : 1 <= 2 ^ (d - 53) <= 9007199254740992).
  { assert (0 < 2 ^ (d - 53)) by (apply Z.pow_pos_nonneg; lia).
    assert (2 ^ (d - 53) <= 2 ^ 53) by (apply Z.pow_le_mono_r; lia).
    change (2 ^ 53) with 9007199254740992 in *. lia. }
  assert (HW : 2 ^ (- (ka - kb - 53 + k + -46 + k2)) * (2 ^ k * 2 ^ k2)
               = 2 ^ (kb - ka) * 633825300114114700748351602688).
  { change 633825300114114700748351602688 with (2 ^ 99).
    rewrite <- !Z.pow_add_r by lia. f_equal. lia. }
  assert (HT : 0 < 2 ^ (- (ka - kb - 53 + k + -46 + k2))) by (apply Z.pow_pos_nonneg; lia).
  set (B := 2 ^ (53 - kb)) in *. set (G := 2 ^ (kb - ka)) in *.
  set (K := 2 ^ k) in *. set (K2 := 2 ^ k2) in *. set (N := 2 ^ (d - 53)) in *.
  set (T := 2 ^ (- (ka - kb - 53 + k + -46 + k2))) in *.
  set (A := Z.pos a) in *. set (Bz := Z.pos b) in *.
  set (M := Z.pos m) in *. set (M' := Z.pos m') in *.
  assert (HA : 0 < A) by (subst A; lia).
  assert (HM' : 0 < M') by (subst M'; lia).
  clearbody B G K K2 N T A Bz M M' E P.
  subst P. rewrite Hm1, Hm2 in Hq. clear Hm1 Hm2 Hm1lo Hm1hi Hm2lo Hm2hi Hd1 Hd2.
  clear Hof1 Hof2 HPrange Hka Hkb Halo Hbhi Hkk Hkb36 Hk2 Hk2' Hd.
  (* the division, without the scale of the divisor *)
  destruct Hq as [Hq1 Hq2].
  assert (Hd1 : q * Bz <= A * G * 9007199254740992).
  { assert (H : B * (q * Bz) <= B * (A * G * 9007199254740992)) by lia.
    apply Z.mul_le_mono_pos_l in H; lia. }
  assert (Hd2 : A * G * 9007199254740992 < (q + 1) * Bz).
  { assert (H : B * (A * G * 9007199254740992) < B * ((q + 1) * Bz)) by lia.
    apply Z.mul_lt_mono_pos_l in H; lia. }
  clear Hq1 Hq2 HB B.
  set (W := G * 633825300114114700748351602688) in *.
  assert (HWlo : 633825300114114700748351602688 <= W) by (subst W; lia).
  assert (Hc : A * G * 9007199254740992 * 7036874417766400 = 100 * A * W)
    by (subst W; lia).
  clearbody W.
  split.
  - (* from above *)
    (* K2 * M' * K * Bz <= 100 * A * W + 2 * c * Bz + N * K * Bz *)
    assert (S1 : K2 * M' * (K * Bz) <= (M * 7036874417766400 + N) * (K * Bz))
      by (apply Z.mul_le_mono_nonneg_r; lia).
    assert (S2 : K * M * (7036874417766400 * Bz) <= (q + 2) * (7036874417766400 * Bz))
      by (apply Z.mul_le_mono_nonneg_r; lia).
    assert (S3 : q * Bz * 7036874417766400 <= A * G * 9007199254740992 * 7036874417766400)
      by (apply Z.mul_le_mono_nonneg_r; lia).
    assert (S4 : N * (K * Bz) <= 9007199254740992 * (4 * Bz)).
    { assert (H : K * Bz <= 4 * Bz) by (apply Z.mul_le_mono_nonneg_r; lia).
      apply Z.mul_le_mono_nonneg; nia. }
    assert (S5 : 2 * E * T * (Bz * (K * K2)) <= (2 * M' + T) * (Bz * (K * K2))).
    { apply Z.mul_le_mono_nonneg_r; [|exact Ht1]. nia. }
    assert (S6 : (2 * Bz * E - 200 * A - Bz) * W <= 4 * 7036874417766400 * Bz
                                                   + 2 * (9007199254740992 * (4 * Bz))).
    { replace (2 * E * T * (Bz * (K * K2))) with (2 * Bz * E * (T * (K * K2))) in S5 by ring.
      replace ((2 * M' + T) * (Bz * (K * K2)))
        with (2 * (K2 * M' * (K * Bz)) + Bz * (T * (K * K2))) in S5 by ring.
      rewrite HW in S5. rewrite Hc in S3.
      replace ((M * 7036874417766400 + N) * (K * Bz))
        with (K * M * (7036874417766400 * Bz) + N * (K * Bz)) in S1 by ring.
      replace ((q + 2) * (7036874417766400 * Bz))
        with (q * Bz * 7036874417766400 + 2 * 7036874417766400 * Bz) in S2 by ring.
      clear - S1 S2 S3 S4 S5. lia. }
    destruct (Z.le_gt_cases (2 * Bz * E - Bz) (200 * A)) as [Hok|Hbad]; [exact Hok|exfalso].
    assert (S7 : 1 * W <= (2 * Bz * E - 200 * A - Bz) * W)
      by (apply Z.mul_le_mono_nonneg_r; lia).
    clear - S6 S7 HWlo Hb. lia.
  - (* from below *)
    assert (S1 : M * 7036874417766400 * (K * Bz) <= (K2 * (M' + 1) - 1) * (K * Bz))
      by (apply Z.mul_le_mono_nonneg_r; lia).
    assert (S2 : (q + 1) * (7036874417766400 * Bz) <= (K * M + K) * (7036874417766400 * Bz))
      by (apply Z.mul_le_mono_nonneg_r; lia).
    assert (S3 : A * G * 9007199254740992 * 7036874417766400
                 <= ((q + 1) * Bz - 1) * 7036874417766400)
      by (apply Z.mul_le_mono_nonneg_r; lia).
    assert (S4 : K * K2 <= 4 * 18014398509481984)
      by (apply Z.mul_le_mono_nonneg; lia).
    assert (S4' : K * K2 * Bz <= 4 * 18014398509481984 * Bz)
      by (apply Z.mul_le_mono_nonneg_r; lia).
    assert (S4'' : K * (7036874417766400 * Bz) <= 4 * (7036874417766400 * Bz))
      by (apply Z.mul_le_mono_nonneg_r; lia).
    assert (S5 : (2 * M' + T + 1) * (Bz * (K * K2)) <= 2 * (E + 1) * T * (Bz * (K * K2))).
    { apply Z.mul_le_mono_nonneg_r; [nia|lia]. }
    assert (S6 : (200 * A - 2 * Bz * E - Bz) * W
                 <= 2 * (4 * 18014398509481984 * Bz) + 2 * (4 * (7036874417766400 * Bz))).
    { replace (2 * (E + 1) * T * (Bz * (K * K2)))
        with (2 * Bz * E * (T * (K * K2)) + 2 * Bz * (T * (K * K2))) in S5 by ring.
      replace ((2 * M' + T + 1) * (Bz * (K * K2)))
        with (2 * (K2 * M' * (K * Bz)) + Bz * (T * (K * K2)) + K * K2 * Bz) in S5 by ring.
      rewrite HW in S5. rewrite Hc in S3.
      replace ((K2 * (M' + 1) - 1) * (K * Bz))
        with (K2 * M' * (K * Bz) + K * K2 * Bz - K * Bz) in S1 by ring.
      replace (M * 7036874417766400 * (K * Bz))
        with (K * M * (7036874417766400 * Bz)) in S1 by ring.
      replace ((K * M + K) * (7036874417766400 * Bz))
        with (K * M * (7036874417766400 * Bz) + K * (7036874417766400 * Bz)) in S2 by ring.
      replace (((q + 1) * Bz - 1) * 7036874417766400)
        with ((q + 1) * (7036874417766400 * Bz) - 7036874417766400) in S3 by ring.
      clear - S1 S2 S3 S4' S4'' S5 HK Hb. lia. }
    destruct (Z.le_gt_cases (200 * A) (2 * Bz * E + Bz)) as [Hok|Hbad]; [exact Hok|exfalso].
    assert (S7 : 1 * W <= (200 * A - 2 * Bz * E - Bz) * W)
      by (apply Z.mul_le_mono_nonneg_r; lia).
    clear - S6 S7 HWlo Hb. lia.
Qed.

End Binary64PercentNearest.

(** ** Elapsed minutes *)

(** Between two values of [Date.now()], integers below 2^53, the
    difference is exact. *)
Lemma elapsedMinutes_exact (now start : Z) :
  0 <= start <= now -> now < 2 ^ 53 ->
  elapsedMinutes now start =
  Number.Math_round (Number.div (Number.of_Z (now - start)) (Number.of_Z 60000)).
Proof.
  intros Hle Hnow. unfold elapsedMinutes. now rewrite sub_of_Z.
Qed.

Lemma elapsedMinutes_nonneg (now start : Z) :
  0 <= start <= now -> now < 2 ^ 53 -> 0 <= elapsedMinutes now start.
Proof.
  intros Hle Hnow. rewrite elapsedMinutes_exact by assumption.
  apply Math_round_nonneg, div_nonneg.
  - apply of_Z_nonneg. lia.
  - reflexivity.
Qed.

Lemma elapsedMinutes_short (now start : Z) :
  0 <= start <= now -> now < 2 ^ 53 ->
  now - start < 30000 -> elapsedMinutes now start = 0.
Proof.
  intros Hle Hnow H. rewrite elapsedMinutes_exact by assumption.
  apply Math_round_div_60000_small. lia.
Qed.

Lemma elapsedMinutes_nearest (now start : Z) :
  0 <= start <= now -> now < 2 ^ 53 -> now - start < 2 ^ 51 ->
  (now - start) - 30000 <= 60000 * elapsedMinutes now start <= (now - start) + 30000.
Proof.
  intros Hle Hnow H. rewrite elapsedMinutes_exact by assumption.
  apply Math_round_div_60000_nearest. lia.
Qed.

Lemma or_zero_id (x : Z) : or_zero x = x.
Proof.
  unfold or_zero. destruct (x =? 0) eqn:E; [|reflexivity].
  apply Z.eqb_eq in E. now subst.
Qed.

(** ** endSession *)

Lemma elapsedMinutes_from_half (now start : Z) :
  0 <= start <= now -> now < 2 ^ 53 ->
  30000 <= now - start < 2 ^ 51 -> 1 <= elapsedMinutes now start.
Proof.
  intros Hle Hnow H.
  pose proof (elapsedMinutes_nearest now start Hle Hnow ltac:(lia)) as [Hlo _].
  rewrite elapsedMinutes_exact in * by assumption.
  destruct (Z.eq_dec (now - start) 30000) as [->|Hne]; [vm_compute; discriminate|].
  lia.
Qed.

Lemma C7_counterexample :
  45000 - 0 < 60000 /\ elapsedMinutes 45000 0 = 1 /\
  ~ endSessionClaim adaDashboard opticsModule 0 45000 /\
  (exists p',
      profile (handleEndSession 60000 (handleSelectModule opticsModule 0 veteranDashboard))
        = Some p' /\
      elapsedMinutes 60000 0 = 1 /\
      timeSpentMinutes (performance p') = 9007199254740992) /\
  ~ endSessionClaim veteranDashboard opticsModule 0 60000.
Proof.
  split; [lia|]. split; [reflexivity|]. split; [|split].
  - intros [Hshort _]. specialize (Hshort ltac:(lia)). vm_compute in Hshort. discriminate.
  - eexists. split; [reflexivity|]. split; reflexivity.
  - intros [_ Hsum].
    specialize (Hsum _ _ eq_refl eq_refl). vm_compute in Hsum. discriminate.
Qed.

(** C7, as the code has it.  For a tutoring session that [selectModule]
    started at [t0] and that ends at [t1], not before [t0] (both are
    values of [Date.now()], integers from 0 to below 2^53): [endSession]
    adds Math.round((t1 - t0) / 60000) to [timeSpentMinutes].  That number
    of minutes is a non-negative integer; it is 0 for every session
    shorter than half a minute and at least 1 from half a minute on, so
    that 45 seconds count as a minute.  The addition is the one of
    binary64: the new total is the old one plus the minutes as long as
    it stays below 2^53.  Nothing is written to the store, and the view
    becomes Feedback. *)
Theorem C7_endSession_adds_elapsed_minutes :
  forall (st : AppState) (p : UserProfile) (m : Mod.t) (t0 t1 : Z),
    profile st = Some p ->
    0 <= t0 <= t1 ->
    t1 < 2 ^ 53 ->
    let started := handleSelectModule m t0 st in
    let ended := handleEndSession t1 started in
    let elapsed :=
      Number.Math_round (Number.div (Number.of_Z (t1 - t0)) (Number.of_Z 60000)) in
    view started = TUTORING /\ sessionStartTime started = t0 /\
    0 <= elapsed /\
    (t1 - t0 < 30000 -> elapsed = 0) /\
    (30000 <= t1 - t0 < 2 ^ 51 -> 1 <= elapsed) /\
    (exists p',
        profile ended = Some p' /\
        p' = with_timeSpentMinutes
               (Number.plus (timeSpentMinutes (performance p)) elapsed) p /\
        (0 <= timeSpentMinutes (performance p) ->
         timeSpentMinutes (performance p) + elapsed < 2 ^ 53 ->
         timeSpentMinutes (performance p') = timeSpentMinutes (performance p) + elapsed)) /\
    localStorage ended = localStorage st /\
    view ended = FEEDBACK.
Proof.
  intros st p m t0 t1 Hp Ht Hnow. cbn zeta.
  rewrite <- (elapsedMinutes_exact t1 t0 Ht Hnow).
  split; [reflexivity|]. split; [reflexivity|].
  split; [exact (elapsedMinutes_nonneg t1 t0 Ht Hnow)|].
  split; [exact (elapsedMinutes_short t1 t0 Ht Hnow)|].
  split; [exact (elapsedMinutes_from_half t1 t0 Ht Hnow)|].
  unfold handleEndSession, handleSelectModule. setters. rewrite Hp. setters.
  rewrite or_zero_id.
  split; [|split; reflexivity].
  eexists. split; [reflexivity|]. split; [reflexivity|].
  intros Hold Hsum. cbn [performance timeSpentMinutes with_timeSpentMinutes].
  apply plus_exact; [exact Hold| |exact Hsum].
  exact (elapsedMinutes_nonneg t1 t0 Ht Hnow).
Qed.

Lemma C7_witness :
  exists p',
    profile (handleEndSession 151000 (handleSelectModule opticsModule 1000 adaDashboard))
      = Some p' /\
    timeSpentMinutes (performance p') = 0 + 3.
Proof.
  destruct (C7_endSession_adds_elapsed_minutes adaDashboard adaProfile opticsModule
              1000 151000 eq_refl ltac:(lia) ltac:(cbn; lia))
    as (_ & _ & _ & _ & _ & (p' & Hp' & _ & Htime) & _).
  exists p'. split; [exact Hp'|]. apply Htime; [cbn; lia|vm_compute; reflexivity].
Defined.

(** Two and a half minutes round up, twenty seconds round to nothing. *)
Example elapsedMinutes_150s : elapsedMinutes 151000 1000 = 3.
Proof. reflexivity. Qed.

Example elapsedMinutes_30s : elapsedMinutes 31000 1000 = 1.
Proof. reflexivity. Qed.

(** ** QuizView *)

Lemma countCorrect_nil_l (l : list QuizQuestion) : countCorrect [] l = 0.
Proof. reflexivity. Qed.

Lemma countCorrect_cons (a : Z) (q : QuizQuestion) (recorded : list Z)
    (l : list QuizQuestion) :
  countCorrect (a :: recorded) (q :: l) =
  (if a =? correctAnswer q then 1 else 0) + countCorrect recorded l.
Proof.
  unfold countCorrect. cbn [combine filter fst snd].
  destruct (a =? correctAnswer q); cbn [List.length]; lia.
Qed.

Lemma countCorrect_bounds (recorded : list Z) (l : list QuizQuestion) :
  0 <= countCorrect recorded l <= Z.of_nat (List.length recorded).
Proof.
  unfold countCorrect. split; [lia|].
  apply Nat2Z.inj_le.
  etransitivity; [apply filter_length_le|].
  rewrite length_combine. lia.
Qed.

Lemma countCorrect_all (l : list QuizQuestion) :
  countCorrect (map correctAnswer l) l = Z.of_nat (List.length l).
Proof.
  induction l as [|q l IH]; [reflexivity|].
  cbn [map]. rewrite countCorrect_cons, IH, Z.eqb_refl. cbn [List.length]. lia.
Qed.

Lemma skipn_nth_error {A : Type} (l : list A) :
  forall (i : nat) (x : A), nth_error l i = Some x -> skipn i l = x :: skipn (S i) l.
Proof.
  induction l as [|y l IH]; intros [|i] x Hx; simpl in *; try discriminate.
  - now inversion Hx.
  - now apply IH.
Qed.

Section QuizViewFacts.

Variable quiz : Quiz.t.

(** The reducer of [handleNext] counts the matching positions, and reads
    no question beyond the last as long as there are no more answers than
    questions. *)
Lemma reduceScore_counts (recorded : list Z) :
  forall (i : nat) (acc : Z),
    (i + List.length recorded <= List.length (Quiz.questions quiz))%nat ->
    reduceScore (Quiz.questions quiz) i recorded acc =
    Some (acc + countCorrect recorded (skipn i (Quiz.questions quiz))).
Proof.
  induction recorded as [|a rest IH]; intros i acc Hlen; simpl.
  - rewrite countCorrect_nil_l. f_equal. lia.
  - simpl in Hlen.
    destruct (nth_error (Quiz.questions quiz) i) as [q|] eqn:Hq.
    + rewrite (skipn_nth_error _ i q Hq), countCorrect_cons, IH by lia.
      f_equal. destruct (a =? correctAnswer q); lia.
    + apply nth_error_None in Hq. lia.
Qed.

Lemma quizReachable_invariant (s : QuizViewState) :
  Quiz.questions quiz <> [] -> quizReachable quiz s -> quizInvariant quiz s.
Proof.
  intros Hne Hreach.
  induction Hreach as [|s q i Hr IH Hshow Hq Hi|s s' Hr IH Hshow Hnext
                       |s s' score total Hr IH Hshow Hnext]; unfold quizInvariant in *.
  - intros _. simpl. split; [reflexivity|].
    destruct (Quiz.questions quiz); [contradiction|simpl; lia].
  - simpl. auto.
  - specialize (IH Hshow) as [Hlen Hidx].
    unfold handleNext in Hnext.
    destruct (selected s) as [sel|]; [|discriminate].
    destruct (currentIdx s <? Z.of_nat (List.length (Quiz.questions quiz)) - 1) eqn:Hlt.
    + inversion Hnext; subst s'; clear Hnext. simpl. intros _.
      apply Z.ltb_lt in Hlt. rewrite length_app. simpl. lia.
    + destruct (reduceScore (Quiz.questions quiz) 0 (answers s ++ [sel]) 0); discriminate.
  - unfold handleNext in Hnext.
    destruct (selected s) as [sel|]; [|discriminate].
    destruct (currentIdx s <? Z.of_nat (List.length (Quiz.questions quiz)) - 1);
      [discriminate|].
    destruct (reduceScore (Quiz.questions quiz) 0 (answers s ++ [sel]) 0); [|discriminate].
    inversion Hnext; subst s'. simpl. discriminate.
Qed.

(** What [handleNext] does on the last question. *)
Lemma handleNext_last (s : QuizViewState) (sel : Z) :
  selected s = Some sel ->
  Z.of_nat (List.length (answers s)) = currentIdx s ->
  currentIdx s = Z.of_nat (List.length (Quiz.questions quiz)) - 1 ->
  handleNext quiz s =
  NextCompleted {| currentIdx := currentIdx s; answers := answers s ++ [sel];
                   showResult := true; selected := None |}
                (countCorrect (answers s ++ [sel]) (Quiz.questions quiz))
                (Z.of_nat (List.length (Quiz.questions quiz))).
Proof.
  intros Hsel Hlen Hidx. unfold handleNext. rewrite Hsel.
  replace (currentIdx s <? Z.of_nat (List.length (Quiz.questions quiz)) - 1) with false
    by (symmetry; apply Z.ltb_ge; lia).
  rewrite reduceScore_counts.
  - reflexivity.
  - rewrite length_app. simpl. lia.
Qed.

(** A sitting that gives as many answers as there are questions ends in
    the call of [onComplete] with the count of the matching answers. *)
Lemma sitQuiz_completes (given : list Z) :
  forall s : QuizViewState,
    given <> [] ->
    (List.length (answers s) + List.length given)%nat = List.length (Quiz.questions quiz) ->
    Z.of_nat (List.length (answers s)) = currentIdx s ->
    sitQuiz quiz given s =
    Some (countCorrect (answers s ++ given) (Quiz.questions quiz),
          Z.of_nat (List.length (Quiz.questions quiz))).
Proof.
  induction given as [|a rest IH]; intros s Hne Hlen Hidx; [contradiction|].
  simpl in Hlen. cbn [sitQuiz].
  destruct rest as [|b rest'].
  - rewrite (handleNext_last (setSelected a s) a).
    + reflexivity.
    + reflexivity.
    + exact Hidx.
    + cbn [currentIdx setSelected]. simpl in Hlen. lia.
  - unfold handleNext. cbn [selected setSelected currentIdx answers showResult].
    replace (currentIdx s <? Z.of_nat (List.length (Quiz.questions quiz)) - 1) with true
      by (symmetry; apply Z.ltb_lt; simpl in Hlen; lia).
    rewrite IH.
    + cbn [answers]. now rewrite <- app_assoc.
    + discriminate.
    + cbn [answers]. rewrite length_app. simpl in *. lia.
    + cbn [answers currentIdx]. rewrite length_app. simpl. lia.
Qed.

End QuizViewFacts.

(** C8. For every quiz with at least one question, a call of [handleNext]
    in a state that clicks can reach never throws, and when it completes
    the quiz it calls [onComplete] with [total] the number of questions
    and [score] the number of positions at which the recorded answer is
    that question's [correctAnswer], so that 0 <= score <= total; a
    sitting that answers each question does reach that call. *)
Theorem C8_quiz_score_counts_matches :
  forall (quiz : Quiz.t) (s : QuizViewState),
    Quiz.questions quiz <> [] ->
    quizReachable quiz s ->
    showResult s = false ->
    (forall e, handleNext quiz s <> NextThrew e) /\
    (forall s' score total,
        handleNext quiz s = NextCompleted s' score total ->
        total = Z.of_nat (List.length (Quiz.questions quiz)) /\
        List.length (answers s') = List.length (Quiz.questions quiz) /\
        score = countCorrect (answers s') (Quiz.questions quiz) /\
        0 <= score <= total) /\
    (forall given,
        List.length given = List.length (Quiz.questions quiz) ->
        sitQuiz quiz given initialQuizView =
        Some (countCorrect given (Quiz.questions quiz),
              Z.of_nat (List.length (Quiz.questions quiz)))).
Proof.
  intros quiz s Hne Hreach Hshow.
  destruct (quizReachable_invariant quiz s Hne Hreach Hshow) as [Hlen Hidx].
  assert (Hcases : selected s = None
                   \/ (currentIdx s <? Z.of_nat (List.length (Quiz.questions quiz)) - 1) = true
                   \/ exists sel, selected s = Some sel /\
                        currentIdx s = Z.of_nat (List.length (Quiz.questions quiz)) - 1).
  { destruct (selected s) as [sel|]; [|now left]. right.
    destruct (currentIdx s <? _ - 1) eqn:E; [now left|right].
    exists sel. split; [reflexivity|]. apply Z.ltb_ge in E. lia. }
  split; [|split].
  - intros e. destruct Hcases as [Hn|[Hlt|(sel & Hsel & Hlast)]].
    + unfold handleNext. rewrite Hn. discriminate.
    + unfold handleNext. destruct (selected s); [|discriminate].
      rewrite Hlt. discriminate.
    + rewrite (handleNext_last quiz s sel Hsel Hlen Hlast). discriminate.
  - intros s' score total Hnext.
    destruct Hcases as [Hn|[Hlt|(sel & Hsel & Hlast)]].
    + unfold handleNext in Hnext. rewrite Hn in Hnext. discriminate.
    + unfold handleNext in Hnext. destruct (selected s); [|discriminate].
      rewrite Hlt in Hnext. discriminate.
    + rewrite (handleNext_last quiz s sel Hsel Hlen Hlast) in Hnext.
      inversion Hnext; subst s' score total; clear Hnext.
      cbn [answers].
      assert (Hl : List.length (answers s ++ [sel]) = List.length (Quiz.questions quiz)).
      { rewrite length_app. simpl. lia. }
      pose proof (countCorrect_bounds (answers s ++ [sel]) (Quiz.questions quiz)) as B.
      rewrite Hl in B. auto.
  - intros given Hgiven.
    rewrite (sitQuiz_completes quiz given initialQuizView); auto.
    intros ->. destruct (Quiz.questions quiz); [contradiction|discriminate].
Qed.

Lemma C8_witness :
  exists s' score total,
    handleNext oneQuestionQuiz (setSelected 0 initialQuizView) = NextCompleted s' score total /\
    score = countCorrect (answers s') (Quiz.questions oneQuestionQuiz) /\
    0 <= score <= total.
Proof.
  assert (Hne : Quiz.questions oneQuestionQuiz <> []) by discriminate.
  assert (Hreach : quizReachable oneQuestionQuiz (setSelected 0 initialQuizView)).
  { apply (quiz_select oneQuestionQuiz initialQuizView (yesNo "Q1" 0) 0).
    - apply quiz_init.
    - reflexivity.
    - reflexivity.
    - simpl. lia. }
  destruct (C8_quiz_score_counts_matches oneQuestionQuiz _ Hne Hreach eq_refl)
    as (_ & Hdone & _).
  eexists _, 1, 1. split; [reflexivity|].
  destruct (Hdone _ 1 1 eq_refl) as (_ & _ & Hscore & Hbound).
  split; assumption.
Defined.

(** ** handleQuizComplete *)

Lemma sumScores_bounds (scores : list Z) :
  Forall scoreOutOfFive scores ->
  0 <= sumScores scores <= Z.of_nat (List.length scores) * 5.
Proof.
  unfold sumScores, scoreOutOfFive.
  induction 1 as [|s l Hs _ IH]; cbn [fold_right List.length]; lia.
Qed.

Lemma sumScores_all_five (scores : list Z) :
  Forall (fun s => s = 5) scores -> sumScores scores = Z.of_nat (List.length scores) * 5.
Proof.
  unfold sumScores.
  induction 1 as [|s l Hs _ IH]; cbn [fold_right List.length]; lia.
Qed.

(** The scores of quizzes out of five add up without rounding: every
    partial sum is an integer far below 2^53. *)
Lemma reduceSum_exact (scores : list Z) :
  Forall scoreOutOfFive scores ->
  Z.of_nat (List.length scores) * 5 < 2 ^ 53 ->
  reduceSum scores = Number.of_Z (sumScores scores).
Proof.
  intros Hall Hlen. unfold reduceSum.
  assert (Hgen : forall acc,
             0 <= acc -> acc + Z.of_nat (List.length scores) * 5 < 2 ^ 53 ->
             fold_left (fun a b => Number.add a (Number.of_Z b)) scores (Number.of_Z acc)
             = Number.of_Z (acc + sumScores scores)).
  { clear Hlen. induction Hall as [|x l Hx Hl IH]; intros acc Hacc Hb.
    - cbn. f_equal. lia.
    - cbn [fold_left sumScores fold_right List.length] in *.
      unfold scoreOutOfFive in Hx.
      rewrite add_of_Z by lia.
      rewrite IH by lia. f_equal. unfold sumScores. lia. }
  rewrite (Hgen 0) by lia. f_equal.
Qed.

(** The accuracy stored is an integer within one half of the exact
    percentage 100 * sum / (5 * count). *)
Lemma avgAccuracy_nearest (scores : list Z) :
  scores <> [] ->
  Forall scoreOutOfFive scores ->
  Z.of_nat (List.length scores) < 2 ^ 32 ->
  2 * Z.of_nat (List.length scores) * avgAccuracy scores - Z.of_nat (List.length scores)
    <= 40 * sumScores scores /\
  40 * sumScores scores
    <= 2 * Z.of_nat (List.length scores) * avgAccuracy scores + Z.of_nat (List.length scores).
Proof.
  intros Hne Hall Hlen.
  pose proof (sumScores_bounds scores Hall) as Hsum.
  assert (Hpos : 0 < Z.of_nat (List.length scores)).
  { destruct scores; [contradiction|]. cbn [List.length]. lia. }
  change (2 ^ 32) with 4294967296 in Hlen.
  unfold avgAccuracy.
  rewrite reduceSum_exact by (exact Hall || (change (2 ^ 53) with 9007199254740992; lia)).
  rewrite mul_of_Z_5 by (change (2 ^ 53) with 9007199254740992; lia).
  destruct (percent_nearest (sumScores scores) (Z.of_nat (List.length scores) * 5))
    as [Hlo Hhi]; [lia|change (2 ^ 35) with 34359738368; lia|].
  set (r := Number.Math_round _) in *. clearbody r. lia.
Qed.

(** An integer within one half of the exact percentage is the spec's
    rounding of it, unless the percentage is a half-integer and the
    integer is the one below. *)
Lemma nearest_specAccuracy (scores : list Z) (r : Z) :
  scores <> [] ->
  2 * Z.of_nat (List.length scores) * r - Z.of_nat (List.length scores)
    <= 40 * sumScores scores ->
  40 * sumScores scores
    <= 2 * Z.of_nat (List.length scores) * r + Z.of_nat (List.length scores) ->
  r = specAccuracy scores \/
  (r = specAccuracy scores - 1 /\
   40 * sumScores scores = Z.of_nat (List.length scores) * (2 * r + 1)).
Proof.
  intros Hne Hlo Hhi. unfold specAccuracy. cbv zeta.
  assert (Hpos : 0 < Z.of_nat (List.length scores)).
  { destruct scores; [contradiction|]. cbn [List.length]. lia. }
  set (c := Z.of_nat (List.length scores)) in *. set (s := sumScores scores) in *.
  clearbody c s.
  assert (Hge : r <= (40 * s + c) / (2 * c)) by (apply Z.div_le_lower_bound; lia).
  destruct (Z.eq_dec (40 * s) (c * (2 * r + 1))) as [Heq|Hne'].
  - right. split; [|exact Heq].
    replace (40 * s + c) with ((r + 1) * (2 * c)) by lia.
    rewrite Z.div_mul by lia. lia.
  - left.
    assert (Hlt : (40 * s + c) / (2 * c) < r + 1) by (apply Z.div_lt_upper_bound; lia).
    lia.
Qed.

(** The three state variables that the guard of [handleQuizComplete]
    wants are there. *)
Lemma handleQuizComplete_guarded (score total : Z) (st : AppState)
    (path : LearningPath) (cm : Mod.t) (p : UserProfile) :
  learningPath st = Some path -> currentModule st = Some cm -> profile st = Some p ->
  let passed := passes score total in
  let newPath :=
    if passed then with_modules (map (complete_if_current cm) (modules path)) path
    else path in
  let newProfile := with_quiz_result score passed (Mod.title cm) p in
  let st' := handleQuizComplete score total st in
  profile st' = Some newProfile /\
  learningPath st' = Some newPath /\
  localStorage st' =
    {| edupal_profile := Some (Stringified newProfile);
       edupal_path := Some (Stringified newPath) |} /\
  view st' = view st /\ currentModule st' = currentModule st.
Proof.
  intros Hpath Hcm Hp. unfold handleQuizComplete. rewrite Hpath, Hcm, Hp.
  destruct (passes score total); cbn; rewrite ?Hpath, ?Hcm; auto.
Qed.

Lemma passes_5_5 : passes 5 5 = true.
Proof. vm_compute. reflexivity. Qed.

Lemma avgAccuracy_5_3 : avgAccuracy [5; 3] = 80.
Proof. vm_compute. reflexivity. Qed.

(** The threshold of 80 percent: four answers out of five pass, three do
    not. *)
Example passes_4_of_5 : passes 4 5 = true.
Proof. vm_compute. reflexivity. Qed.

Example passes_3_of_5 : passes 3 5 = false.
Proof. vm_compute. reflexivity. Qed.

(** The rounding is the one of binary64: 23/40 * 100 evaluates to
    57.49999999999999, which [Math.round] takes to 57. *)
Example avgAccuracy_23_of_40 : avgAccuracy [5; 5; 5; 5; 3; 0; 0; 0] = 57.
Proof. vm_compute. reflexivity. Qed.

(** C1. A five-question quiz answered with each question's
    [correctAnswer] is scored 5 out of 5 and passes; completing it
    replaces, in the module sequence of the path, the status of the
    current module by [completed] (every other module and the length of
    the sequence are kept) and appends exactly one entry, the module's
    title, to [completedTopics]. *)
Theorem C1_perfect_quiz_completes_module :
  forall (quiz : Quiz.t) (st : AppState) (path : LearningPath) (cm : Mod.t)
         (p : UserProfile),
    List.length (Quiz.questions quiz) = 5%nat ->
    learningPath st = Some path ->
    currentModule st = Some cm ->
    profile st = Some p ->
    sitQuiz quiz (map correctAnswer (Quiz.questions quiz)) initialQuizView = Some (5, 5) /\
    passes 5 5 = true /\
    (exists path',
        learningPath (handleQuizComplete 5 5 st) = Some path' /\
        List.length (modules path') = List.length (modules path) /\
        forall i m,
          nth_error (modules path) i = Some m ->
          exists m',
            nth_error (modules path') i = Some m' /\
            (Mod.id m = Mod.id cm ->
             m' = with_status_completed m /\ Mod.status m' = completed) /\
            (Mod.id m <> Mod.id cm -> m' = m)) /\
    (exists p',
        profile (handleQuizComplete 5 5 st) = Some p' /\
        completedTopics (performance p') =
          completedTopics (performance p) ++ [Mod.title cm] /\
        List.length (completedTopics (performance p')) =
          S (List.length (completedTopics (performance p)))).
Proof.
  intros quiz st path cm p Hfive Hpath Hcm Hp.
  destruct (handleQuizComplete_guarded 5 5 st path cm p Hpath Hcm Hp)
    as (Hp' & Hpath' & _).
  rewrite passes_5_5 in Hp', Hpath'.
  split; [|split; [|split]].
  - rewrite (sitQuiz_completes quiz _ initialQuizView).
    + cbn [answers initialQuizView app]. now rewrite countCorrect_all, Hfive.
    + destruct (Quiz.questions quiz); discriminate.
    + cbn [answers initialQuizView List.length]. now rewrite length_map.
    + reflexivity.
  - exact passes_5_5.
  - eexists. split; [exact Hpath'|]. cbn [modules with_modules].
    split; [apply length_map|].
    intros i m Hm. exists (complete_if_current cm m).
    split; [now apply map_nth_error|].
    unfold complete_if_current.
    split.
    + intros Hid. rewrite Hid, String.eqb_refl. now split.
    + intros Hid. apply String.eqb_neq in Hid. now rewrite Hid.
  - eexists. split; [exact Hp'|]. cbn [performance completedTopics with_quiz_result].
    split; [reflexivity|]. rewrite length_app. cbn [List.length]. lia.
Qed.

Lemma C1_witness :
  sitQuiz opticsQuiz (map correctAnswer (Quiz.questions opticsQuiz)) initialQuizView
    = Some (5, 5) /\
  exists p',
    profile (handleQuizComplete 5 5 adaDashboard) = Some p' /\
    completedTopics (performance p') = [] ++ ["Lenses"].
Proof.
  destruct (C1_perfect_quiz_completes_module opticsQuiz adaDashboard opticsPath
              opticsModule adaProfile eq_refl eq_refl eq_refl eq_refl)
    as (Hsit & _ & _ & p' & Hp' & Htopics & _).
  split; [exact Hsit|]. exists p'. split; [exact Hp'|exact Htopics].
Defined.

(** The exact percentage of 23 out of 40 is 57.5, which the spec's
    rounding takes to 58. *)
Example specAccuracy_23_of_40 : specAccuracy [5; 5; 5; 5; 3; 0; 0; 0] = 58.
Proof. reflexivity. Qed.

Lemma C3_counterexample :
  (exists p',
      profile (handleQuizComplete 0 5 adaAfterSevenQuizzes) = Some p' /\
      quizScores (performance p') = [5; 5; 5; 5; 3; 0; 0; 0] /\
      averageAccuracy (performance p') = 57 /\
      specAccuracy (quizScores (performance p')) = 58) /\
  ~ accuracyClaim 0 5 adaAfterSevenQuizzes.
Proof.
  split.
  - eexists. split; [reflexivity|]. split; [reflexivity|]. split; vm_compute; reflexivity.
  - intros Hclaim. specialize (Hclaim _ eq_refl). vm_compute in Hclaim. discriminate.
Qed.

(** C3, as the code has it.  Completing a quiz appends the score to
    [quizScores] and sets [averageAccuracy] to
    Math.round(sum / (count * 5) * 100), evaluated in binary64, over the
    updated sequence.  For scores between 0 and 5 that is an integer
    within one half of the exact percentage: the rounding of the spec's
    formula, except that a percentage that is exactly a half-integer may
    be rounded down (57 for 23 out of 40).  It is 80 for the sequence
    5, 3.  The value is written nowhere else: the other handlers that act
    on the profile keep it, and the onboarding installs the profile of the
    form as it is (with the initial 0 of the form). *)
Theorem C3_averageAccuracy_recomputed :
  forall (score total : Z) (st : AppState) (path : LearningPath) (cm : Mod.t)
         (p : UserProfile),
    learningPath st = Some path ->
    currentModule st = Some cm ->
    profile st = Some p ->
    (exists p',
        profile (handleQuizComplete score total st) = Some p' /\
        quizScores (performance p') = quizScores (performance p) ++ [score] /\
        averageAccuracy (performance p') = avgAccuracy (quizScores (performance p')) /\
        (Forall scoreOutOfFive (quizScores (performance p')) ->
         Z.of_nat (List.length (quizScores (performance p'))) < 2 ^ 32 ->
         let count := Z.of_nat (List.length (quizScores (performance p'))) in
         let sum := sumScores (quizScores (performance p')) in
         let accuracy := averageAccuracy (performance p') in
         2 * count * accuracy - count <= 40 * sum <= 2 * count * accuracy + count /\
         (accuracy = specAccuracy (quizScores (performance p')) \/
          (accuracy = specAccuracy (quizScores (performance p')) - 1 /\
           40 * sum = count * (2 * accuracy + 1))))) /\
    avgAccuracy [5; 3] = 80 /\ specAccuracy [5; 3] = 80 /\
    (forall now, accuracyOf (handleEndSession now st) = accuracyOf st) /\
    (forall feedback, accuracyOf (submitFeedback feedback st) = accuracyOf st) /\
    (forall svc newTopic, accuracyOf (handleSelectSuggested svc newTopic st) = accuracyOf st) /\
    (forall m now, accuracyOf (handleSelectModule m now st) = accuracyOf st) /\
    (forall svc, accuracyOf (startQuiz svc st) = accuracyOf st) /\
    accuracyOf (handleLogoClick st) = accuracyOf st /\
    (forall svc userData,
        accuracyOf (handleOnboardingComplete svc userData st) =
        Some (averageAccuracy (performance userData))).
Proof.
  intros score total st path cm p Hpath Hcm Hp.
  destruct (handleQuizComplete_guarded score total st path cm p Hpath Hcm Hp)
    as (Hp' & _).
  split.
  { eexists. split; [exact Hp'|].
    cbn [performance quizScores averageAccuracy with_quiz_result].
    split; [reflexivity|]. split; [reflexivity|].
    intros Hall Hlen. cbv zeta.
    assert (Hne : quizScores (performance p) ++ [score] <> [])
      by (destruct (quizScores (performance p)); discriminate).
    destruct (avgAccuracy_nearest _ Hne Hall Hlen) as [Hlo Hhi].
    split; [split; assumption|].
    now apply nearest_specAccuracy. }
  split; [exact avgAccuracy_5_3|]. split; [reflexivity|].
  unfold accuracyOf.
  split; [|split; [|split; [|split; [|split; [|split]]]]].
  - intros now. unfold handleEndSession. rewrite Hp. reflexivity.
  - intros feedback. unfold submitFeedback. rewrite Hp, Hpath. reflexivity.
  - intros svc newTopic. unfold handleSelectSuggested. rewrite Hp.
    destruct (svc_generateLearningPath svc (with_topic newTopic p)) as [newPath|e];
      [|reflexivity].
    unfold loadSuggestions_detached, loadSuggestions.
    destruct (svc_getRelatedCourseSuggestions svc (with_topic newTopic p)); reflexivity.
  - intros m now. reflexivity.
  - intros svc. unfold startQuiz. rewrite Hp, Hcm.
    destruct (svc_generateQuiz svc p (Mod.title cm)); setters; now rewrite Hp.
  - unfold handleLogoClick. rewrite Hp. setters. now rewrite Hp.
  - intros svc userData. unfold handleOnboardingComplete.
    destruct (svc_generateLearningPath svc userData) as [newPath|e]; [|reflexivity].
    unfold loadSuggestions.
    destruct (svc_getRelatedCourseSuggestions svc userData); reflexivity.
Qed.

Lemma C3_witness :
  exists p',
    profile (handleQuizComplete 3 5 (handleQuizComplete 5 5 adaDashboard)) = Some p' /\
    quizScores (performance p') = [5; 3] /\
    averageAccuracy (performance p') = 80 /\
    averageAccuracy (performance p') = specAccuracy (quizScores (performance p')).
Proof.
  destruct (C3_averageAccuracy_recomputed 3 5 (handleQuizComplete 5 5 adaDashboard)
              (with_modules (map (complete_if_current opticsModule) (modules opticsPath)) opticsPath)
              opticsModule
              (with_quiz_result 5 true "Lenses" adaProfile)
              eq_refl eq_refl eq_refl)
    as ((p' & Hp' & Hscores & Havg & _) & H80 & Hspec & _).
  exists p'. split; [exact Hp'|]. split; [exact Hscores|].
  rewrite Havg, Hscores. split; [exact H80|]. exact (eq_trans H80 (eq_sym Hspec)).
Defined.

(** ** OnboardingView *)

Lemma onboardingEvent_invariant (ev : OnboardingEvent) (s s' : OnboardingState)
    (out : option UserProfile) :
  onboardingInvariant s ->
  onboardingEvent ev s = Some (s', out) ->
  onboardingInvariant s'.
Proof.
  unfold onboardingInvariant, onboardingEvent.
  intros (Hperf & Hstep & H2 & H3) Hev.
  destruct ev;
    repeat match type of Hev with
           | (if ?c then _ else _) = _ => destruct c eqn:?; [|discriminate]
           | match ?c with Some _ => _ | None => _ end = _ =>
               destruct c eqn:?; [|discriminate]
           end;
    inversion Hev; subst s' out; clear Hev;
    cbn [step data setData setStep d_performance d_name d_classInfo d_subject d_topic
         set_d_name set_d_classInfo set_d_subject set_d_level set_d_topic
         set_d_language set_d_goal];
    repeat match goal with
           | H : (_ && _)%bool = true |- _ => apply andb_prop in H; destruct H
           | H : (_ || _)%bool = true |- _ => apply orb_prop in H
           | H : (_ =? _) = true |- _ => apply Z.eqb_eq in H
           end;
    (split; [assumption|]);
    (split; [lia|]);
    split; intros; try lia; auto; try (apply H2; lia); try (apply H3; lia).
Qed.

Lemma onboardingReachable_invariant (s : OnboardingState) :
  onboardingReachable s -> onboardingInvariant s.
Proof.
  induction 1 as [|s ev s' out _ IH Hev].
  - unfold onboardingInvariant. simpl. repeat split; intros; lia.
  - exact (onboardingEvent_invariant ev s s' out IH Hev).
Qed.

Lemma filled_nonempty (v : string) : filled (Some v) = true -> v <> EmptyString.
Proof.
  simpl. intros H ->. discriminate.
Qed.

(** On the third step the launch button always hands a profile over, and
    that profile has the four text fields filled in. *)
Lemma onboarding_launch_total (s : OnboardingState) :
  onboardingReachable s -> step s = 3 ->
  exists p, onboardingEvent ClickLaunch s = Some (s, Some p) /\ validDraft p.
Proof.
  intros Hreach Hstep.
  destruct (onboardingReachable_invariant s Hreach) as (_ & _ & H2 & H3).
  destruct H2 as (Hn & Hc & Hs); [lia|]. specialize (H3 ltac:(lia)).
  unfold onboardingEvent, as_UserProfile. rewrite Hstep. cbn [Z.eqb Pos.eqb].
  destruct (d_name (data s)) as [n|]; [|discriminate].
  destruct (d_classInfo (data s)) as [c|]; [|discriminate].
  destruct (d_subject (data s)) as [sb|]; [|discriminate].
  destruct (d_topic (data s)) as [t|]; [|discriminate].
  eexists. split; [reflexivity|].
  unfold validDraft. cbn [name classInfo subject topic].
  auto using filled_nonempty.
Qed.

Lemma runOnboarding_stuck (evs : list OnboardingEvent) :
  fold_left (fun acc ev => match acc with
                           | Some st => option_map fst (onboardingEvent ev st)
                           | None => None
                           end) evs None = None.
Proof.
  induction evs as [|ev evs IH]; [reflexivity|exact IH].
Qed.

Lemma runOnboarding_reachable (evs : list OnboardingEvent) :
  forall s s',
    onboardingReachable s ->
    runOnboarding evs s = Some s' ->
    onboardingReachable s'.
Proof.
  unfold runOnboarding.
  induction evs as [|ev evs IH]; intros s s' Hs Hrun; simpl in Hrun.
  - inversion Hrun; subst s'. exact Hs.
  - destruct (onboardingEvent ev s) as [[s1 out]|] eqn:Hev; simpl in Hrun.
    + apply (IH s1 s'); [|exact Hrun]. exact (onb_step s ev s1 out Hs Hev).
    + rewrite runOnboarding_stuck in Hrun. discriminate.
Qed.

Lemma filledOnboarding_reachable : onboardingReachable filledOnboarding.
Proof.
  apply (runOnboarding_reachable
           [ChangeName "Ada"; ChangeClassInfo "Grade 11"; ChangeSubject "Physics";
            ClickContinue; ChangeTopic "Optics"; ClickNextStep]
           initialOnboarding).
  - apply onb_init.
  - reflexivity.
Qed.

(** C10. Every profile that the onboarding form hands to [onComplete]
    carries the zeroed performance record: no quiz score, 0 minutes, no
    completed topic, accuracy 0 and no feedback. *)
Theorem C10_onboarding_profile_zeroed :
  forall (s s' : OnboardingState) (ev : OnboardingEvent) (p : UserProfile),
    onboardingReachable s ->
    onboardingEvent ev s = Some (s', Some p) ->
    quizScores (performance p) = [] /\
    timeSpentMinutes (performance p) = 0 /\
    completedTopics (performance p) = [] /\
    averageAccuracy (performance p) = 0 /\
    lastFeedback (performance p) = None.
Proof.
  intros s s' ev p Hreach Hev.
  destruct (onboardingReachable_invariant s Hreach) as (Hperf & _).
  assert (Hp : performance p = zeroPerformance).
  { unfold onboardingEvent in Hev.
    destruct ev;
      repeat match type of Hev with
             | (if ?c then _ else _) = _ => destruct c; [|discriminate]
             end;
      try discriminate.
    unfold as_UserProfile in Hev.
    destruct (d_name (data s)), (d_classInfo (data s)), (d_subject (data s)),
      (d_topic (data s)); try discriminate.
    inversion Hev; subst s' p. exact Hperf. }
  rewrite Hp. repeat split.
Qed.

Lemma C10_witness :
  onboardingEvent ClickLaunch filledOnboarding = Some (filledOnboarding, Some adaProfile) /\
  quizScores (performance adaProfile) = [] /\
  timeSpentMinutes (performance adaProfile) = 0 /\
  completedTopics (performance adaProfile) = [] /\
  averageAccuracy (performance adaProfile) = 0 /\
  lastFeedback (performance adaProfile) = None.
Proof.
  split; [reflexivity|].
  exact (C10_onboarding_profile_zeroed filledOnboarding filledOnboarding ClickLaunch
           adaProfile filledOnboarding_reachable eq_refl).
Defined.

(** ** generateLearningPath *)

Lemma pathSynthesisFails_try (reply : Promise (GenerateContentResponse PathValue)) :
  pathSynthesisFails reply <-> tryGenerateLearningPath reply = None.
Proof.
  unfold pathSynthesisFails, tryGenerateLearningPath.
  destruct reply as [response|e]; [|tauto].
  destruct (text response) as [[|[|raw]]|]; try tauto.
  split; [contradiction|discriminate].
Qed.

(** The promise of [generateLearningPath] never rejects: its [catch]
    turns every failure into the fallback path. *)
Lemma generateLearningPath_resolves (reply : Promise (GenerateContentResponse PathValue))
    (p : UserProfile) :
  exists path, generateLearningPath reply p = Resolved path.
Proof.
  unfold generateLearningPath.
  destruct (tryGenerateLearningPath reply); eauto.
Qed.

Lemma generateLearningPath_fallback (reply : Promise (GenerateContentResponse PathValue))
    (p : UserProfile) :
  pathSynthesisFails reply -> generateLearningPath reply p = Resolved (fallbackPath p).
Proof.
  intros H. apply pathSynthesisFails_try in H.
  unfold generateLearningPath. now rewrite H.
Qed.

(** C6. When path synthesis fails, [generateLearningPath] resolves to the
    fallback path, which depends on the profile alone, holds exactly one
    module, of status [current], and whose rationale starts with the word
    Fallback; every module of every path it returns is [current]. *)
Theorem C6_fallback_path_single_current_module :
  forall (p : UserProfile) (reply : Promise (GenerateContentResponse PathValue)),
    pathSynthesisFails reply ->
    generateLearningPath reply p = Resolved (fallbackPath p) /\
    (forall reply', pathSynthesisFails reply' ->
                    generateLearningPath reply' p = generateLearningPath reply p) /\
    (exists m, modules (fallbackPath p) = [m] /\ Mod.status m = current) /\
    String.prefix "Fallback" (personalizedReasoning (fallbackPath p)) = true /\
    (forall reply' path m,
        generateLearningPath reply' p = Resolved path ->
        In m (modules path) -> Mod.status m = current).
Proof.
  intros p reply Hfail.
  split; [now apply generateLearningPath_fallback|].
  split.
  { intros reply' Hfail'. now rewrite !generateLearningPath_fallback. }
  split; [eexists; split; reflexivity|].
  split; [reflexivity|].
  intros reply' path m Hgen Hin.
  unfold generateLearningPath in Hgen.
  destruct (tryGenerateLearningPath reply') as [gp|] eqn:Htry.
  - inversion Hgen; subst path; clear Hgen.
    unfold tryGenerateLearningPath in Htry.
    destruct reply' as [response|e]; [|discriminate].
    destruct (text response) as [[|[|raw]]|]; try discriminate.
    inversion Htry; subst gp; clear Htry. cbn [modules] in Hin.
    apply in_map_iff in Hin. destruct Hin as (rm & <- & _). reflexivity.
  - inversion Hgen; subst path; clear Hgen.
    cbn [modules fallbackPath] in Hin. destruct Hin as [<-|[]]. reflexivity.
Qed.

Lemma C6_witness :
  generateLearningPath (pathReply gatewayDown) adaProfile = Resolved (fallbackPath adaProfile) /\
  exists m, modules (fallbackPath adaProfile) = [m] /\ Mod.status m = current.
Proof.
  destruct (C6_fallback_path_single_current_module adaProfile (pathReply gatewayDown) I)
    as (Hgen & _ & Hone & _).
  split; [exact Hgen|exact Hone].
Defined.

(** ** submitFeedback *)

(** C9. [submitFeedback] always ends on the dashboard.  Without a profile
    or without a learning path it changes nothing else: the state is the
    old one with the view replaced, and nothing is written.  With both it
    records the rating and writes the profile and the path together, one
    under each key. *)
Theorem C9_submitFeedback_writes_pair_or_nothing :
  forall (feedback : SessionFeedback) (st : AppState),
    let st' := submitFeedback feedback st in
    view st' = DASHBOARD /\
    match profile st, learningPath st with
    | Some p, Some path =>
        (exists p', profile st' = Some p' /\ p' = with_lastFeedback feedback p /\
                    lastFeedback (performance p') = Some feedback /\
                    edupal_profile (localStorage st') = Some (Stringified p')) /\
        learningPath st' = Some path /\
        edupal_path (localStorage st') = Some (Stringified path)
    | _, _ =>
        st' = setView DASHBOARD st /\
        profile st' = profile st /\
        localStorage st' = localStorage st
    end.
Proof.
  intros feedback st. unfold submitFeedback.
  destruct (profile st) as [p|] eqn:Hp; destruct (learningPath st) as [path|] eqn:Hpath;
    cbn zeta; setters; rewrite ?Hp, ?Hpath; repeat split; eauto.
Qed.

(** [saveState] writes both keys, whatever the store held. *)
Lemma saveState_pair (newProfile : UserProfile) (newPath : LearningPath) (st : AppState) :
  localStorage (saveState newProfile newPath st) =
  {| edupal_profile := Some (Stringified newProfile);
     edupal_path := Some (Stringified newPath) |}.
Proof. reflexivity. Qed.

(** ** The mount effect *)

Lemma C5_counterexample :
  deserializationFails corruptedStore /\
  restoreSession (geminiService gatewayDown) (initialState corruptedStore)
    = Throws SyntaxError (initialState corruptedStore) /\
  ~ freshStartClaim (geminiService gatewayDown) corruptedStore.
Proof.
  split; [|split].
  - unfold deserializationFails. simpl. auto.
  - reflexivity.
  - intros (st' & Hst' & _). discriminate Hst'.
Qed.

(** C5, as the code has it.  A store that lacks one of the two records
    (missing key or empty text) is no saved session: the effect ends
    normally and leaves the initial state, at Welcome, untouched.  When
    both texts are there and one of them is not JSON, no part of a session
    is restored either, but the effect does not end normally: the syntax
    error of [JSON.parse] leaves it uncaught.  Two well-formed records
    restore the dashboard. *)
Theorem C5_restore_pair_or_nothing :
  forall (svc : Services) (store : Storage),
    let st := initialState store in
    view st = WELCOME /\ profile st = None /\ learningPath st = None /\
    match edupal_profile store, edupal_path store with
    | Some (Stringified p), Some (Stringified path) =>
        exists st', restoreSession svc st = Normal st' /\
                    view st' = DASHBOARD /\ profile st' = Some p /\
                    learningPath st' = Some path /\
                    currentModule st' = hd_error (modules path)
    | Some (Stringified _), Some Unparseable
    | Some Unparseable, Some (Stringified _)
    | Some Unparseable, Some Unparseable =>
        restoreSession svc st = Throws SyntaxError st
    | _, _ => restoreSession svc st = Normal st
    end.
Proof.
  intros svc store. cbn zeta.
  split; [reflexivity|]. split; [reflexivity|]. split; [reflexivity|].
  unfold restoreSession. cbn [localStorage initialState].
  destruct (edupal_profile store) as [[p| |]|]; destruct (edupal_path store) as [[path| |]|];
    cbn [truthy andb JSON_parse]; try reflexivity.
  eexists. split; [reflexivity|].
  unfold loadSuggestions_detached, loadSuggestions.
  destruct (svc_getRelatedCourseSuggestions svc p); setters; auto.
Qed.

(** ** handleOnboardingComplete and handleSelectSuggested *)

Lemma loadSuggestions_gemini (g : Gateway) (p : UserProfile) (st : AppState) :
  exists titles,
    loadSuggestions (geminiService g) p st = Resolved (setSuggestedTitles titles st).
Proof.
  unfold loadSuggestions, geminiService. cbn [svc_getRelatedCourseSuggestions].
  unfold getRelatedCourseSuggestions.
  destruct (suggestionsReply g) as [response|e]; [|eauto].
  destruct (text response) as [[|titles]|]; eauto.
Qed.

(** The handler after a synthesis that resolved. *)
Lemma handleOnboardingComplete_resolved (g : Gateway) (draft : UserProfile)
    (st : AppState) (path : LearningPath) :
  generateLearningPath (pathReply g) draft = Resolved path ->
  let st' := handleOnboardingComplete (geminiService g) draft st in
  view st' = DASHBOARD /\ profile st' = Some draft /\ learningPath st' = Some path /\
  currentModule st' = hd_error (modules path) /\
  localStorage st' =
    {| edupal_profile := Some (Stringified draft);
       edupal_path := Some (Stringified path) |} /\
  isLoading st' = false.
Proof.
  intros Hgen. unfold handleOnboardingComplete.
  cbn [geminiService svc_generateLearningPath]. rewrite Hgen.
  match goal with
  | |- context [loadSuggestions ?svc ?p ?s] =>
      destruct (loadSuggestions_gemini g p s) as [titles Hload];
      change (loadSuggestions svc p s) with (loadSuggestions (geminiService g) p s);
      rewrite Hload
  end.
  cbn zeta. setters. repeat split.
Qed.

(** The [catch] branch of the handler, for a service whose synthesis
    rejects: the profile is already the draft, the rest of the session is
    as before and the error is logged. *)
Lemma handleOnboardingComplete_rejected (svc : Services) (draft : UserProfile)
    (st : AppState) (e : Exn) :
  svc_generateLearningPath svc draft = Rejected e ->
  let st' := handleOnboardingComplete svc draft st in
  view st' = view st /\ profile st' = Some draft /\
  learningPath st' = learningPath st /\ currentModule st' = currentModule st /\
  localStorage st' = localStorage st /\ console st' = console st ++ [e] /\
  isLoading st' = false.
Proof.
  intros Hgen. unfold handleOnboardingComplete. rewrite Hgen.
  cbn zeta. setters. repeat split.
Qed.

Lemma C2_counterexample :
  validDraft adaProfile /\
  ~ onboardingClaim gatewayEmptyPath adaProfile onboardingScreen /\
  pathSynthesisFails (pathReply gatewayDown) /\
  ~ sessionUnchanged onboardingScreen
      (handleOnboardingComplete (geminiService gatewayDown) adaProfile onboardingScreen).
Proof.
  split; [|split; [|split]].
  - unfold validDraft. simpl. repeat split; discriminate.
  - unfold onboardingClaim. cbn zeta.
    intros [(_ & _ & path & Hpath & Hne)|(Hfail & _)].
    + apply Hne. vm_compute in Hpath. now inversion Hpath.
    + exact Hfail.
  - exact I.
  - intros (Hview & _). vm_compute in Hview. discriminate Hview.
Qed.

(** C2, as the code has it.  For every valid draft the handler ends on the
    dashboard with the draft as profile and with the path that
    [generateLearningPath] resolved to installed, its first module
    current, and both records stored.  That path is the one-module
    fallback when the gateway call fails, so a failing gateway does not
    leave the session unchanged; and its module sequence is empty exactly
    when the gateway answered with an empty module list. *)
Theorem C2_onboarding_reaches_dashboard :
  forall (g : Gateway) (draft : UserProfile) (st : AppState),
    validDraft draft ->
    let st' := handleOnboardingComplete (geminiService g) draft st in
    exists path,
      generateLearningPath (pathReply g) draft = Resolved path /\
      view st' = DASHBOARD /\ profile st' = Some draft /\
      learningPath st' = Some path /\
      currentModule st' = hd_error (modules path) /\
      localStorage st' =
        {| edupal_profile := Some (Stringified draft);
           edupal_path := Some (Stringified path) |} /\
      (pathSynthesisFails (pathReply g) ->
       path = fallbackPath draft /\ List.length (modules path) = 1%nat) /\
      (modules path = [] <->
       exists response raw,
         pathReply g = Resolved response /\
         text response = Some (Json (PathObject raw)) /\
         raw_modules raw = []).
Proof.
  intros g draft st _.
  destruct (generateLearningPath_resolves (pathReply g) draft) as [path Hgen].
  destruct (handleOnboardingComplete_resolved g draft st path Hgen)
    as (Hview & Hp & Hpath & Hcm & Hstore & _).
  exists path. repeat (split; [assumption|]).
  split.
  - intros Hfail. rewrite (generateLearningPath_fallback _ _ Hfail) in Hgen.
    inversion Hgen. split; reflexivity.
  - unfold generateLearningPath, tryGenerateLearningPath in Hgen.
    destruct (pathReply g) as [response|e].
    + destruct (text response) as [[|[|raw]]|] eqn:Htext;
        inversion Hgen; subst path; clear Hgen; cbn [modules fallbackPath].
      * split; [discriminate|]. intros (r & raw & Hr & Ht & _).
        inversion Hr; subst r. rewrite Htext in Ht. discriminate.
      * split; [discriminate|]. intros (r & raw & Hr & Ht & _).
        inversion Hr; subst r. rewrite Htext in Ht. discriminate.
      * split.
        -- intros Hnil. exists response, raw. repeat split; auto.
           destruct (raw_modules raw); [reflexivity|discriminate].
        -- intros (r & raw' & Hr & Ht & Hnil).
           inversion Hr; subst r. rewrite Htext in Ht. inversion Ht; subst raw'.
           now rewrite Hnil.
      * split; [discriminate|]. intros (r & raw & Hr & Ht & _).
        inversion Hr; subst r. rewrite Htext in Ht. discriminate.
    + inversion Hgen; subst path. cbn [modules fallbackPath].
      split; [discriminate|]. intros (r & raw & Hr & _). discriminate.
Qed.

Lemma C2_witness :
  validDraft adaProfile /\
  exists path,
    generateLearningPath (pathReply gatewayDown) adaProfile = Resolved path /\
    view (handleOnboardingComplete (geminiService gatewayDown) adaProfile onboardingScreen)
      = DASHBOARD /\
    learningPath (handleOnboardingComplete (geminiService gatewayDown) adaProfile onboardingScreen)
      = Some path.
Proof.
  assert (Hvalid : validDraft adaProfile).
  { unfold validDraft. simpl. repeat split; discriminate. }
  split; [exact Hvalid|].
  destruct (C2_onboarding_reaches_dashboard gatewayDown adaProfile onboardingScreen Hvalid)
    as (path & Hgen & Hview & _ & Hpath & _).
  exists path. split; [exact Hgen|]. split; [exact Hview|exact Hpath].
Defined.

(** The handler after a synthesis that resolved. *)
Lemma handleSelectSuggested_resolved (svc : Services) (newTopic : string)
    (st : AppState) (p : UserProfile) (path : LearningPath) :
  profile st = Some p ->
  svc_generateLearningPath svc (with_topic newTopic p) = Resolved path ->
  let st' := handleSelectSuggested svc newTopic st in
  view st' = DASHBOARD /\ profile st' = Some (with_topic newTopic p) /\
  learningPath st' = Some path /\ currentModule st' = hd_error (modules path) /\
  localStorage st' =
    {| edupal_profile := Some (Stringified (with_topic newTopic p));
       edupal_path := Some (Stringified path) |} /\
  isLoading st' = false.
Proof.
  intros Hp Hgen. unfold handleSelectSuggested. rewrite Hp, Hgen.
  unfold loadSuggestions_detached, loadSuggestions.
  destruct (svc_getRelatedCourseSuggestions svc (with_topic newTopic p));
    cbn zeta; setters; repeat split.
Qed.

(** The [catch] branch of the handler, for a service whose synthesis
    rejects: the topic of the profile is already the new one. *)
Lemma handleSelectSuggested_rejected (svc : Services) (newTopic : string)
    (st : AppState) (p : UserProfile) (e : Exn) :
  profile st = Some p ->
  svc_generateLearningPath svc (with_topic newTopic p) = Rejected e ->
  let st' := handleSelectSuggested svc newTopic st in
  view st' = view st /\ profile st' = Some (with_topic newTopic p) /\
  learningPath st' = learningPath st /\ currentModule st' = currentModule st /\
  localStorage st' = localStorage st /\ console st' = console st ++ [e] /\
  isLoading st' = false.
Proof.
  intros Hp Hgen. unfold handleSelectSuggested. rewrite Hp, Hgen.
  cbn zeta. setters. repeat split.
Qed.

Lemma C4_counterexample :
  view adaDashboard = DASHBOARD /\ profile adaDashboard = Some adaProfile /\
  pathSynthesisFails (pathReply gatewayDown) /\
  profile (handleSelectSuggested (geminiService gatewayDown) "Lasers" adaDashboard)
    <> profile adaDashboard /\
  learningPath (handleSelectSuggested (geminiService gatewayDown) "Lasers" adaDashboard)
    <> learningPath adaDashboard /\
  ~ selectSuggestedClaim gatewayDown "Lasers" adaDashboard.
Proof.
  assert (Hprofile :
            profile (handleSelectSuggested (geminiService gatewayDown) "Lasers" adaDashboard)
            <> profile adaDashboard).
  { vm_compute. discriminate. }
  repeat split; try reflexivity; try exact Hprofile.
  - vm_compute. discriminate.
  - unfold selectSuggestedClaim. cbn zeta. intros H.
    destruct (H I) as (_ & Hp & _). exact (Hprofile Hp).
Qed.

(** C4, as the code has it.  From the dashboard with a profile present,
    when the synthesis behind [selectSuggestedTopic] fails the view stays
    Dashboard, but the state is not left alone: the topic of the profile
    becomes the chosen title (the rest of the profile is kept), the
    learning path becomes the one-module fallback path for that topic, its
    module becomes the current module, and profile and path are stored. *)
Theorem C4_failed_synthesis_installs_fallback :
  forall (g : Gateway) (newTopic : string) (st : AppState) (p : UserProfile),
    view st = DASHBOARD ->
    profile st = Some p ->
    pathSynthesisFails (pathReply g) ->
    let st' := handleSelectSuggested (geminiService g) newTopic st in
    view st' = DASHBOARD /\
    (exists p', profile st' = Some p' /\ topic p' = newTopic /\
                name p' = name p /\ classInfo p' = classInfo p /\
                subject p' = subject p /\ level p' = level p /\ goal p' = goal p /\
                style p' = style p /\ timePerDay p' = timePerDay p /\
                language p' = language p /\ performance p' = performance p /\
                learningPath st' = Some (fallbackPath p') /\
                currentModule st' = hd_error (modules (fallbackPath p')) /\
                localStorage st' =
                  {| edupal_profile := Some (Stringified p');
                     edupal_path := Some (Stringified (fallbackPath p')) |}) /\
    (exists m, currentModule st' = Some m /\
               Mod.title m = ("Foundations of " ++ newTopic)%string).
Proof.
  intros g newTopic st p _ Hp Hfail.
  pose proof (generateLearningPath_fallback _ (with_topic newTopic p) Hfail) as Hgen.
  destruct (handleSelectSuggested_resolved (geminiService g) newTopic st p _ Hp Hgen)
    as (Hview & Hp' & Hpath & Hcm & Hstore & _).
  cbn zeta. split; [exact Hview|]. split.
  - exists (with_topic newTopic p). repeat split; assumption.
  - eexists. split; [exact Hcm|reflexivity].
Qed.

Lemma C4_witness :
  view (handleSelectSuggested (geminiService gatewayDown) "Lasers" adaDashboard) = DASHBOARD /\
  exists m,
    currentModule (handleSelectSuggested (geminiService gatewayDown) "Lasers" adaDashboard)
      = Some m /\
    Mod.title m = "Foundations of Lasers".
Proof.
  destruct (C4_failed_synthesis_installs_fallback gatewayDown "Lasers" adaDashboard
              adaProfile eq_refl eq_refl I)
    as (Hview & _ & Hm).
  split; [exact Hview|exact Hm].
Defined.

(** ** The guards of the handlers hold on screen *)

Lemma appReachable_invariant (st : AppState) : appReachable st -> sessionInvariant st.
Proof.
  unfold sessionInvariant.
  induction 1 as [svc store st Hmount
                 |st _ IH Hview
                 |svc s userData st _ IH Hview _ _
                 |svc newTopic st _ IH Hdash _
                 |m now st path _ IH Hdash _ _
                 |now st _ IH Hview Hp Hcm
                 |feedback st _ IH Hview
                 |svc st _ IH Hdash
                 |quiz s s' score total st _ IH Hview _ _ _ _
                 |st _ IH Hview _
                 |st _ IH
                 |st _ IH _ _ _].
  - (* mount *)
    unfold restoreSession in Hmount. cbn [localStorage initialState] in Hmount.
    destruct (truthy (edupal_profile store) && truthy (edupal_path store)).
    + destruct (JSON_parse (edupal_profile store)) as [|p]; [discriminate|].
      destruct (JSON_parse (edupal_path store)) as [|path]; [discriminate|].
      inversion Hmount; subst st; clear Hmount.
      unfold loadSuggestions_detached, loadSuggestions.
      destruct (svc_getRelatedCourseSuggestions svc p); setters;
        (split; [right; right; discriminate|discriminate]).
    + inversion Hmount; subst st. simpl. split; [now left|discriminate].
  - (* start *)
    setters. split; [right; now left|discriminate].
  - (* onboarding *)
    unfold handleOnboardingComplete.
    destruct (svc_generateLearningPath svc userData) as [path|e].
    + destruct (loadSuggestions svc userData _) as [st'|e] eqn:Hload.
      * unfold loadSuggestions in Hload.
        destruct (svc_getRelatedCourseSuggestions svc userData); [|discriminate].
        inversion Hload; subst st'. setters.
        split; [right; right; discriminate|discriminate].
      * setters. rewrite Hview. split; [right; right; discriminate|discriminate].
    + setters. rewrite Hview. split; [right; right; discriminate|discriminate].
  - (* select suggested *)
    destruct Hdash as (Hview & Hp & Hpath).
    unfold handleSelectSuggested.
    destruct (profile st) as [p|]; [|contradiction].
    destruct (svc_generateLearningPath svc (with_topic newTopic p)) as [path|e].
    + unfold loadSuggestions_detached, loadSuggestions.
      destruct (svc_getRelatedCourseSuggestions svc (with_topic newTopic p)); setters;
        (split; [right; right; discriminate|discriminate]).
    + setters. rewrite Hview. split; [right; right; discriminate|discriminate].
  - (* select module *)
    destruct Hdash as (_ & Hp & _).
    unfold handleSelectModule. setters. split; [auto|discriminate].
  - (* end session *)
    unfold handleEndSession. destruct (profile st) as [p|]; [|contradiction].
    setters. split; [right; right; discriminate|discriminate].
  - (* submit feedback *)
    destruct IH as [[Hw|[Ho|Hp]] _]; try congruence.
    unfold submitFeedback.
    destruct (profile st) as [p|] eqn:Ep; [|contradiction].
    destruct (learningPath st); setters; rewrite ?Ep;
      (split; [right; right; discriminate|discriminate]).
  - (* start quiz *)
    destruct Hdash as (Hview & Hp & Hpath).
    unfold startQuiz.
    destruct (profile st) as [p|] eqn:Ep; [|contradiction].
    destruct (currentModule st) as [m|] eqn:Em.
    + destruct (svc_generateQuiz svc p (Mod.title m)); setters; rewrite ?Ep, ?Em, ?Hview.
      * split; [right; right; discriminate|]. intros _. split; [exact Hpath|discriminate].
      * split; [right; right; discriminate|discriminate].
    + rewrite Ep, Hview. split; [right; right; discriminate|discriminate].
  - (* quiz complete *)
    destruct IH as [[Hw|[Ho|Hp]] Hquiz]; try congruence.
    destruct (Hquiz Hview) as [Hpath Hcm].
    unfold handleQuizComplete.
    destruct (learningPath st) as [path|] eqn:Epath; [|contradiction].
    destruct (currentModule st) as [cm|] eqn:Ecm; [|contradiction].
    destruct (profile st) as [p|] eqn:Ep; [|contradiction].
    destruct (passes score total); setters; rewrite ?Epath, ?Ecm;
      (split; [right; right; discriminate|intros _; split; discriminate]).
  - (* quiz back *)
    destruct IH as [[Hw|[Ho|Hp]] _]; try congruence.
    setters. split; [auto|discriminate].
  - (* logo *)
    unfold handleLogoClick. destruct (profile st) as [p|] eqn:Ep.
    + setters. rewrite Ep. split; [right; right; discriminate|discriminate].
    + rewrite Ep. exact IH.
  - (* logout *)
    simpl. split; [now left|discriminate].
Qed.

(** While the quiz is on screen the guard of [handleQuizComplete] holds. *)
Lemma quiz_on_screen_guard (st : AppState) :
  appReachable st -> view st = QUIZ ->
  exists path cm p,
    learningPath st = Some path /\ currentModule st = Some cm /\ profile st = Some p.
Proof.
  intros Hreach Hview.
  destruct (appReachable_invariant st Hreach) as [[Hw|[Ho|Hp]] Hquiz]; try congruence.
  destruct (Hquiz Hview) as [Hpath Hcm].
  destruct (learningPath st) as [path|]; [|contradiction].
  destruct (currentModule st) as [cm|]; [|contradiction].
  destruct (profile st) as [p|]; [|contradiction].
  exists path, cm, p. repeat split.
Qed.

(** While a tutoring session is on screen there is a profile. *)
Lemma tutoring_has_profile (st : AppState) :
  appReachable st -> view st = TUTORING -> exists p, profile st = Some p.
Proof.
  intros Hreach Hview.
  destruct (appReachable_invariant st Hreach) as [[Hw|[Ho|Hp]] _]; try congruence.
  destruct (profile st) as [p|]; [eauto|contradiction].
Qed.

(** * Further properties *)

(** ** The store of a running session *)

Lemma hd_error_id_in (ms : list Mod.t) (cm : Mod.t) :
  hd_error ms = Some cm -> In (Mod.id cm) (map Mod.id ms).
Proof.
  destruct ms as [|m ms]; [discriminate|].
  intros H. inversion H; subst m. now left.
Qed.

Lemma complete_if_current_id (cm m : Mod.t) : Mod.id (complete_if_current cm m) = Mod.id m.
Proof.
  unfold complete_if_current. destruct (String.eqb (Mod.id m) (Mod.id cm)); reflexivity.
Qed.

Lemma map_complete_if_current_ids (cm : Mod.t) (ms : list Mod.t) :
  map Mod.id (map (complete_if_current cm) ms) = map Mod.id ms.
Proof.
  rewrite map_map. apply map_ext. intros m. apply complete_if_current_id.
Qed.

(** A state in which path and current module were just installed from a
    path, and the pair was just saved. *)
Ltac installed_path :=
  unfold storedPair; setters;
  split; [right; eexists; eexists; reflexivity|];
  split;
  [ intros ? Heq; inversion Heq; subst; eexists; reflexivity
  | intros ? ? Heq Hcm; inversion Heq; subst; now apply hd_error_id_in ].

Lemma appReachable_persistence (st : AppState) : appReachable st -> persistenceInvariant st.
Proof.
  unfold persistenceInvariant.
  induction 1 as [svc store st Hmount
                 |st _ IH Hview
                 |svc s userData st _ IH Hview _ _
                 |svc newTopic st _ IH Hdash _
                 |m now st path _ IH Hdash Hpath Hm
                 |now st _ IH Hview Hp Hcm
                 |feedback st _ IH Hview
                 |svc st _ IH Hdash
                 |quiz s s' score total st _ IH Hview _ _ _ _
                 |st _ IH Hview _
                 |st _ IH
                 |st _ IH _ _ _].
  - (* mount *)
    unfold restoreSession in Hmount. cbn [localStorage initialState] in Hmount.
    destruct store as [[[p| |]|] [[path| |]|]];
      cbn [edupal_profile edupal_path truthy andb JSON_parse] in Hmount;
      try discriminate; inversion Hmount; subst st; clear Hmount;
      try (cbn [localStorage learningPath currentModule initialState edupal_profile
                edupal_path truthy andb];
           split; [now left|]; split; intros; discriminate).
    unfold loadSuggestions_detached, loadSuggestions.
    destruct (svc_getRelatedCourseSuggestions svc p); cbn [initialState]; installed_path.
  - (* start *)
    setters. exact IH.
  - (* onboarding *)
    unfold handleOnboardingComplete.
    destruct (svc_generateLearningPath svc userData) as [path|e].
    + destruct (loadSuggestions svc userData _) as [st'|e] eqn:Hload.
      * unfold loadSuggestions in Hload.
        destruct (svc_getRelatedCourseSuggestions svc userData); [|discriminate].
        inversion Hload; subst st'. installed_path.
      * installed_path.
    + setters. exact IH.
  - (* select suggested *)
    unfold handleSelectSuggested.
    destruct (profile st) as [p|]; [|exact IH].
    destruct (svc_generateLearningPath svc (with_topic newTopic p)) as [path|e].
    + unfold loadSuggestions_detached, loadSuggestions.
      destruct (svc_getRelatedCourseSuggestions svc (with_topic newTopic p)); installed_path.
    + setters. exact IH.
  - (* select module *)
    destruct IH as (Hstore & Hsaved & Hcur).
    unfold handleSelectModule. setters.
    split; [exact Hstore|]. split; [exact Hsaved|].
    intros path' cm Hpath' Hcm. inversion Hcm; subst cm.
    rewrite Hpath in Hpath'. inversion Hpath'; subst path'.
    destruct Hm as [Hin|Hold]; [now apply in_map|now apply Hcur].
  - (* end session *)
    unfold handleEndSession. destruct (profile st) as [p|]; setters; exact IH.
  - (* submit feedback *)
    destruct IH as (Hstore & Hsaved & Hcur).
    unfold submitFeedback.
    destruct (profile st) as [p|] eqn:Ep; [|setters; auto].
    destruct (learningPath st) as [path|] eqn:Epath; [|setters; rewrite Epath; auto].
    unfold storedPair. setters. rewrite Epath.
    split; [right; eexists; eexists; reflexivity|].
    split.
    + intros path' Heq. inversion Heq; subst. eexists. reflexivity.
    + exact Hcur.
  - (* start quiz *)
    unfold startQuiz.
    destruct (profile st) as [p|]; [|exact IH].
    destruct (currentModule st) as [m|] eqn:Em; [|rewrite Em; exact IH].
    destruct (svc_generateQuiz svc p (Mod.title m)); setters; rewrite ?Em; exact IH.
  - (* quiz complete *)
    destruct IH as (Hstore & Hsaved & Hcur).
    unfold handleQuizComplete.
    destruct (learningPath st) as [path|] eqn:Epath;
      [|rewrite Epath; repeat split; assumption].
    destruct (currentModule st) as [cm|] eqn:Ecm;
      [|rewrite Epath, Ecm; repeat split; assumption].
    destruct (profile st) as [p|] eqn:Ep;
      [|rewrite Epath, Ecm; repeat split; assumption].
    unfold storedPair.
    destruct (passes score total); setters; rewrite ?Epath, ?Ecm;
      (split; [right; eexists; eexists; reflexivity|]);
      (split; [intros ? Heq; inversion Heq; subst; eexists; reflexivity|]).
    + intros path' cm' Heq Hcm'. inversion Heq; subst path'.
      cbn [modules with_modules]. rewrite map_complete_if_current_ids. now apply Hcur.
    + exact Hcur.
  - (* quiz back *)
    setters. exact IH.
  - (* logo *)
    unfold handleLogoClick. destruct (profile st); setters; exact IH.
  - (* logout *)
    cbn. split; [now left|]. split; intros; discriminate.
Qed.

Lemma restoreSession_storedPair (svc : Services) (store : Storage) (p : UserProfile)
    (path : LearningPath) :
  storedPair store p path ->
  exists st',
    restoreSession svc (initialState store) = Normal st' /\
    view st' = DASHBOARD /\ profile st' = Some p /\ learningPath st' = Some path /\
    currentModule st' = hd_error (modules path) /\ localStorage st' = store.
Proof.
  unfold storedPair. intros ->. unfold restoreSession.
  cbn [localStorage initialState edupal_profile edupal_path truthy andb JSON_parse].
  eexists. split; [reflexivity|].
  unfold loadSuggestions_detached, loadSuggestions.
  destruct (svc_getRelatedCourseSuggestions svc p); setters; repeat split.
Qed.

Lemma adaDashboard_reachable : appReachable adaDashboard.
Proof. exact (app_mount offlineServices adaStore adaDashboard eq_refl). Qed.

(** X1. A session that is running can always be resumed.  In every state
    that user events lead to, the mount effect run over the current store
    ends normally (the stored texts are never left unparseable or
    half-written); and when a learning path is in memory, the store holds
    that very path beside a profile, so that reloading the page comes
    back to the dashboard with the same path, its first module current. *)
Theorem reload_resumes_session :
  forall st : AppState,
    appReachable st ->
    (forall svc, exists st', restoreSession svc (initialState (localStorage st)) = Normal st') /\
    (forall svc path,
        learningPath st = Some path ->
        exists st' p,
          restoreSession svc (initialState (localStorage st)) = Normal st' /\
          edupal_profile (localStorage st) = Some (Stringified p) /\
          edupal_path (localStorage st) = Some (Stringified path) /\
          view st' = DASHBOARD /\ profile st' = Some p /\
          learningPath st' = Some path /\
          currentModule st' = hd_error (modules path)).
Proof.
  intros st Hreach.
  destruct (appReachable_persistence st Hreach) as (Hstore & Hsaved & _).
  split.
  - intros svc. destruct Hstore as [Hnone|(p & path & Hpair)].
    + exists (initialState (localStorage st)). unfold restoreSession.
      cbn [localStorage initialState]. now rewrite Hnone.
    + destruct (restoreSession_storedPair svc _ p path Hpair) as (st' & Hst' & _).
      now exists st'.
  - intros svc path Hpath. destruct (Hsaved path Hpath) as (p & Hpair).
    destruct (restoreSession_storedPair svc _ p path Hpair)
      as (st' & Hst' & Hview & Hp & Hpath' & Hcm & _).
    exists st', p. unfold storedPair in Hpair. rewrite Hpair at 2 3.
    repeat split; assumption.
Qed.

Lemma reload_resumes_session_witness :
  exists st' p,
    restoreSession offlineServices (initialState (localStorage adaDashboard)) = Normal st' /\
    profile st' = Some p /\ learningPath st' = Some opticsPath.
Proof.
  destruct (reload_resumes_session adaDashboard adaDashboard_reachable) as (_ & H).
  destruct (H offlineServices opticsPath eq_refl) as (st' & p & Hst' & _ & _ & _ & Hp & Hpath & _).
  exists st', p. split; [exact Hst'|]. split; [exact Hp|exact Hpath].
Defined.

(** X2. A whole tutoring session: a module is opened at [t0], the
    session is ended at [t1], not before [t0], and rated; the two time
    stamps are values of [Date.now()], and the minutes studied so far are
    not negative and stay below 2^53 with those of the session, so that
    the binary64 sum is the sum.  Nothing is stored
    before the rating; the rating stores the profile with the minutes of
    the session added and the rating recorded, beside the unchanged path,
    and shows the dashboard with the opened module current.  A reload
    then restores that profile and path, with the first module of the
    path current (the current module is not stored). *)
Theorem tutoring_session_round_trip :
  forall (svc : Services) (st : AppState) (p : UserProfile) (path : LearningPath)
         (m : Mod.t) (t0 t1 : Z) (feedback : SessionFeedback),
    profile st = Some p ->
    learningPath st = Some path ->
    0 <= t0 <= t1 ->
    t1 < 2 ^ 53 ->
    0 <= timeSpentMinutes (performance p) ->
    timeSpentMinutes (performance p) + elapsedMinutes t1 t0 < 2 ^ 53 ->
    let studied := handleEndSession t1 (handleSelectModule m t0 st) in
    let rated := submitFeedback feedback studied in
    let p' :=
      with_lastFeedback feedback
        (with_timeSpentMinutes (timeSpentMinutes (performance p) + elapsedMinutes t1 t0) p) in
    localStorage studied = localStorage st /\
    view rated = DASHBOARD /\ profile rated = Some p' /\ learningPath rated = Some path /\
    currentModule rated = Some m /\
    storedPair (localStorage rated) p' path /\
    exists st',
      restoreSession svc (initialState (localStorage rated)) = Normal st' /\
      view st' = DASHBOARD /\ profile st' = Some p' /\ learningPath st' = Some path /\
      currentModule st' = hd_error (modules path).
Proof.
  intros svc st p path m t0 t1 feedback Hp Hpath Ht Hnow Hold Hsum studied rated p'.
  assert (Hstudied : studied =
                     setView FEEDBACK
                       (setProfile
                          (with_timeSpentMinutes
                             (timeSpentMinutes (performance p) + elapsedMinutes t1 t0) p)
                          (handleSelectModule m t0 st))).
  { subst studied. unfold handleEndSession, handleSelectModule. setters.
    rewrite Hp, or_zero_id.
    rewrite plus_exact by (exact Hold || exact Hsum || now apply elapsedMinutes_nonneg).
    reflexivity. }
  assert (Hrated : rated = setView DASHBOARD (saveState p' path (setProfile p' studied))).
  { subst rated. unfold submitFeedback. rewrite Hstudied.
    unfold handleSelectModule. setters. rewrite Hpath. reflexivity. }
  split; [rewrite Hstudied; reflexivity|].
  rewrite Hrated. setters.
  split; [reflexivity|]. split; [reflexivity|].
  split; [rewrite Hstudied; exact Hpath|].
  split; [rewrite Hstudied; reflexivity|].
  split; [reflexivity|].
  destruct (restoreSession_storedPair svc _ p' path eq_refl)
    as (st' & Hst' & Hview & Hp' & Hpath' & Hcm & _).
  exists st'. split; [exact Hst'|]. repeat split; assumption.
Qed.

Lemma tutoring_session_round_trip_witness :
  exists p',
    profile (submitFeedback hard
               (handleEndSession 151000 (handleSelectModule wavesModule 1000 adaDashboard)))
      = Some p' /\
    timeSpentMinutes (performance p') = 3 /\ lastFeedback (performance p') = Some hard.
Proof.
  destruct (tutoring_session_round_trip offlineServices adaDashboard adaProfile opticsPath
              wavesModule 1000 151000 hard eq_refl eq_refl ltac:(lia) ltac:(cbn; lia)
              ltac:(cbn; lia) ltac:(vm_compute; reflexivity))
    as (_ & _ & Hp & _).
  eexists. split; [exact Hp|]. split; reflexivity.
Defined.

(** ** The pass mark and the session *)

(** X3. What a finished quiz does to the session, for a quiz of fewer
    than 2^32 questions and a score between 0 and the number of
    questions.  The
    score is always appended to [quizScores] and profile and path are
    stored.  When the score is at least 80 percent of the total (in
    integers, 5 * score >= 4 * total) the modules with the identifier of
    the current one are marked completed and the title of the current
    module is appended to [completedTopics]; below that mark the path and
    [completedTopics] are left as they were. *)
Theorem quiz_pass_mark_decides_completion :
  forall (score total : Z) (st : AppState) (path : LearningPath) (cm : Mod.t)
         (p : UserProfile),
    learningPath st = Some path ->
    currentModule st = Some cm ->
    profile st = Some p ->
    1 <= total < 2 ^ 32 ->
    0 <= score <= total ->
    let st' := handleQuizComplete score total st in
    exists p' path',
      profile st' = Some p' /\ learningPath st' = Some path' /\
      storedPair (localStorage st') p' path' /\
      quizScores (performance p') = quizScores (performance p) ++ [score] /\
      (4 * total <= 5 * score ->
       path' = with_modules (map (complete_if_current cm) (modules path)) path /\
       completedTopics (performance p') =
         completedTopics (performance p) ++ [Mod.title cm]) /\
      (5 * score < 4 * total ->
       path' = path /\
       completedTopics (performance p') = completedTopics (performance p)).
Proof.
  intros score total st path cm p Hpath Hcm Hp Ht Hs st'.
  destruct (handleQuizComplete_guarded score total st path cm p Hpath Hcm Hp)
    as (Hp' & Hpath' & Hstore & _).
  fold st' in Hp', Hpath', Hstore.
  rewrite (passes_exact score total Hs ltac:(lia)) in Hp', Hpath', Hstore.
  eexists. eexists.
  split; [exact Hp'|]. split; [exact Hpath'|]. split; [exact Hstore|].
  split; [reflexivity|].
  cbn [performance completedTopics with_quiz_result].
  split; intros Hcmp.
  - replace (4 * total <=? 5 * score) with true by (symmetry; apply Z.leb_le; lia).
    split; reflexivity.
  - replace (4 * total <=? 5 * score) with false by (symmetry; apply Z.leb_gt; lia).
    split; reflexivity.
Qed.

Lemma quiz_pass_mark_decides_completion_witness :
  exists p' path',
    profile (handleQuizComplete 3 5 adaDashboard) = Some p' /\
    learningPath (handleQuizComplete 3 5 adaDashboard) = Some path' /\
    path' = opticsPath /\ completedTopics (performance p') = [].
Proof.
  destruct (quiz_pass_mark_decides_completion 3 5 adaDashboard opticsPath opticsModule
              adaProfile eq_refl eq_refl eq_refl ltac:(cbn; lia) ltac:(lia))
    as (p' & path' & Hp' & Hpath' & _ & _ & _ & Hfail).
  exists p', path'. split; [exact Hp'|]. split; [exact Hpath'|].
  exact (Hfail ltac:(lia)).
Defined.

(** ** The module sequence under quiz completion *)

Lemma complete_if_current_idem (cm m : Mod.t) :
  complete_if_current cm (complete_if_current cm m) = complete_if_current cm m.
Proof.
  unfold complete_if_current.
  destruct (String.eqb (Mod.id m) (Mod.id cm)) eqn:E.
  - cbn [Mod.id with_status_completed]. rewrite E. reflexivity.
  - rewrite E. reflexivity.
Qed.

(** X4. Passing the quiz of the same module a second time changes
    nothing in the learning path (marking is idempotent), but the title of
    the module is appended to [completedTopics] once more, so that the
    list holds it twice; both scores are recorded. *)
Theorem repeated_pass_repeats_topic :
  forall (score1 total1 score2 total2 : Z) (st : AppState) (path : LearningPath)
         (cm : Mod.t) (p : UserProfile),
    learningPath st = Some path ->
    currentModule st = Some cm ->
    profile st = Some p ->
    passes score1 total1 = true ->
    passes score2 total2 = true ->
    let st1 := handleQuizComplete score1 total1 st in
    let st2 := handleQuizComplete score2 total2 st1 in
    learningPath st2 = learningPath st1 /\
    exists p2,
      profile st2 = Some p2 /\
      completedTopics (performance p2) =
        completedTopics (performance p) ++ [Mod.title cm; Mod.title cm] /\
      quizScores (performance p2) = quizScores (performance p) ++ [score1; score2].
Proof.
  intros score1 total1 score2 total2 st path cm p Hpath Hcm Hp Hpass1 Hpass2 st1 st2.
  destruct (handleQuizComplete_guarded score1 total1 st path cm p Hpath Hcm Hp)
    as (Hp1 & Hpath1 & _ & _ & Hcm1).
  fold st1 in Hp1, Hpath1, Hcm1. rewrite Hpass1 in Hp1, Hpath1. rewrite Hcm in Hcm1.
  destruct (handleQuizComplete_guarded score2 total2 st1 _ cm _ Hpath1 Hcm1 Hp1)
    as (Hp2 & Hpath2 & _).
  fold st2 in Hp2, Hpath2. rewrite Hpass2 in Hp2, Hpath2.
  split.
  - rewrite Hpath2, Hpath1. f_equal. unfold with_modules. cbn [modules estimatedWeeks
      personalizedReasoning]. f_equal.
    rewrite map_map. apply map_ext. intros m. apply complete_if_current_idem.
  - eexists. split; [exact Hp2|].
    cbn [performance completedTopics quizScores with_quiz_result].
    rewrite <- !app_assoc. split; reflexivity.
Qed.

Lemma repeated_pass_repeats_topic_witness :
  exists p2,
    profile (handleQuizComplete 4 5 (handleQuizComplete 5 5 adaDashboard)) = Some p2 /\
    completedTopics (performance p2) = ["Lenses"; "Lenses"].
Proof.
  destruct (repeated_pass_repeats_topic 5 5 4 5 adaDashboard opticsPath opticsModule
              adaProfile eq_refl eq_refl eq_refl passes_5_5 passes_4_of_5)
    as (_ & p2 & Hp2 & Htopics & _).
  exists p2. split; [exact Hp2|exact Htopics].
Defined.

(** X5. Whatever the score, completing a quiz keeps the module sequence
    in place: the path keeps its estimate and its rationale, and the new
    sequence has, position by position, modules with the same identifier,
    title, description, topics, video and sources.  A status changes only
    to [completed] and only for a module with the identifier of the
    current module; a module that was completed stays so. *)
Theorem quiz_completion_keeps_modules :
  forall (score total : Z) (st : AppState) (path : LearningPath) (cm : Mod.t)
         (p : UserProfile),
    learningPath st = Some path ->
    currentModule st = Some cm ->
    profile st = Some p ->
    exists path',
      learningPath (handleQuizComplete score total st) = Some path' /\
      estimatedWeeks path' = estimatedWeeks path /\
      personalizedReasoning path' = personalizedReasoning path /\
      Forall2 (fun m m' =>
                 sameModuleContent m m' /\
                 (Mod.status m = completed -> Mod.status m' = completed) /\
                 (Mod.status m' <> Mod.status m ->
                  Mod.id m = Mod.id cm /\ Mod.status m' = completed))
              (modules path) (modules path').
Proof.
  intros score total st path cm p Hpath Hcm Hp.
  destruct (handleQuizComplete_guarded score total st path cm p Hpath Hcm Hp)
    as (_ & Hpath' & _).
  eexists. split; [exact Hpath'|]. clear Hpath'.
  destruct (passes score total); cbn [estimatedWeeks personalizedReasoning modules with_modules].
  - split; [reflexivity|]. split; [reflexivity|].
    induction (modules path) as [|m ms IH]; cbn [map]; constructor; [|exact IH].
    unfold complete_if_current, sameModuleContent.
    destruct (String.eqb (Mod.id m) (Mod.id cm)) eqn:E.
    + apply String.eqb_eq in E. cbn. repeat split; auto.
    + repeat split; auto; congruence.
  - split; [reflexivity|]. split; [reflexivity|].
    induction (modules path) as [|m ms IH]; constructor; [|exact IH].
    unfold sameModuleContent. repeat split; auto; congruence.
Qed.

Lemma quiz_completion_keeps_modules_witness :
  exists path',
    learningPath (handleQuizComplete 5 5 adaDashboard) = Some path' /\
    estimatedWeeks path' = 2.
Proof.
  destruct (quiz_completion_keeps_modules 5 5 adaDashboard opticsPath opticsModule adaProfile
              eq_refl eq_refl eq_refl)
    as (path' & Hpath' & Hweeks & _).
  exists path'. split; [exact Hpath'|exact Hweeks].
Defined.

(** ** What is on screen *)

Lemma adaQuizScreen_reachable : appReachable adaQuizScreen.
Proof.
  apply app_start_quiz; [exact adaDashboard_reachable|].
  unfold dashboardShown. cbn. repeat split; discriminate.
Qed.

Lemma completed_in_count (path : LearningPath) (m : Mod.t) :
  In m (modules path) -> Mod.status m = completed -> 0 < completedCount path.
Proof.
  intros Hin Hstatus. unfold completedCount.
  assert (Hf : In m (filter isCompleted (modules path))).
  { apply filter_In. split; [exact Hin|]. unfold isCompleted. now rewrite Hstatus. }
  destruct (filter isCompleted (modules path)); [contradiction|]. cbn [List.length]. lia.
Qed.

(** X6. While the quiz is on screen, a result that passes always marks a
    module of the path on screen: the learning path, the current module
    and the profile that [handleQuizComplete] wants are there, the current
    module is a module of the path by its identifier, and after the call
    the path holds a completed module with that identifier. *)
Theorem passed_quiz_completes_module_on_screen :
  forall (st : AppState) (score total : Z),
    appReachable st ->
    view st = QUIZ ->
    passes score total = true ->
    exists path cm p path' m',
      learningPath st = Some path /\ currentModule st = Some cm /\ profile st = Some p /\
      In (Mod.id cm) (map Mod.id (modules path)) /\
      learningPath (handleQuizComplete score total st) = Some path' /\
      In m' (modules path') /\ Mod.id m' = Mod.id cm /\ Mod.status m' = completed /\
      0 < completedCount path'.
Proof.
  intros st score total Hreach Hview Hpass.
  destruct (appReachable_invariant st Hreach) as [[Hw|[Ho|Hp]] Hquiz]; try congruence.
  destruct (Hquiz Hview) as [Hpath Hcm].
  destruct (learningPath st) as [path|] eqn:Epath; [|contradiction].
  destruct (currentModule st) as [cm|] eqn:Ecm; [|contradiction].
  destruct (profile st) as [p|] eqn:Ep; [|contradiction].
  destruct (appReachable_persistence st Hreach) as (_ & _ & Hcur).
  specialize (Hcur path cm Epath Ecm).
  destruct (handleQuizComplete_guarded score total st path cm p Epath Ecm Ep)
    as (_ & Hpath' & _).
  rewrite Hpass in Hpath'.
  apply in_map_iff in Hcur. destruct Hcur as (m & Hid & Hin).
  assert (Hin' : In (complete_if_current cm m)
                    (modules (with_modules (map (complete_if_current cm) (modules path)) path))).
  { cbn [modules with_modules]. now apply in_map. }
  assert (Hdone : complete_if_current cm m = with_status_completed m).
  { unfold complete_if_current. now rewrite Hid, String.eqb_refl. }
  exists path, cm, p, (with_modules (map (complete_if_current cm) (modules path)) path),
    (complete_if_current cm m).
  repeat (split; [first [reflexivity | assumption | (apply in_map_iff; now exists m)]|]).
  split; [rewrite Hdone; exact Hid|].
  split; [rewrite Hdone; reflexivity|].
  apply (completed_in_count _ (complete_if_current cm m) Hin'). now rewrite Hdone.
Qed.

Lemma passed_quiz_completes_module_on_screen_witness :
  exists path',
    learningPath (handleQuizComplete 5 5 adaQuizScreen) = Some path' /\
    0 < completedCount path'.
Proof.
  destruct (passed_quiz_completes_module_on_screen adaQuizScreen 5 5
              adaQuizScreen_reachable eq_refl passes_5_5)
    as (path & cm & p & path' & m' & _ & _ & _ & _ & Hpath' & _ & _ & _ & Hcount).
  exists path'. split; [exact Hpath'|exact Hcount].
Defined.

Lemma appReachable_screen (st : AppState) : appReachable st -> screenInvariant st.
Proof.
  unfold screenInvariant.
  induction 1 as [svc store st Hmount
                 |st _ IH Hview
                 |svc s userData st _ IH Hview _ _
                 |svc newTopic st _ IH Hdash _
                 |m now st path _ IH Hdash Hpath Hm
                 |now st _ IH Hview Hp Hcm
                 |feedback st _ IH Hview
                 |svc st _ IH Hdash
                 |quiz s s' score total st _ IH Hview Hquiz _ _ _
                 |st _ IH Hview _
                 |st _ IH
                 |st _ IH _ _ _].
  - (* mount *)
    unfold restoreSession in Hmount. cbn [localStorage initialState] in Hmount.
    destruct (truthy (edupal_profile store) && truthy (edupal_path store)).
    + destruct (JSON_parse (edupal_profile store)) as [|p]; [discriminate|].
      destruct (JSON_parse (edupal_path store)) as [|path]; [discriminate|].
      inversion Hmount; subst st; clear Hmount.
      unfold loadSuggestions_detached, loadSuggestions.
      destruct (svc_getRelatedCourseSuggestions svc p); setters; split; discriminate.
    + inversion Hmount; subst st. cbn. split; discriminate.
  - setters. split; discriminate.
  - (* onboarding *)
    unfold handleOnboardingComplete.
    destruct (svc_generateLearningPath svc userData) as [path|e].
    + destruct (loadSuggestions svc userData _) as [st'|e] eqn:Hload.
      * unfold loadSuggestions in Hload.
        destruct (svc_getRelatedCourseSuggestions svc userData); [|discriminate].
        inversion Hload; subst st'. setters. split; discriminate.
      * setters. rewrite Hview. split; discriminate.
    + setters. rewrite Hview. split; discriminate.
  - (* select suggested *)
    destruct Hdash as (Hview & _).
    unfold handleSelectSuggested.
    destruct (profile st) as [p|]; [|rewrite Hview; split; discriminate].
    destruct (svc_generateLearningPath svc (with_topic newTopic p)) as [path|e].
    + unfold loadSuggestions_detached, loadSuggestions.
      destruct (svc_getRelatedCourseSuggestions svc (with_topic newTopic p)); setters;
        split; discriminate.
    + setters. rewrite Hview. split; discriminate.
  - (* select module *)
    destruct Hdash as (_ & Hp & _).
    unfold handleSelectModule. setters. split; [|discriminate].
    intros _. split; [exact Hp|discriminate].
  - (* end session *)
    unfold handleEndSession. destruct (profile st); setters; split; discriminate.
  - (* submit feedback *)
    unfold submitFeedback.
    destruct (profile st); [destruct (learningPath st)|]; setters; split; discriminate.
  - (* start quiz *)
    destruct Hdash as (Hview & _).
    unfold startQuiz.
    destruct (profile st) as [p|]; [|rewrite Hview; split; discriminate].
    destruct (currentModule st) as [m|]; [|rewrite Hview; split; discriminate].
    destruct (svc_generateQuiz svc p (Mod.title m)); setters; rewrite ?Hview;
      split; discriminate.
  - (* quiz complete *)
    unfold handleQuizComplete.
    destruct (learningPath st) as [path|]; [|exact IH].
    destruct (currentModule st) as [cm|] eqn:Ecm; [|rewrite Ecm; exact IH].
    destruct (profile st) as [p|] eqn:Ep; [|rewrite Ep, Ecm; exact IH].
    destruct (passes score total); setters; rewrite Hview, Hquiz;
      split; discriminate.
  - setters. split; discriminate.
  - (* logo *)
    unfold handleLogoClick. destruct (profile st) eqn:Ep.
    + setters. split; discriminate.
    + rewrite Ep. exact IH.
  - cbn. split; discriminate.
Qed.

(** X7. What [App] and [QuizView] ask for before they show the tutoring
    and the quiz screens.  In every state that user events lead to, the
    view Tutoring comes with a profile and a current module and the view
    Quiz with an active quiz: the guards of the render of [App] hold.
    The quiz screen itself needs more: the first render of [QuizView]
    shows a question exactly when the quiz holds a first question, and
    nothing ensures that it does.  From every reachable dashboard with a
    current module, a reply to the quiz prompt that has no text, or whose
    quiz has no question, leads to the view Quiz with a quiz on which the
    render of [QuizView] throws. *)
Theorem quiz_screen_needs_a_question :
  forall st : AppState,
    appReachable st ->
    (view st = TUTORING -> exists p m, profile st = Some p /\ currentModule st = Some m) /\
    (view st = QUIZ ->
     exists qv,
       activeQuiz st = Some qv /\
       forall q,
         renderQuizView qv initialQuizView = QuestionScreen q <->
         exists quiz, qv = QuizObject quiz /\ hd_error (Quiz.questions quiz) = Some q) /\
    (dashboardShown st ->
     forall (g : Gateway) (m : Mod.t) (response : GenerateContentResponse QuizValue),
       currentModule st = Some m ->
       quizReply g = Resolved response ->
       (text response = None \/
        exists title,
          text response =
          Some (Json (QuizObject {| Quiz.title := title; Quiz.questions := [] |}))) ->
       let st' := startQuiz (geminiService g) st in
       appReachable st' /\ view st' = QUIZ /\
       exists qv,
         activeQuiz st' = Some qv /\
         renderQuizView qv initialQuizView = RenderThrows TypeError).
Proof.
  intros st Hreach. destruct (appReachable_screen st Hreach) as [Htut Hquiz].
  split; [|split].
  - intros Hview. destruct (Htut Hview) as [Hp Hm].
    destruct (profile st) as [p|]; [|contradiction].
    destruct (currentModule st) as [m|]; [|contradiction].
    now exists p, m.
  - intros Hview. specialize (Hquiz Hview).
    destruct (activeQuiz st) as [qv|]; [|contradiction].
    exists qv. split; [reflexivity|].
    intros q. destruct qv as [|quiz]; cbn.
    + split; [discriminate|]. intros (quiz & Hq & _). discriminate.
    + destruct (Quiz.questions quiz) as [|q0 rest] eqn:Eqs; cbn.
      * split; [discriminate|]. intros (quiz' & Hq & Hhd).
        inversion Hq; subst quiz'. rewrite Eqs in Hhd. discriminate.
      * split.
        -- intros H. inversion H; subst q0. exists quiz. now rewrite Eqs.
        -- intros (quiz' & Hq & Hhd). inversion Hq; subst quiz'.
           rewrite Eqs in Hhd. now inversion Hhd.
  - intros Hdash g m response Hcm Hreply Htext st'.
    split; [now apply app_start_quiz|].
    subst st'. destruct Hdash as (_ & Hp & _).
    destruct (profile st) as [p|] eqn:Ep; [|contradiction].
    unfold startQuiz. rewrite Ep, Hcm.
    cbn [svc_generateQuiz geminiService]. unfold generateQuiz. rewrite Hreply.
    destruct Htext as [->|(title & ->)]; setters.
    + split; [reflexivity|]. eexists. split; reflexivity.
    + split; [reflexivity|]. eexists. split; reflexivity.
Qed.

Lemma quiz_screen_needs_a_question_witness :
  view (startQuiz (geminiService gatewaySilentQuiz) adaDashboard) = QUIZ /\
  exists qv,
    activeQuiz (startQuiz (geminiService gatewaySilentQuiz) adaDashboard) = Some qv /\
    renderQuizView qv initialQuizView = RenderThrows TypeError.
Proof.
  assert (Hdash : dashboardShown adaDashboard)
    by (unfold dashboardShown; cbn; repeat split; discriminate).
  destruct (proj2 (proj2 (quiz_screen_needs_a_question adaDashboard adaDashboard_reachable))
              Hdash gatewaySilentQuiz opticsModule _ eq_refl eq_refl (or_introl eq_refl))
    as (_ & Hview & Hthrows).
  split; [exact Hview|exact Hthrows].
Defined.

(** ** The onboarding form, once more *)

Lemma onboardingReachable_defaults (s : OnboardingState) :
  onboardingReachable s -> draftDefaults s.
Proof.
  unfold draftDefaults.
  induction 1 as [|s ev s' out _ IH Hev]; [split; reflexivity|].
  unfold onboardingEvent in Hev.
  destruct ev;
    repeat match type of Hev with
           | (if ?c then _ else _) = _ => destruct c; [|discriminate]
           | match ?c with Some _ => _ | None => _ end = _ => destruct c; [|discriminate]
           end;
    inversion Hev; subst s' out; exact IH.
Qed.

(** X8. The only control of the onboarding form that hands a profile to
    [onComplete] is the launch button of the third step, it leaves the
    form as it is, and on the third step it is always available.  The
    profile it hands over has name, class, subject and topic filled in,
    and always carries the learning style [MIXED] and one hour per day:
    the form has no control for either. *)
Theorem onboarding_launch_profile :
  forall s : OnboardingState,
    onboardingReachable s ->
    (forall ev s' p,
        onboardingEvent ev s = Some (s', Some p) ->
        ev = ClickLaunch /\ s' = s /\ step s = 3 /\ validDraft p /\
        style p = MIXED /\ timePerDay p = 1) /\
    (step s = 3 -> exists p, onboardingEvent ClickLaunch s = Some (s, Some p)).
Proof.
  intros s Hreach. split.
  - intros ev s' p Hev.
    assert (Hlaunch : ev = ClickLaunch /\ step s = 3).
    { unfold onboardingEvent in Hev.
      destruct ev;
        repeat match type of Hev with
               | (if ?c then _ else _) = _ => destruct c eqn:?; [|discriminate]
               end;
        try discriminate.
      split; [reflexivity|]. now apply Z.eqb_eq. }
    destruct Hlaunch as [-> Hstep].
    destruct (onboarding_launch_total s Hreach Hstep) as (q & Hq & Hvalid).
    rewrite Hq in Hev. inversion Hev; subst s' q.
    destruct (onboardingReachable_defaults s Hreach) as [Hstyle Htime].
    repeat (split; [first [reflexivity | assumption]|]).
    unfold onboardingEvent, as_UserProfile in Hq. rewrite Hstep in Hq.
    cbn [Z.eqb Pos.eqb] in Hq.
    destruct (d_name (data s)), (d_classInfo (data s)), (d_subject (data s)),
      (d_topic (data s)); try discriminate.
    inversion Hq; subst p. cbn [style timePerDay]. split; assumption.
  - intros Hstep. destruct (onboarding_launch_total s Hreach Hstep) as (q & Hq & _).
    now exists q.
Qed.

Lemma onboarding_launch_profile_witness :
  exists p, onboardingEvent ClickLaunch filledOnboarding = Some (filledOnboarding, Some p).
Proof.
  exact (proj2 (onboarding_launch_profile filledOnboarding filledOnboarding_reachable) eq_refl).
Defined.

(** ** The generated path and the suggestions *)

Lemma or_string_nonempty (s : option string) (d : string) :
  d <> EmptyString -> or_string s d <> EmptyString.
Proof.
  intros Hd. unfold or_string. destruct s as [v|]; [|exact Hd].
  destruct (String.eqb v EmptyString) eqn:E; [exact Hd|].
  now apply String.eqb_neq.
Qed.

Lemma grounding_sources_wellformed (chunks : list GroundingChunk) :
  Forall (fun s => Source.uri s <> EmptyString /\ Source.title s <> EmptyString)
         (grounding_sources chunks).
Proof.
  unfold grounding_sources. apply Forall_forall. intros s Hin.
  apply filter_In in Hin. destruct Hin as [Hin Huri].
  split.
  - apply negb_true_iff in Huri. now apply String.eqb_neq.
  - apply in_map_iff in Hin. destruct Hin as (chunk & <- & _).
    unfold chunk_source. cbn [Source.title]. apply or_string_nonempty. discriminate.
Qed.

(** A chunk with an address gives the source with that address, under
    the title of the chunk or, without one, the stock title. *)
Lemma chunk_source_kept (chunks : list GroundingChunk) (chunk : GroundingChunk) (u : string) :
  In chunk chunks -> chunkAddress chunk = Some u ->
  In {| Source.uri := u;
        Source.title := match chunkTitle chunk with
                        | Some t => t
                        | None => "Educational Context"
                        end |}
     (grounding_sources chunks).
Proof.
  intros Hin Haddr. unfold grounding_sources. apply filter_In. split.
  - apply in_map_iff. exists chunk. split; [|exact Hin].
    unfold chunk_source, chunkAddress, chunkTitle, or_string in *.
    destruct (web chunk) as [w|]; [|discriminate].
    destruct (web_uri w) as [v|]; [|discriminate].
    destruct (String.eqb v EmptyString) eqn:Ev; [discriminate|].
    inversion Haddr; subst v. f_equal.
    destruct (web_title w) as [t|]; [|reflexivity].
    destruct (String.eqb t EmptyString); reflexivity.
  - cbn [Source.uri]. unfold chunkAddress in Haddr.
    destruct (web chunk) as [w|]; [|discriminate].
    destruct (web_uri w) as [v|]; [|discriminate].
    destruct (String.eqb v EmptyString) eqn:Ev; [discriminate|].
    inversion Haddr; subst v. now rewrite Ev.
Qed.

(** Every source comes from a chunk with that address, and there are as
    many sources as chunks with an address. *)
Lemma grounding_sources_from_chunks (chunks : list GroundingChunk) :
  (forall s, In s (grounding_sources chunks) ->
             exists chunk, In chunk chunks /\ chunkAddress chunk = Some (Source.uri s)) /\
  List.length (grounding_sources chunks) =
  List.length (filter (fun chunk => match chunkAddress chunk with
                                    | Some _ => true
                                    | None => false
                                    end) chunks).
Proof.
  unfold grounding_sources. split.
  - intros s Hin. apply filter_In in Hin. destruct Hin as [Hin Huri].
    apply in_map_iff in Hin. destruct Hin as (chunk & <- & Hin).
    exists chunk. split; [exact Hin|].
    unfold chunk_source, chunkAddress, or_string in *. cbn [Source.uri] in *.
    destruct (web chunk) as [w|]; [|discriminate].
    destruct (web_uri w) as [v|]; [|discriminate].
    destruct (String.eqb v EmptyString); [discriminate|reflexivity].
  - induction chunks as [|chunk chunks IH]; [reflexivity|].
    cbn [map filter].
    assert (Hsame : negb (String.eqb (Source.uri (chunk_source chunk)) EmptyString) =
                    match chunkAddress chunk with Some _ => true | None => false end).
    { unfold chunk_source, chunkAddress, or_string. cbn [Source.uri].
      destruct (web chunk) as [w|]; [|reflexivity].
      destruct (web_uri w) as [v|]; [|reflexivity].
      destruct (String.eqb v EmptyString) eqn:Ev; [reflexivity|]. now rewrite Ev. }
    rewrite Hsame. destruct (chunkAddress chunk); cbn [List.length]; now rewrite IH.
Qed.

(** X9. The sources of a path that [generateLearningPath] resolves to.
    All its modules carry the same sources: either none, or a non-empty
    list in which every entry has a non-empty address and a non-empty
    title; never an empty list.  When the reply holds a module array, the
    path has its modules in the same order with the same identifiers,
    titles and videos, and the estimate of the reply.  Its sources are
    then the grounding chunks that have an address, no more and no fewer:
    every such chunk is a source of every module, under its own title or,
    when it has none, under the title Educational Context; every source
    has the address of such a chunk; there are as many sources as such
    chunks; and the modules carry no sources exactly when no chunk has an
    address. *)
Theorem generated_path_sources :
  forall (reply : Promise (GenerateContentResponse PathValue)) (p : UserProfile)
         (path : LearningPath),
    generateLearningPath reply p = Resolved path ->
    (exists shared, forall m, In m (modules path) -> Mod.sources m = shared) /\
    (forall m srcs,
        In m (modules path) -> Mod.sources m = Some srcs ->
        srcs <> [] /\
        Forall (fun s => Source.uri s <> EmptyString /\ Source.title s <> EmptyString) srcs) /\
    (forall response raw,
        reply = Resolved response ->
        text response = Some (Json (PathObject raw)) ->
        map Mod.id (modules path) = map raw_id (raw_modules raw) /\
        map Mod.title (modules path) = map raw_title (raw_modules raw) /\
        map Mod.videoUrl (modules path) = map raw_videoUrl (raw_modules raw) /\
        estimatedWeeks path = raw_estimatedWeeks raw /\
        forall m,
          In m (modules path) ->
          (forall chunk u,
              In chunk (groundingChunks response) -> chunkAddress chunk = Some u ->
              exists srcs,
                Mod.sources m = Some srcs /\
                In {| Source.uri := u;
                      Source.title := match chunkTitle chunk with
                                      | Some t => t
                                      | None => "Educational Context"
                                      end |} srcs) /\
          (forall srcs s,
              Mod.sources m = Some srcs -> In s srcs ->
              exists chunk,
                In chunk (groundingChunks response) /\
                chunkAddress chunk = Some (Source.uri s)) /\
          (forall srcs,
              Mod.sources m = Some srcs ->
              List.length srcs =
              List.length (filter (fun chunk => match chunkAddress chunk with
                                                | Some _ => true
                                                | None => false
                                                end) (groundingChunks response))) /\
          (Mod.sources m = None <->
           forall chunk, In chunk (groundingChunks response) -> chunkAddress chunk = None)).
Proof.
  intros reply p path Hgen.
  unfold generateLearningPath in Hgen.
  destruct (tryGenerateLearningPath reply) as [gp|] eqn:Htry.
  - inversion Hgen; subst path; clear Hgen.
    unfold tryGenerateLearningPath in Htry.
    destruct reply as [response|e]; [|discriminate].
    destruct (text response) as [[|[|raw]]|] eqn:Htext; try discriminate.
    inversion Htry; subst gp; clear Htry. cbn [modules estimatedWeeks].
    pose proof (grounding_sources_wellformed (groundingChunks response)) as Hwf.
    pose proof (chunk_source_kept (groundingChunks response)) as Hkept.
    destruct (grounding_sources_from_chunks (groundingChunks response)) as [Hfrom Hcount].
    set (srcs := grounding_sources (groundingChunks response)) in *.
    split; [|split].
    + exists (match srcs with [] => None | _ => Some srcs end).
      intros m Hin. apply in_map_iff in Hin. destruct Hin as (rm & <- & _). reflexivity.
    + intros m srcs' Hin Hsrc. apply in_map_iff in Hin. destruct Hin as (rm & <- & _).
      cbn [unlock Mod.sources] in Hsrc.
      destruct srcs as [|s0 rest] eqn:Es; [discriminate|].
      inversion Hsrc; subst srcs'. split; [discriminate|exact Hwf].
    + intros response' raw' Hr Ht. inversion Hr; subst response'.
      rewrite Htext in Ht. inversion Ht; subst raw'.
      rewrite !map_map. repeat (split; [reflexivity|]).
      intros m Hin. apply in_map_iff in Hin. destruct Hin as (rm & <- & _).
      cbn [unlock Mod.sources].
      split; [|split; [|split]].
      * intros chunk u Hchunk Haddr. specialize (Hkept chunk u Hchunk Haddr).
        destruct srcs as [|s0 rest]; [contradiction|].
        eexists. split; [reflexivity|exact Hkept].
      * intros srcs' s Hsrc Hs.
        destruct srcs as [|s0 rest]; [discriminate|].
        inversion Hsrc; subst srcs'. now apply Hfrom.
      * intros srcs' Hsrc.
        destruct srcs as [|s0 rest]; [discriminate|].
        inversion Hsrc; subst srcs'. exact Hcount.
      * split.
        -- intros Hnone chunk Hchunk.
           destruct (chunkAddress chunk) as [u|] eqn:Haddr; [|reflexivity].
           specialize (Hkept chunk u Hchunk Haddr).
           destruct srcs; [contradiction|discriminate].
        -- intros Hall. destruct srcs as [|s0 rest]; [reflexivity|].
           destruct (Hfrom s0 (or_introl eq_refl)) as (chunk & Hchunk & Haddr).
           rewrite (Hall chunk Hchunk) in Haddr. discriminate.
  - inversion Hgen; subst path; clear Hgen. cbn [modules fallbackPath].
    split; [|split].
    + exists None. intros m [<-|[]]. reflexivity.
    + intros m srcs [<-|[]] Hsrc. discriminate.
    + intros response raw Hr Ht. subst reply.
      unfold tryGenerateLearningPath in Htry. rewrite Ht in Htry. discriminate.
Qed.

Lemma generated_path_sources_witness :
  exists path m srcs,
    generateLearningPath (Resolved groundedReply) adaProfile = Resolved path /\
    In m (modules path) /\ Mod.sources m = Some srcs /\ List.length srcs = 2%nat /\
    In {| Source.uri := "https://example.org/lenses"; Source.title := "Educational Context" |}
       srcs.
Proof.
  eexists. exists (unlock (grounding_sources (groundingChunks groundedReply))
                     {| raw_id := "m1"; raw_title := "Lenses";
                        raw_description := "Thin lenses";
                        raw_topics := ["Refraction"];
                        raw_videoUrl := Some "https://youtu.be/abcdefghijk" |}).
  destruct (generated_path_sources (Resolved groundedReply) adaProfile _ eq_refl)
    as (_ & _ & Hreply).
  destruct (Hreply groundedReply _ eq_refl eq_refl) as (_ & _ & _ & _ & Hsources).
  destruct (Hsources _ (or_introl eq_refl)) as (Hkept & _ & Hcount & _).
  destruct (Hkept {| web := Some {| web_uri := Some "https://example.org/lenses";
                                    web_title := None |} |}
              "https://example.org/lenses" (or_introl eq_refl) eq_refl)
    as (srcs & Hsrcs & Hin).
  exists srcs. split; [reflexivity|]. split; [now left|]. split; [exact Hsrcs|].
  split; [exact (Hcount srcs Hsrcs)|exact Hin].
Defined.

Lemma mentions_intro (pre sub suf : string) : mentions (pre ++ sub ++ suf)%string sub.
Proof. now exists pre, suf. Qed.

Lemma append_empty_r (s : string) : (s ++ EmptyString)%string = s.
Proof. induction s as [|c s IH]; [reflexivity|]. cbn. now rewrite IH. Qed.

(** X10. [getRelatedCourseSuggestions] never rejects.  When the call
    fails or its text is not JSON it resolves to exactly five titles, each
    of which contains the topic of the profile; a reply without text gives
    no title at all, and a reply that parses gives its titles as they are,
    however many. *)
Theorem suggestions_never_reject :
  forall (reply : Promise (GenerateContentResponse (list string))) (p : UserProfile),
    exists titles,
      getRelatedCourseSuggestions reply p = Resolved titles /\
      match reply with
      | Rejected _ =>
          List.length titles = 5%nat /\ Forall (fun t => mentions t (topic p)) titles
      | Resolved response =>
          match text response with
          | None => titles = []
          | Some NotJson =>
              List.length titles = 5%nat /\ Forall (fun t => mentions t (topic p)) titles
          | Some (Json given) => titles = given
          end
      end.
Proof.
  intros reply p.
  assert (Hfb : List.length (fallbackSuggestions p) = 5%nat /\
                Forall (fun t => mentions t (topic p)) (fallbackSuggestions p)).
  { split; [reflexivity|]. unfold fallbackSuggestions.
    repeat constructor.
    - apply mentions_intro.
    - rewrite <- (append_empty_r (topic p)) at 1. apply mentions_intro.
    - apply mentions_intro.
    - rewrite <- (append_empty_r (topic p)) at 1. apply mentions_intro.
    - exists EmptyString, " Masterclass". reflexivity. }
  unfold getRelatedCourseSuggestions.
  destruct reply as [response|e]; [|eexists; split; [reflexivity|exact Hfb]].
  destruct (text response) as [[|given]|]; eexists; (split; [reflexivity|]);
    first [exact Hfb | reflexivity].
Qed.

(** ** startQuiz and the result screen *)

(** X11. [startQuiz] leaves the profile, the learning path, the current
    module and the store as they are, whatever the gateway answers, and
    does nothing at all without a profile or a current module.  With both,
    the quiz screen is shown exactly when the quiz was generated; when the
    generation fails the view and the active quiz are kept, the error is
    logged and the loading overlay is taken down. *)
Theorem startQuiz_frame :
  forall (svc : Services) (st : AppState),
    let st' := startQuiz svc st in
    profile st' = profile st /\ learningPath st' = learningPath st /\
    currentModule st' = currentModule st /\ localStorage st' = localStorage st /\
    match profile st, currentModule st with
    | Some p, Some m =>
        isLoading st' = false /\
        match svc_generateQuiz svc p (Mod.title m) with
        | Resolved quiz =>
            view st' = QUIZ /\ activeQuiz st' = Some quiz /\ console st' = console st
        | Rejected e =>
            view st' = view st /\ activeQuiz st' = activeQuiz st /\
            console st' = console st ++ [e]
        end
    | _, _ => st' = st
    end.
Proof.
  intros svc st. cbn zeta. unfold startQuiz.
  destruct (profile st) as [p|] eqn:Ep; [|rewrite Ep; repeat split].
  destruct (currentModule st) as [m|] eqn:Em; [|rewrite Ep, Em; repeat split].
  destruct (svc_generateQuiz svc p (Mod.title m)); setters; rewrite ?Ep, ?Em; repeat split.
Qed.

(** X12. The result screen of [QuizView] shows what was reported.  When
    [handleNext] completes a quiz, the state it
    leaves shows the result, and the score and the pass flag that the
    result screen computes from the recorded answers are the score given
    to [onComplete] and the outcome of the pass test that
    [handleQuizComplete] applies to it: the badge says passed exactly
    when the module was marked. *)
Theorem result_screen_agrees :
  forall (quiz : Quiz.t) (s s' : QuizViewState) (score total : Z),
    handleNext quiz s = NextCompleted s' score total ->
    showResult s' = true /\
    total = Z.of_nat (List.length (Quiz.questions quiz)) /\
    quizResult quiz s' = Some (score, passes score total).
Proof.
  intros quiz s s' score total Hnext.
  unfold handleNext in Hnext.
  destruct (selected s) as [sel|]; [|discriminate].
  destruct (currentIdx s <? Z.of_nat (List.length (Quiz.questions quiz)) - 1);
    [discriminate|].
  destruct (reduceScore (Quiz.questions quiz) 0 (answers s ++ [sel]) 0) as [sc|] eqn:Hred;
    [|discriminate].
  inversion Hnext; subst s' score total; clear Hnext.
  split; [reflexivity|]. split; [reflexivity|].
  unfold quizResult. cbn [answers]. rewrite Hred. reflexivity.
Qed.

Lemma result_screen_agrees_witness :
  exists s',
    handleNext oneQuestionQuiz (setSelected 0 initialQuizView) = NextCompleted s' 1 1 /\
    quizResult oneQuestionQuiz s' = Some (1, passes 1 1).
Proof.
  eexists. split; [reflexivity|].
  exact (proj2 (proj2 (result_screen_agrees oneQuestionQuiz
                         (setSelected 0 initialQuizView) _ 1 1 eq_refl))).
Defined.

(** ** Choosing a suggested topic *)

Lemma generated_modules_current (reply : Promise (GenerateContentResponse PathValue))
    (p : UserProfile) (path : LearningPath) :
  generateLearningPath reply p = Resolved path ->
  forall m, In m (modules path) -> Mod.status m = current.
Proof.
  intros Hgen m Hin. unfold generateLearningPath in Hgen.
  destruct (tryGenerateLearningPath reply) as [gp|] eqn:Htry.
  - inversion Hgen; subst path; clear Hgen.
    unfold tryGenerateLearningPath in Htry.
    destruct reply as [response|e]; [|discriminate].
    destruct (text response) as [[|[|raw]]|]; try discriminate.
    inversion Htry; subst gp; clear Htry. cbn [modules] in Hin.
    apply in_map_iff in Hin. destruct Hin as (rm & <- & _). reflexivity.
  - inversion Hgen; subst path; clear Hgen.
    cbn [modules fallbackPath] in Hin. destruct Hin as [<-|[]]. reflexivity.
Qed.

Lemma none_completed_count (path : LearningPath) :
  (forall m, In m (modules path) -> Mod.status m = current) -> completedCount path = 0.
Proof.
  intros H. unfold completedCount.
  replace (filter isCompleted (modules path)) with (@nil Mod.t); [reflexivity|].
  symmetry. induction (modules path) as [|m ms IH]; [reflexivity|].
  cbn [filter]. unfold isCompleted at 1. rewrite (H m) by now left.
  apply IH. intros m' Hin. apply H. now right.
Qed.

(** X13. Choosing a suggested topic starts over, whatever the gateway
    answers.  With a profile present the handler ends on the dashboard;
    the learning path is the one that [generateLearningPath] resolves to
    for the profile with the new topic, with nothing of the old path in
    it: every module is [current] and none counts as completed; its first
    module is the current module.  The profile keeps everything but the
    topic, its performance record included, and both are stored.  Without
    a profile the handler does nothing. *)
Theorem selectSuggested_starts_over :
  forall (g : Gateway) (newTopic : string) (st : AppState),
    let st' := handleSelectSuggested (geminiService g) newTopic st in
    match profile st with
    | None => st' = st
    | Some p =>
        exists path,
          generateLearningPath (pathReply g) (with_topic newTopic p) = Resolved path /\
          view st' = DASHBOARD /\
          profile st' = Some (with_topic newTopic p) /\
          performance (with_topic newTopic p) = performance p /\
          learningPath st' = Some path /\
          currentModule st' = hd_error (modules path) /\
          (forall m, In m (modules path) -> Mod.status m = current) /\
          completedCount path = 0 /\
          storedPair (localStorage st') (with_topic newTopic p) path
    end.
Proof.
  intros g newTopic st. cbn zeta.
  destruct (profile st) as [p|] eqn:Ep.
  - destruct (generateLearningPath_resolves (pathReply g) (with_topic newTopic p))
      as [path Hgen].
    destruct (handleSelectSuggested_resolved (geminiService g) newTopic st p path Ep Hgen)
      as (Hview & Hp & Hpath & Hcm & Hstore & _).
    pose proof (generated_modules_current _ _ _ Hgen) as Hcur.
    exists path. repeat (split; [first [reflexivity | assumption]|]).
    split; [now apply none_completed_count|exact Hstore].
  - unfold handleSelectSuggested. now rewrite Ep.
Qed.

(** ** TutorSessionView *)

Lemma greeting_nonempty (p : UserProfile) (m : Mod.t) : greeting p m <> EmptyString.
Proof. unfold greeting. cbn. discriminate. Qed.

Lemma getTutorResponse_nonempty
    (reply : UserProfile -> string -> list (ContentRole * string) -> Promise (option string))
    (history : list Message) (p : UserProfile) (title answer : string) :
  getTutorResponse reply history p title = Resolved answer -> answer <> EmptyString.
Proof.
  unfold getTutorResponse.
  destruct (reply p title (tutorContents history)) as [text|e]; [|discriminate].
  intros H. inversion H. apply or_string_nonempty. discriminate.
Qed.

(** One call of [handleSend] that is left to run to its end is its first
    half followed, when the guard let it through, by its second half on
    the outcome of the request. *)
Lemma handleSend_halves
    (tutor : list Message -> UserProfile -> string -> Promise string)
    (p : UserProfile) (m : Mod.t) (now1 now2 : Z) (s : TutorState) :
  handleSend tutor p m now1 now2 s =
  match handleSend_request now1 s with
  | None => s
  | Some (s', history) => handleSend_settle (tutor history p (Mod.title m)) now2 s'
  end.
Proof.
  unfold handleSend, handleSend_request, handleSend_settle.
  destruct (String.eqb (trim (input s)) EmptyString || isTyping s); reflexivity.
Qed.

(** X14. The transcript of a tutoring session, in every state that
    typing, sending and the arrival of replies lead to, with
    [getTutorResponse] as the tutor and whatever the gateway answers;
    the student may type and press Enter while a reply is awaited.  The
    transcript starts with the greeting of the assistant and is never
    empty; every message is the student's or the assistant's; no message
    of the student is blank and no message of the assistant is empty (an
    empty reply of the model is replaced by the stock nudge).  At most one
    reply is awaited at a time: the typing indicator is on exactly while
    one is, the transcript then ends with the message of the student that
    was sent, and the awaited reply is the one to that very transcript. *)
Theorem transcript_wellformed :
  forall (reply : UserProfile -> string -> list (ContentRole * string)
                  -> Promise (option string))
         (p : UserProfile) (m : Mod.t) (s : TutorState) (awaited : list (Promise string)),
    tutorReachable (getTutorResponse reply) p m s awaited ->
    oneRequestAtMost (getTutorResponse reply) p m s awaited /\
    (exists now rest, messages s = greetingMessage p m now :: rest) /\
    Forall wellFormedMessage (messages s).
Proof.
  intros reply p m s awaited Hreach.
  induction Hreach as [now
                      |s awaited v _ IH
                      |s awaited now1 s' history _ IH Hsend
                      |s before outcome after now2 _ IH].
  - split; [left; now split|]. split; [now exists now, []|].
    repeat constructor. unfold wellFormedMessage. cbn. apply greeting_nonempty.
  - exact IH.
  - destruct IH as (Hone & (now & rest & Hmsgs) & Hwf).
    unfold handleSend_request in Hsend.
    destruct (String.eqb (trim (input s)) EmptyString) eqn:Eblank; [discriminate|].
    destruct (isTyping s) eqn:Etyping; [discriminate|].
    cbn [orb] in Hsend. inversion Hsend; subst s' history; clear Hsend.
    destruct Hone as [[-> _]|(_ & Hon & _)]; [|congruence].
    apply String.eqb_neq in Eblank.
    cbn [messages isTyping setMessages setInput setIsTyping app].
    split; [|split].
    + right. split; [reflexivity|]. split; [reflexivity|].
      eexists. eexists. split; reflexivity.
    + rewrite Hmsgs. cbn [app]. eexists. eexists. reflexivity.
    + apply Forall_app. split; [exact Hwf|]. constructor; [exact Eblank|constructor].
  - destruct IH as (Hone & (now & rest & Hmsgs) & Hwf).
    destruct Hone as [[Hnil _]|(Hawaited & _ & _)].
    { destruct before; discriminate. }
    assert (Hparts : before = [] /\ after = [] /\
                     outcome = getTutorResponse reply (messages s) p (Mod.title m)).
    { destruct before as [|x before].
      - cbn [app] in Hawaited. inversion Hawaited. now repeat split.
      - cbn [app] in Hawaited. inversion Hawaited. destruct before; discriminate. }
    destruct Hparts as (-> & -> & ->). cbn [app]. unfold handleSend_settle.
    destruct (getTutorResponse reply (messages s) p (Mod.title m)) as [answer|e] eqn:Ereply;
      cbn [messages isTyping setMessages setIsTyping tutor_console_error].
    + split; [left; now split|]. split.
      * rewrite Hmsgs. cbn [app]. eexists. eexists. reflexivity.
      * apply Forall_app. split; [exact Hwf|].
        repeat constructor. unfold wellFormedMessage. cbn [role content].
        exact (getTutorResponse_nonempty _ _ _ _ _ Ereply).
    + split; [left; now split|]. split; [now exists now, rest|exact Hwf].
Qed.

Lemma transcript_wellformed_witness :
  exists s awaited,
    tutorReachable (getTutorResponse (tutorSays "Why?")) adaProfile opticsModule s awaited /\
    awaited <> [] /\ isTyping s = true /\
    Forall wellFormedMessage (messages s).
Proof.
  assert (Hreach :
            tutorReachable (getTutorResponse (tutorSays "Why?")) adaProfile opticsModule
              (setInput "and then"
                 (setIsTyping true
                    (setInput EmptyString
                       (setMessages
                          [ greetingMessage adaProfile opticsModule 1;
                            {| role := user; content := "Light bends."; timestamp := 2 |} ]
                          (setInput "Light bends." (initialTutor adaProfile opticsModule 1))))))
              ([] ++ [getTutorResponse (tutorSays "Why?")
                        [ greetingMessage adaProfile opticsModule 1;
                          {| role := user; content := "Light bends."; timestamp := 2 |} ]
                        adaProfile (Mod.title opticsModule)])).
  { apply tutor_type.
    apply (tutor_send _ _ _ (setInput "Light bends." (initialTutor adaProfile opticsModule 1))
             [] 2 _
             [ greetingMessage adaProfile opticsModule 1;
               {| role := user; content := "Light bends."; timestamp := 2 |} ]).
    - apply tutor_type, tutor_init.
    - reflexivity. }
  eexists. eexists. split; [exact Hreach|].
  destruct (transcript_wellformed _ _ _ _ _ Hreach) as ([[Hnone _]|(_ & Hon & _)] & _ & Hwf).
  - discriminate Hnone.
  - split; [discriminate|]. split; [exact Hon|exact Hwf].
Defined.

(** X15. What one call of [handleSend] does when no reply is pending.
    Blank input: nothing.  Otherwise the input is cleared and the message
    of the student is appended, and the request sent to the model is the
    whole transcript in order with that message last.  When the call
    resolves, the reply is appended after it; when it rejects, the
    student's message stays in the transcript unanswered and the error is
    logged.  The transcript only ever grows at its end. *)
Theorem handleSend_outcome :
  forall (reply : UserProfile -> string -> list (ContentRole * string)
                  -> Promise (option string))
         (p : UserProfile) (m : Mod.t) (now1 now2 : Z) (s : TutorState),
    isTyping s = false ->
    let s' := handleSend (getTutorResponse reply) p m now1 now2 s in
    let userMsg := {| role := user; content := input s; timestamp := now1 |} in
    let request := tutorContents (messages s) ++ [(role_user, input s)] in
    if String.eqb (trim (input s)) EmptyString then s' = s
    else
      input s' = EmptyString /\ isTyping s' = false /\
      match reply p (Mod.title m) request with
      | Resolved text =>
          messages s' =
            messages s ++ [userMsg;
                           {| role := assistant; content := or_string text nudge;
                              timestamp := now2 |}] /\
          tutorConsole s' = tutorConsole s
      | Rejected e =>
          messages s' = messages s ++ [userMsg] /\
          tutorConsole s' = tutorConsole s ++ [e]
      end.
Proof.
  intros reply p m now1 now2 s Htyping. cbn zeta.
  unfold handleSend. rewrite Htyping, orb_false_r.
  destruct (String.eqb (trim (input s)) EmptyString); [reflexivity|].
  cbn zeta. cbn [messages setMessages setInput setIsTyping].
  unfold getTutorResponse, tutorContents. rewrite map_app. cbn [map role content].
  destruct (reply p (Mod.title m) _) as [text|e];
    cbn [messages input isTyping tutorConsole setMessages setInput setIsTyping
         tutor_console_error].
  - rewrite <- app_assoc. repeat split.
  - repeat split.
Qed.

Lemma handleSend_outcome_witness :
  messages (handleSend (getTutorResponse (tutorSays "Why?")) adaProfile opticsModule 2 3
              (setInput "Light bends." (initialTutor adaProfile opticsModule 1)))
  = [ greetingMessage adaProfile opticsModule 1;
      {| role := user; content := "Light bends."; timestamp := 2 |};
      {| role := assistant; content := "Why?"; timestamp := 3 |} ].
Proof.
  exact (proj1 (proj2 (proj2 (handleSend_outcome (tutorSays "Why?") adaProfile opticsModule 2 3
                                (setInput "Light bends." (initialTutor adaProfile opticsModule 1))
                                eq_refl)))).
Defined.

(** ** The progress ring of the dashboard *)

Lemma completedCount_bounds (path : LearningPath) :
  0 <= completedCount path <= Z.of_nat (List.length (modules path)).
Proof.
  unfold completedCount. split; [lia|].
  apply Nat2Z.inj_le, filter_length_le.
Qed.

Lemma all_completed_count (path : LearningPath) :
  (forall m, In m (modules path) -> Mod.status m = completed) ->
  completedCount path = Z.of_nat (List.length (modules path)).
Proof.
  intros H. unfold completedCount. f_equal. f_equal.
  induction (modules path) as [|m ms IH]; [reflexivity|].
  cbn [filter]. unfold isCompleted at 1. rewrite (H m) by now left.
  f_equal. apply IH. intros m' Hin. apply H. now right.
Qed.

(** X16. The percentage on the progress ring, for a path of fewer than
    2^32 modules (the bound of a JavaScript array).  With at least one
    module, completed / length * 100 is a finite number and its rounding
    is an integer between 0 and 100: it is 100 when every module is
    completed and 0 when none is.  For a path without modules the
    quotient is 0 / 0, and the number handed to [Math.round] is NaN. *)
Theorem progress_is_percentage :
  forall path : LearningPath,
    Z.of_nat (List.length (modules path)) < 2 ^ 32 ->
    match modules path with
    | [] => progressRatio path = S754_nan
    | _ :: _ =>
        isFiniteNumber (progressRatio path) /\
        0 <= progress path <= 100 /\
        ((forall m, In m (modules path) -> Mod.status m = completed) ->
         progress path = 100) /\
        (completedCount path = 0 -> progress path = 0)
    end.
Proof.
  intros path Hlen.
  destruct (modules path) as [|m0 ms] eqn:Hms.
  - unfold progressRatio, completedCount. rewrite Hms. reflexivity.
  - assert (Hpos : 0 < Z.of_nat (List.length (modules path)) < 2 ^ 53).
    { rewrite Hms in *. cbn [List.length] in *.
      change (2 ^ 53) with 9007199254740992. change (2 ^ 32) with 4294967296 in Hlen. lia. }
    pose proof (completedCount_bounds path) as Hcount.
    destruct (percent_bounds (completedCount path) (Z.of_nat (List.length (modules path)))
                Hcount Hpos) as [Hfin Hrange].
    rewrite <- Hms.
    split; [exact Hfin|]. split; [exact Hrange|]. split.
    + intros Hall. unfold progress, progressRatio.
      rewrite (all_completed_count path Hall). now apply percent_full.
    + intros Hnone. unfold progress, progressRatio. rewrite Hnone. now apply percent_none.
Qed.

Lemma progress_is_percentage_witness :
  0 <= progress opticsPathLensesDone <= 100.
Proof.
  exact (proj1 (proj2 (progress_is_percentage opticsPathLensesDone ltac:(cbn; lia)))).
Defined.

(** The ring of Ada after the first of her two modules. *)
Example progress_one_of_two : progress opticsPathLensesDone = 50.
Proof. vm_compute. reflexivity. Qed.

(** ** averageAccuracy as a percentage *)

Lemma avgAccuracy_bounds (scores : list Z) :
  scores <> [] ->
  Forall scoreOutOfFive scores ->
  Z.of_nat (List.length scores) < 2 ^ 32 ->
  0 <= avgAccuracy scores <= 100 /\
  (Forall (fun s => s = 5) scores -> avgAccuracy scores = 100).
Proof.
  intros Hne Hall Hlen.
  assert (Hpos : 0 < Z.of_nat (List.length scores) * 5 < 2 ^ 53).
  { destruct scores; [contradiction|]. cbn [List.length] in *.
    change (2 ^ 53) with 9007199254740992. change (2 ^ 32) with 4294967296 in Hlen. lia. }
  pose proof (sumScores_bounds scores Hall) as Hsum.
  unfold avgAccuracy. rewrite reduceSum_exact by (exact Hall || lia).
  rewrite mul_of_Z_5 by lia.
  split.
  - now apply percent_bounds.
  - intros Hfive. rewrite (sumScores_all_five scores Hfive). now apply percent_full.
Qed.

(** X17. [averageAccuracy] is a percentage as long as every score is out
    of five.  When the scores recorded so far (fewer than 2^32 - 1 of
    them) and the new score all lie between 0 and 5, the accuracy that
    [handleQuizComplete] stores lies between 0 and 100, and it is 100
    when all of them are 5. *)
Theorem averageAccuracy_is_percentage :
  forall (score total : Z) (st : AppState) (path : LearningPath) (cm : Mod.t)
         (p : UserProfile),
    learningPath st = Some path ->
    currentModule st = Some cm ->
    profile st = Some p ->
    Forall scoreOutOfFive (quizScores (performance p)) ->
    scoreOutOfFive score ->
    Z.of_nat (List.length (quizScores (performance p))) < 2 ^ 32 - 1 ->
    exists p',
      profile (handleQuizComplete score total st) = Some p' /\
      Forall scoreOutOfFive (quizScores (performance p')) /\
      0 <= averageAccuracy (performance p') <= 100 /\
      (Forall (fun s => s = 5) (quizScores (performance p')) ->
       averageAccuracy (performance p') = 100).
Proof.
  intros score total st path cm p Hpath Hcm Hp Hold Hnew Hlen.
  destruct (handleQuizComplete_guarded score total st path cm p Hpath Hcm Hp) as (Hp' & _).
  eexists. split; [exact Hp'|].
  cbn [performance quizScores averageAccuracy with_quiz_result].
  assert (Hall : Forall scoreOutOfFive (quizScores (performance p) ++ [score])).
  { apply Forall_app. split; [exact Hold|]. constructor; [exact Hnew|constructor]. }
  split; [exact Hall|].
  apply avgAccuracy_bounds.
  - destruct (quizScores (performance p)); discriminate.
  - exact Hall.
  - rewrite length_app. cbn [List.length].
    change (2 ^ 32) with 4294967296 in *. lia.
Qed.

Lemma averageAccuracy_is_percentage_witness :
  exists p',
    profile (handleQuizComplete 3 5 adaDashboard) = Some p' /\
    0 <= averageAccuracy (performance p') <= 100.
Proof.
  destruct (averageAccuracy_is_percentage 3 5 adaDashboard opticsPath opticsModule adaProfile
              eq_refl eq_refl eq_refl (Forall_nil _)
              ltac:(unfold scoreOutOfFive; lia) ltac:(cbn; lia))
    as (p' & Hp' & _ & Hrange & _).
  exists p'. split; [exact Hp'|exact Hrange].
Defined.

Lemma perfectScoreAccuracy_checked : forallb perfectScoreAccuracy (seq 6 15) = true.
Proof. vm_compute. reflexivity. Qed.

(** X18. The accuracy formula counts five questions per quiz whatever
    the quiz holds.  A first quiz of n questions, 6 <= n <= 20, answered
    without a mistake passes and leaves [averageAccuracy] at 20 * n, which
    is more than 100. *)
Theorem long_quiz_accuracy_exceeds_100 :
  forall (n : Z) (st : AppState) (path : LearningPath) (cm : Mod.t) (p : UserProfile),
    learningPath st = Some path ->
    currentModule st = Some cm ->
    profile st = Some p ->
    quizScores (performance p) = [] ->
    6 <= n <= 20 ->
    passes n n = true /\
    exists p',
      profile (handleQuizComplete n n st) = Some p' /\
      averageAccuracy (performance p') = 20 * n /\
      100 < averageAccuracy (performance p').
Proof.
  intros n st path cm p Hpath Hcm Hp Hscores Hn.
  split.
  { rewrite passes_exact by (change (2 ^ 32) with 4294967296; lia). apply Z.leb_le. lia. }
  destruct (handleQuizComplete_guarded n n st path cm p Hpath Hcm Hp) as (Hp' & _).
  eexists. split; [exact Hp'|].
  cbn [performance averageAccuracy with_quiz_result]. rewrite Hscores. cbn [app].
  pose proof perfectScoreAccuracy_checked as H.
  rewrite forallb_forall in H.
  assert (Hin : In (Z.to_nat n) (seq 6 15)) by (apply in_seq; lia).
  specialize (H (Z.to_nat n) Hin). unfold perfectScoreAccuracy in H.
  rewrite Z2Nat.id in H by lia. apply Z.eqb_eq in H.
  rewrite H. lia.
Qed.

Lemma long_quiz_accuracy_exceeds_100_witness :
  exists p',
    profile (handleQuizComplete 10 10 adaDashboard) = Some p' /\
    averageAccuracy (performance p') = 20 * 10.
Proof.
  destruct (long_quiz_accuracy_exceeds_100 10 adaDashboard opticsPath opticsModule adaProfile
              eq_refl eq_refl eq_refl eq_refl ltac:(lia))
    as (_ & p' & Hp' & Hacc & _).
  exists p'. split; [exact Hp'|exact Hacc].
Defined.

(** ** The matcher *)

Lemma starMatch_none (p : ascii -> bool) (k : Continuation) (caps : Captures) :
  forall (s : list ascii) (i : nat),
    starMatch p k i s caps = None <->
    forall n, (n <= runLength p s)%nat -> k (n + i)%nat (skipn n s) caps = None.
Proof.
  induction s as [|c s IH]; intros i; cbn [starMatch runLength].
  - split.
    + intros H n Hn. replace n with 0%nat by lia. exact H.
    + intros H. exact (H 0%nat (Nat.le_refl _)).
  - destruct (p c).
    + destruct (starMatch p k (S i) s caps) as [r|] eqn:E.
      * split; [discriminate|]. intros H.
        assert (Hnone : starMatch p k (S i) s caps = None).
        { apply IH. intros n Hn. specialize (H (S n) ltac:(lia)).
          cbn [skipn] in H. rewrite Nat.add_succ_r. exact H. }
        cbn [Nat.add] in *; congruence.
      * split.
        -- intros H [|n] Hn; [exact H|].
           cbn [skipn]. pose proof (proj1 (IH (S i)) E n ltac:(lia)) as Hn'.
           rewrite Nat.add_succ_r in Hn'. exact Hn'.
        -- intros H. exact (H 0%nat ltac:(lia)).
    + split.
      * intros H n Hn. replace n with 0%nat by lia. exact H.
      * intros H. exact (H 0%nat (Nat.le_refl _)).
Qed.

(** A greedy star hands over at the longest repetition after which the
    rest of the pattern matches. *)
Lemma starMatch_some (p : ascii -> bool) (k : Continuation) (caps : Captures) :
  forall (s : list ascii) (i : nat) (r : Captures),
    starMatch p k i s caps = Some r <->
    exists n, (n <= runLength p s)%nat /\
              k (n + i)%nat (skipn n s) caps = Some r /\
              forall n', (n < n' <= runLength p s)%nat ->
                         k (n' + i)%nat (skipn n' s) caps = None.
Proof.
  induction s as [|c s IH]; intros i r; cbn [starMatch runLength].
  - split.
    + intros H. exists 0%nat. split; [lia|]. split; [exact H|]. intros n' Hn'. lia.
    + intros (n & Hn & Hk & _). replace n with 0%nat in Hk by lia. exact Hk.
  - destruct (p c).
    + destruct (starMatch p k (S i) s caps) as [r'|] eqn:E.
      * split.
        -- intros H. inversion H; subst r'. apply IH in E.
           destruct E as (n & Hn & Hk & Hmax).
           exists (S n). split; [lia|]. split.
           ++ cbn [skipn]. rewrite Nat.add_succ_r in Hk. exact Hk.
           ++ intros [|n'] Hn'; [lia|]. cbn [skipn].
              specialize (Hmax n' ltac:(lia)). rewrite Nat.add_succ_r in Hmax. exact Hmax.
        -- intros (n & Hn & Hk & Hmax).
           pose proof (proj1 (IH (S i) r') E) as (m & Hm & Hkm & Hmmax).
           destruct n as [|n].
           ++ specialize (Hmax (S m) ltac:(lia)). cbn [skipn] in Hmax.
              rewrite Nat.add_succ_r in Hkm. cbn [Nat.add] in *; congruence.
           ++ cbn [skipn] in Hk.
              destruct (Nat.lt_trichotomy n m) as [Hlt|[Heq|Hgt]].
              ** specialize (Hmax (S m) ltac:(lia)). cbn [skipn] in Hmax.
                 rewrite Nat.add_succ_r in Hkm. cbn [Nat.add] in *; congruence.
              ** subst m. rewrite Nat.add_succ_r in Hkm. cbn [Nat.add] in *; congruence.
              ** specialize (Hmmax n ltac:(lia)). rewrite Nat.add_succ_r in Hmmax.
                 cbn [Nat.add] in *; congruence.
      * pose proof (proj1 (starMatch_none p k caps s (S i)) E) as Hnone.
        split.
        -- intros H. exists 0%nat. split; [lia|]. split; [exact H|].
           intros [|n'] Hn'; [lia|]. cbn [skipn].
           specialize (Hnone n' ltac:(lia)). rewrite Nat.add_succ_r in Hnone. exact Hnone.
        -- intros (n & Hn & Hk & _). destruct n as [|n]; [exact Hk|].
           cbn [skipn] in Hk. specialize (Hnone n ltac:(lia)).
           rewrite Nat.add_succ_r in Hnone. cbn [Nat.add] in *; congruence.
    + split.
      * intros H. exists 0%nat. split; [lia|]. split; [exact H|]. intros n' Hn'. lia.
      * intros (n & Hn & Hk & _). replace n with 0%nat in Hk by lia. exact Hk.
Qed.

Lemma starMatch_accept (p : ascii -> bool) (caps : Captures) :
  forall (s : list ascii) (i : nat), starMatch p accept i s caps = Some caps.
Proof.
  induction s as [|c s IH]; intros i; cbn [starMatch]; [reflexivity|].
  destruct (p c); [|reflexivity]. now rewrite IH.
Qed.

Lemma rmatch_char (p : ascii -> bool) (k : Continuation) (i : nat) (s : list ascii)
    (caps r : Captures) :
  rmatch (Char p) k i s caps = Some r <->
  exists c s', s = c :: s' /\ p c = true /\ k (S i) s' caps = Some r.
Proof.
  cbn [rmatch]. split.
  - destruct s as [|c s']; [discriminate|]. destruct (p c) eqn:E; [|discriminate].
    intros H. now exists c, s'.
  - intros (c & s' & -> & Hp & Hk). now rewrite Hp.
Qed.

Lemma rmatch_str (w : list ascii) (k : Continuation) (caps r : Captures) :
  forall (i : nat) (s : list ascii),
    rmatch (str w) k i s caps = Some r <->
    exists s', s = w ++ s' /\ k (List.length w + i)%nat s' caps = Some r.
Proof.
  induction w as [|c w IH]; intros i s; cbn [str rmatch List.length app].
  - split; [intros H; now exists s|intros (s' & -> & H); exact H].
  - unfold lit. cbn [rmatch]. split.
    + destruct s as [|c' s0]; [discriminate|].
      destruct (Ascii.eqb c c') eqn:E; [|discriminate].
      apply Ascii.eqb_eq in E. subst c'. intros H.
      apply IH in H. destruct H as (s' & -> & Hk).
      exists s'. split; [reflexivity|]. rewrite Nat.add_succ_r in Hk. exact Hk.
    + intros (s' & -> & Hk). rewrite Ascii.eqb_refl. apply IH.
      exists s'. split; [reflexivity|]. rewrite Nat.add_succ_r. exact Hk.
Qed.

Lemma rmatch_seq_str (w : list ascii) (r2 : Regex) (k : Continuation) (caps r : Captures)
    (i : nat) (s : list ascii) :
  rmatch (Seq (str w) r2) k i s caps = Some r <->
  exists s', s = w ++ s' /\ rmatch r2 k (List.length w + i)%nat s' caps = Some r.
Proof. exact (rmatch_str w (rmatch r2 k) caps r i s). Qed.

Lemma rmatch_seq_char (p : ascii -> bool) (r2 : Regex) (k : Continuation)
    (caps r : Captures) (i : nat) (s : list ascii) :
  rmatch (Seq (Char p) r2) k i s caps = Some r <->
  exists c s', s = c :: s' /\ p c = true /\ rmatch r2 k (S i) s' caps = Some r.
Proof. exact (rmatch_char p (rmatch r2 k) i s caps r). Qed.

Lemma rmatch_alt (r1 r2 : Regex) (k : Continuation) (caps r : Captures) (i : nat)
    (s : list ascii) :
  rmatch (Alt r1 r2) k i s caps = Some r ->
  rmatch r1 k i s caps = Some r \/ rmatch r2 k i s caps = Some r.
Proof.
  cbn [rmatch]. destruct (rmatch r1 k i s caps); [intros H; now left|intros H; now right].
Qed.

(** The first pair of parentheses matches one of the six markers, and
    nothing else. *)
Lemma markers_sound (k : Continuation) (caps r : Captures) (i : nat) (s : list ascii) :
  rmatch markers k i s caps = Some r ->
  exists mk s', s = mk ++ s' /\ isMarker mk /\ k (List.length mk + i)%nat s' caps = Some r.
Proof.
  unfold markers, isMarker. intros H.
  apply rmatch_alt in H. destruct H as [H|H].
  { apply rmatch_seq_str in H. destruct H as (s1 & -> & H).
    apply rmatch_seq_char in H. destruct H as (c & s2 & -> & Hc & H).
    apply rmatch_str in H. destruct H as (s3 & -> & H).
    exists (chars "youtu" ++ c :: chars "be/"), s3.
    split; [now rewrite <- app_assoc|]. split; [left; now exists c|exact H]. }
  apply rmatch_alt in H. destruct H as [H|H].
  { apply rmatch_str in H. destruct H as (s1 & -> & H).
    exists (chars "v/"), s1. split; [reflexivity|]. split; [right; now left|exact H]. }
  apply rmatch_alt in H. destruct H as [H|H].
  { apply rmatch_seq_str in H. destruct H as (s1 & -> & H).
    apply rmatch_seq_char in H. destruct H as (c & s2 & -> & Hc & H).
    apply rmatch_str in H. destruct H as (s3 & -> & H).
    exists (chars "u/" ++ c :: chars "/"), s3.
    split; [now rewrite <- app_assoc|].
    split; [right; right; left; now exists c|exact H]. }
  apply rmatch_alt in H. destruct H as [H|H].
  { apply rmatch_str in H. destruct H as (s1 & -> & H).
    exists (chars "embed/"), s1. split; [reflexivity|].
    split; [right; right; right; now left|exact H]. }
  apply rmatch_alt in H. destruct H as [H|H].
  { apply rmatch_str in H. destruct H as (s1 & -> & H).
    exists (chars "watch?v="), s1. split; [reflexivity|].
    split; [right; right; right; right; now left|exact H]. }
  apply rmatch_str in H. destruct H as (s1 & -> & H).
  exists (chars "&v="), s1. split; [reflexivity|].
  split; [right; right; right; right; now right|exact H].
Qed.

Lemma markers_complete (k : Continuation) (caps r : Captures) (i : nat)
    (mk s' : list ascii) :
  isMarker mk ->
  k (List.length mk + i)%nat s' caps = Some r ->
  rmatch markers k i (mk ++ s') caps = Some r.
Proof.
  unfold isMarker.
  intros [(c & Hc & ->)|[->|[(c & Hc & ->)|[->|[->| ->]]]]] Hk;
    cbn -[dot wordChar] in *; rewrite ?Hc; cbn -[dot wordChar]; now rewrite Hk.
Qed.

Lemma isMarker_length (mk : list ascii) : isMarker mk -> (2 <= List.length mk <= 9)%nat.
Proof.
  unfold isMarker.
  intros [(c & _ & ->)|[->|[(c & _ & ->)|[->|[->| ->]]]]]; cbn; lia.
Qed.

(** *** Runs of a class *)

Lemma runLength_le_length (p : ascii -> bool) (s : list ascii) :
  (runLength p s <= List.length s)%nat.
Proof.
  induction s as [|c s IH]; cbn [runLength List.length]; [lia|].
  destruct (p c); lia.
Qed.

Lemma runLength_firstn (p : ascii -> bool) :
  forall (s : list ascii) (n : nat),
    (n <= runLength p s)%nat -> forallb p (firstn n s) = true.
Proof.
  induction s as [|c s IH]; intros n Hn; cbn [runLength] in Hn.
  - replace n with 0%nat by lia. reflexivity.
  - destruct n as [|n]; [reflexivity|]. cbn [firstn forallb].
    destruct (p c); [|lia]. cbn [andb]. apply IH. lia.
Qed.

Lemma runLength_prefix (p : ascii -> bool) (pre t : list ascii) :
  forallb p pre = true -> (List.length pre <= runLength p (pre ++ t))%nat.
Proof.
  induction pre as [|c pre IH]; cbn [forallb app runLength List.length]; [lia|].
  intros H. apply andb_prop in H. destruct H as [Hc Hpre]. rewrite Hc.
  specialize (IH Hpre). lia.
Qed.

Lemma runLength_exact (p : ascii -> bool) (l t : list ascii) :
  forallb p l = true ->
  match t with [] => True | c :: _ => p c = false end ->
  runLength p (l ++ t) = List.length l.
Proof.
  intros Hl Ht.
  induction l as [|c l IH]; cbn [forallb app runLength List.length] in *.
  - destruct t as [|c t]; [reflexivity|]. cbn [runLength]. now rewrite Ht.
  - apply andb_prop in Hl. destruct Hl as [Hc Hl]. rewrite Hc. f_equal. now apply IH.
Qed.

Lemma runLength_skipn (p : ascii -> bool) (s : list ascii) :
  match skipn (runLength p s) s with [] => True | c :: _ => p c = false end.
Proof.
  induction s as [|c s IH]; cbn [runLength]; [exact I|].
  destruct (p c) eqn:E; [exact IH|]. cbn [skipn]. exact E.
Qed.

Lemma firstn_length_app {A : Type} (l t : list A) : firstn (List.length l) (l ++ t) = l.
Proof. induction l as [|x l IH]; cbn; [reflexivity|]. now rewrite IH. Qed.

Lemma skipn_length_app {A : Type} (l t : list A) : skipn (List.length l) (l ++ t) = t.
Proof. induction l as [|x l IH]; cbn; [reflexivity|]. exact IH. Qed.

(** *** The pattern *)

Lemma starMatch_greedy (p : ascii -> bool) (k : Continuation) (caps r : Captures)
    (s : list ascii) (i : nat) :
  k (runLength p s + i)%nat (skipn (runLength p s) s) caps = Some r ->
  starMatch p k i s caps = Some r.
Proof.
  intros H. apply starMatch_some. exists (runLength p s).
  split; [lia|]. split; [exact H|]. intros n' Hn'. lia.
Qed.

(** After the marker the pattern never fails: the second pair of
    parentheses takes the longest run of characters other than #, & and
    ?. *)
Lemma tail_match (i : nat) (s : list ascii) (caps : Captures) :
  rmatch (Seq (Group 2 (Star notSeparator)) (Star dot)) accept i s caps =
  Some (setCapture 2 (firstn (runLength notSeparator s) s) caps).
Proof.
  cbn [rmatch]. apply starMatch_greedy. rewrite starMatch_accept.
  now rewrite Nat.add_sub.
Qed.

Lemma afterDots_match (i : nat) (s : list ascii) (caps r : Captures) :
  rmatch (Seq (Group 1 markers) (Seq (Group 2 (Star notSeparator)) (Star dot)))
         accept i s caps = Some r <->
  exists mk rest,
    s = mk ++ rest /\ isMarker mk /\
    r = setCapture 2 (firstn (runLength notSeparator rest) rest) (setCapture 1 mk caps).
Proof.
  change (rmatch (Seq (Group 1 markers) (Seq (Group 2 (Star notSeparator)) (Star dot)))
                 accept i s caps)
    with (rmatch markers
            (fun j s' caps' =>
               rmatch (Seq (Group 2 (Star notSeparator)) (Star dot)) accept j s'
                      (setCapture 1 (firstn (j - i) s) caps'))
            i s caps).
  split.
  - intros H. apply markers_sound in H. destruct H as (mk & rest & -> & Hmk & H).
    rewrite tail_match, Nat.add_sub, firstn_length_app in H.
    exists mk, rest. split; [reflexivity|]. split; [exact Hmk|]. now inversion H.
  - intros (mk & rest & -> & Hmk & ->). apply markers_complete; [exact Hmk|].
    now rewrite tail_match, Nat.add_sub, firstn_length_app.
Qed.

(** What the pattern matches: the text has a marker after a prefix on
    the first line; the marker taken is the last one so placed (the star
    before it is greedy); the second capture is the run after it. *)
Lemma regExp_match (s : list ascii) (caps : Captures) :
  rmatch regExp accept 0 s noCaptures = Some caps <->
  exists pre mk rest,
    s = pre ++ mk ++ rest /\ forallb dot pre = true /\ isMarker mk /\
    (forall pre' mk', markerAt s pre' mk' -> (List.length pre' <= List.length pre)%nat) /\
    caps = setCapture 2 (firstn (runLength notSeparator rest) rest)
                      (setCapture 1 mk noCaptures).
Proof.
  change (rmatch regExp accept 0 s noCaptures)
    with (starMatch dot
            (rmatch (Seq (Group 1 markers) (Seq (Group 2 (Star notSeparator)) (Star dot)))
                    accept)
            0 s noCaptures).
  rewrite starMatch_some. split.
  - intros (n & Hn & Hk & Hmax).
    apply afterDots_match in Hk. destruct Hk as (mk & rest & Hs & Hmk & ->).
    pose proof (runLength_le_length dot s) as Hlen.
    exists (firstn n s), mk, rest.
    split; [rewrite <- Hs; symmetry; apply firstn_skipn|].
    split; [now apply runLength_firstn|]. split; [exact Hmk|]. split; [|reflexivity].
    intros pre' mk' (rest' & Hs' & Hpre' & Hmk').
    rewrite length_firstn, Nat.min_l by lia.
    destruct (Nat.le_gt_cases (List.length pre') n) as [Hle|Hgt]; [exact Hle|exfalso].
    assert (Hrun : (List.length pre' <= runLength dot s)%nat).
    { rewrite Hs'. now apply runLength_prefix. }
    specialize (Hmax (List.length pre') (conj Hgt Hrun)).
    assert (Hsome : rmatch (Seq (Group 1 markers)
                              (Seq (Group 2 (Star notSeparator)) (Star dot)))
                           accept (List.length pre' + 0)%nat
                           (skipn (List.length pre') s) noCaptures <> None).
    { rewrite Hs' at 1. rewrite skipn_length_app.
      erewrite (proj2 (afterDots_match _ (mk' ++ rest') noCaptures _)); [discriminate|].
      exists mk', rest'. split; [reflexivity|]. split; [exact Hmk'|reflexivity]. }
    contradiction.
  - intros (pre & mk & rest & Hs & Hpre & Hmk & Hlast & ->).
    exists (List.length pre). split; [rewrite Hs; now apply runLength_prefix|].
    split.
    + apply afterDots_match. exists mk, rest.
      split; [rewrite Hs; apply skipn_length_app|]. split; [exact Hmk|reflexivity].
    + intros n' Hn'.
      destruct (rmatch _ accept (n' + 0)%nat (skipn n' s) noCaptures) as [r'|] eqn:E;
        [exfalso|reflexivity].
      apply afterDots_match in E. destruct E as (mk' & rest' & Hs' & Hmk' & _).
      pose proof (runLength_le_length dot s) as Hlen.
      assert (Hat : markerAt s (firstn n' s) mk').
      { exists rest'. split; [rewrite <- Hs'; symmetry; apply firstn_skipn|].
        split; [apply runLength_firstn; lia|exact Hmk']. }
      specialize (Hlast _ _ Hat). rewrite length_firstn, Nat.min_l in Hlast by lia. lia.
Qed.

Lemma execFrom_regExp_later (s : list ascii) :
  forall i, execFrom regExp (S i) s = None.
Proof.
  induction s as [|c s IH]; intros i; cbn [execFrom]; [reflexivity|].
  change (rmatch regExp accept (S i) (c :: s) noCaptures) with (@None Captures).
  apply IH.
Qed.

(** The pattern starts with ^: only the attempt at index 0 can match. *)
Lemma String_match_regExp (u : string) :
  String_match u regExp = rmatch regExp accept 0 (chars u) noCaptures.
Proof.
  unfold String_match. fold (chars u).
  destruct (chars u) as [|c s]; cbn [execFrom];
    destruct (rmatch regExp accept 0 _ noCaptures); try reflexivity.
  apply execFrom_regExp_later.
Qed.

(** *** The identifier *)

Lemma chars_nonempty (u : string) :
  String.eqb u EmptyString = false <-> chars u <> [].
Proof.
  destruct u as [|c u]; cbn; split; try discriminate; try congruence; auto.
Qed.

(** A marker on the first line with nothing like it after, followed by
    eleven characters and then the end or one of #, & and ?: the eleven
    characters are the result. *)
Lemma youtubeId_found (u id : string) (pre mk rest : list ascii) :
  chars u = pre ++ mk ++ chars id ++ rest ->
  forallb dot pre = true ->
  isMarker mk ->
  (forall pre' mk', markerAt (chars u) pre' mk' ->
                    (List.length pre' <= List.length pre)%nat) ->
  List.length (chars id) = 11%nat ->
  forallb notSeparator (chars id) = true ->
  match rest with [] => True | c :: _ => notSeparator c = false end ->
  getYoutubeEmbedId (Some u) = Returns (Some id).
Proof.
  intros Hu Hpre Hmk Hlast Hlen Hid Hrest.
  unfold getYoutubeEmbedId.
  replace (String.eqb u EmptyString) with false.
  2:{ symmetry. apply chars_nonempty. rewrite Hu. pose proof (isMarker_length mk Hmk).
      destruct pre; [destruct mk; [cbn in *; lia|discriminate]|discriminate]. }
  rewrite String_match_regExp.
  rewrite (proj2 (regExp_match (chars u) _)
             (ex_intro _ pre (ex_intro _ mk (ex_intro _ (chars id ++ rest)
                (conj Hu (conj Hpre (conj Hmk (conj Hlast eq_refl)))))))).
  cbn [setCapture Nat.eqb].
  rewrite (runLength_exact notSeparator (chars id) rest Hid Hrest), firstn_length_app, Hlen.
  cbn [Nat.eqb]. unfold chars. now rewrite string_of_list_ascii_of_string.
Qed.

(** X19. What [getYoutubeEmbedId] finds in a text of code units below
    256.  It returns an identifier exactly when the text holds one of the
    markers (youtu.be/ with any character for the dot, v/, u/ a word
    character and /, embed/, watch?v=, &v=) after a prefix without line
    terminator, and the last marker so placed is followed by exactly
    eleven characters other than #, & and ? before the end of the text or
    one of these three: those eleven characters are the identifier.  An
    earlier marker is never used, whatever follows it. *)
Theorem getYoutubeEmbedId_last_marker :
  forall u id : string,
    getYoutubeEmbedId (Some u) = Returns (Some id) <->
    exists pre mk rest,
      chars u = pre ++ mk ++ chars id ++ rest /\
      forallb dot pre = true /\
      isMarker mk /\
      (forall pre' mk', markerAt (chars u) pre' mk' ->
                        (List.length pre' <= List.length pre)%nat) /\
      List.length (chars id) = 11%nat /\
      forallb notSeparator (chars id) = true /\
      match rest with [] => True | c :: _ => notSeparator c = false end.
Proof.
  intros u id. split.
  - unfold getYoutubeEmbedId.
    destruct (String.eqb u EmptyString); [discriminate|].
    rewrite String_match_regExp.
    destruct (rmatch regExp accept 0 (chars u) noCaptures) as [caps|] eqn:E; [|discriminate].
    apply regExp_match in E.
    destruct E as (pre & mk & rest & Hu & Hpre & Hmk & Hlast & ->).
    cbn [setCapture Nat.eqb].
    set (n := runLength notSeparator rest).
    destruct (Nat.eqb (List.length (firstn n rest)) 11) eqn:Hlen; [|discriminate].
    intros H. inversion H; subst id; clear H.
    apply Nat.eqb_eq in Hlen.
    exists pre, mk, (skipn n rest).
    assert (Hc : chars (string_of_list_ascii (firstn n rest)) = firstn n rest)
      by apply list_ascii_of_string_of_list_ascii.
    rewrite !Hc.
    split; [now rewrite firstn_skipn|].
    split; [exact Hpre|]. split; [exact Hmk|]. split; [exact Hlast|].
    split; [exact Hlen|]. split; [now apply runLength_firstn|].
    apply runLength_skipn.
  - intros (pre & mk & rest & Hu & Hpre & Hmk & Hlast & Hlen & Hid & Hrest).
    exact (youtubeId_found u id pre mk rest Hu Hpre Hmk Hlast Hlen Hid Hrest).
Qed.

(** X20. [getYoutubeEmbedId] never throws: whenever the pattern matches,
    its second pair of parentheses took part in the match, so reading
    [match[2].length] is safe.  A missing or empty address gives null,
    and so does a text without marker on its first line. *)
Theorem getYoutubeEmbedId_never_throws :
  forall url : option string,
    exists r,
      getYoutubeEmbedId url = Returns r /\
      match url with
      | None => r = None
      | Some u =>
          (u = EmptyString -> r = None) /\
          ((forall pre mk, ~ markerAt (chars u) pre mk) -> r = None)
      end.
Proof.
  intros [u|]; [|now exists None].
  unfold getYoutubeEmbedId.
  destruct (String.eqb u EmptyString) eqn:Eu.
  { exists None. repeat split. }
  apply String.eqb_neq in Eu.
  rewrite String_match_regExp.
  destruct (rmatch regExp accept 0 (chars u) noCaptures) as [caps|] eqn:E.
  - apply regExp_match in E.
    destruct E as (pre & mk & rest & Hu & Hpre & Hmk & _ & ->).
    cbn [setCapture Nat.eqb].
    assert (Hat : markerAt (chars u) pre mk) by now exists rest.
    destruct (Nat.eqb _ 11); eexists; (split; [reflexivity|]);
      (split; [intros; contradiction|]); intros Hnone; exfalso; exact (Hnone pre mk Hat).
  - exists None. repeat split.
Qed.

(** *** Addresses of the usual shapes *)

Lemma chars_app (a b : string) : chars (a ++ b)%string = chars a ++ chars b.
Proof.
  unfold chars. induction a as [|c a IH]; cbn; [reflexivity|]. now rewrite IH.
Qed.

Lemma idChar_notSeparator (c : ascii) : idChar c = true -> notSeparator c = true.
Proof.
  destruct c as [[] [] [] [] [] [] [] []]; intros H; try reflexivity; discriminate H.
Qed.

Lemma forallb_idChar_notSeparator (l : list ascii) :
  forallb idChar l = true -> forallb notSeparator l = true.
Proof.
  rewrite !forallb_forall. intros H c Hin. apply idChar_notSeparator. now apply H.
Qed.

(** Every marker ends with a slash or an equals sign, which no
    identifier holds. *)
Lemma isMarker_has_separator (mk : list ascii) :
  isMarker mk -> exists c, In c mk /\ idChar c = false.
Proof.
  unfold isMarker.
  intros [(c & _ & ->)|[->|[(c & _ & ->)|[->|[->| ->]]]]].
  - exists "/"%char. split; [cbn; tauto|reflexivity].
  - exists "/"%char. split; [cbn; tauto|reflexivity].
  - exists "/"%char. split; [cbn; tauto|reflexivity].
  - exists "/"%char. split; [cbn; tauto|reflexivity].
  - exists "="%char. split; [cbn; tauto|reflexivity].
  - exists "="%char. split; [cbn; tauto|reflexivity].
Qed.

Lemma in_skipn_in {A : Type} (x : A) (l : list A) :
  forall n, In x (skipn n l) -> In x l.
Proof.
  induction l as [|y l IH]; intros [|n] H; cbn in *; auto.
  right. exact (IH n H).
Qed.

Lemma no_marker_in_id (mk rest ident : list ascii) (j : nat) :
  isMarker mk -> forallb idChar ident = true -> skipn j ident = mk ++ rest -> False.
Proof.
  intros Hmk Hid Hs.
  destruct (isMarker_has_separator mk Hmk) as (c & Hin & Hc).
  assert (Hin' : In c ident).
  { apply (in_skipn_in c ident j). rewrite Hs. apply in_or_app. now left. }
  rewrite forallb_forall in Hid. specialize (Hid c Hin'). congruence.
Qed.

(** Refutes a marker that would start inside a marker of the address. *)
Ltac no_marker_here Hs Hmk :=
  cbn in Hs; unfold isMarker in Hmk;
  destruct Hmk as [(? & _ & ->)|[->|[(? & _ & ->)|[->|[->| ->]]]]];
  cbn in Hs; discriminate Hs.

Lemma no_later_marker (P M ident : list ascii) :
  M = chars "watch?v=" \/ M = chars "youtu.be/" \/ M = chars "embed/" ->
  forallb idChar ident = true ->
  forall pre' mk',
    markerAt (P ++ M ++ ident) pre' mk' -> (List.length pre' <= List.length P)%nat.
Proof.
  intros HM Hid pre' mk' (rest' & Hs & _ & Hmk').
  destruct (Nat.le_gt_cases (List.length pre') (List.length P)) as [Hle|Hgt];
    [exact Hle|exfalso].
  apply (f_equal (skipn (List.length pre'))) in Hs.
  rewrite skipn_length_app, skipn_app, skipn_all2 in Hs by lia. cbn [app] in Hs.
  set (j := (List.length pre' - List.length P)%nat) in *.
  assert (Hj : (1 <= j)%nat) by lia. clearbody j.
  destruct j as [|j]; [lia|]. clear Hj.
  destruct HM as [->|[->| ->]].
  - do 7 (destruct j as [|j]; [no_marker_here Hs Hmk'|]).
    cbn in Hs. exact (no_marker_in_id mk' rest' ident j Hmk' Hid Hs).
  - do 8 (destruct j as [|j]; [no_marker_here Hs Hmk'|]).
    cbn in Hs. exact (no_marker_in_id mk' rest' ident j Hmk' Hid Hs).
  - do 5 (destruct j as [|j]; [no_marker_here Hs Hmk'|]).
    cbn in Hs. exact (no_marker_in_id mk' rest' ident j Hmk' Hid Hs).
Qed.

Lemma standard_url (pre mk id : string) :
  chars mk = chars "watch?v=" \/ chars mk = chars "youtu.be/" \/ chars mk = chars "embed/" ->
  forallb dot (chars pre) = true ->
  List.length (chars id) = 11%nat ->
  forallb idChar (chars id) = true ->
  getYoutubeEmbedId (Some (pre ++ mk ++ id)%string) = Returns (Some id).
Proof.
  intros Hmk Hpre Hlen Hid.
  apply (youtubeId_found _ id (chars pre) (chars mk) []).
  - now rewrite !chars_app, app_nil_r.
  - exact Hpre.
  - unfold isMarker. destruct Hmk as [->|[->| ->]].
    + right; right; right; right; now left.
    + left. exists "."%char. split; reflexivity.
    + right; right; right; now left.
  - rewrite !chars_app. now apply no_later_marker.
  - exact Hlen.
  - now apply forallb_idChar_notSeparator.
  - exact I.
Qed.

(** X21. The three usual shapes of a video address.  For every prefix
    without line terminator and every identifier of eleven letters,
    digits, hyphens and underscores, the prefix followed by watch?v=, by
    youtu.be/ or by embed/ and then by the identifier yields that
    identifier, whatever markers the prefix itself holds. *)
Theorem getYoutubeEmbedId_standard_urls :
  forall pre id : string,
    forallb dot (chars pre) = true ->
    List.length (chars id) = 11%nat ->
    forallb idChar (chars id) = true ->
    getYoutubeEmbedId (Some (pre ++ "watch?v=" ++ id)%string) = Returns (Some id) /\
    getYoutubeEmbedId (Some (pre ++ "youtu.be/" ++ id)%string) = Returns (Some id) /\
    getYoutubeEmbedId (Some (pre ++ "embed/" ++ id)%string) = Returns (Some id).
Proof.
  intros pre id Hpre Hlen Hid.
  split; [|split]; apply standard_url; auto.
Qed.

Lemma getYoutubeEmbedId_standard_urls_witness :
  getYoutubeEmbedId (Some "https://youtu.be/watch?v=0pThnRneDjw") = Returns (Some "0pThnRneDjw").
Proof.
  exact (proj1 (getYoutubeEmbedId_standard_urls "https://youtu.be/" "0pThnRneDjw"
                  eq_refl eq_refl eq_refl)).
Defined.

(** X22. The fallback path always comes with a video that the tutoring
    view can embed: whenever path synthesis fails, the single module of
    the path that [generateLearningPath] resolves to has an address from
    which [getYoutubeEmbedId] extracts an identifier, so the view shows
    the frame. *)
Theorem fallback_module_has_video :
  forall (reply : Promise (GenerateContentResponse PathValue)) (p : UserProfile),
    pathSynthesisFails reply ->
    exists path m,
      generateLearningPath reply p = Resolved path /\
      modules path = [m] /\
      getYoutubeEmbedId (Mod.videoUrl m) = Returns (Some "0pThnRneDjw").
Proof.
  intros reply p Hfail.
  rewrite (generateLearningPath_fallback reply p Hfail).
  eexists. eexists. split; [reflexivity|]. split; [reflexivity|].
  cbn [Mod.videoUrl].
  exact (standard_url "https://www.youtube.com/" "watch?v=" "0pThnRneDjw"
           (or_introl eq_refl) eq_refl eq_refl eq_refl).
Qed.

Lemma fallback_module_has_video_witness :
  exists path m,
    generateLearningPath (pathReply gatewayDown) adaProfile = Resolved path /\
    modules path = [m] /\
    getYoutubeEmbedId (Mod.videoUrl m) = Returns (Some "0pThnRneDjw").
Proof.
  exact (fallback_module_has_video (pathReply gatewayDown) adaProfile I).
Defined.

(** The marker that counts is the last one. *)
Example getYoutubeEmbedId_two_markers :
  getYoutubeEmbedId (Some "https://www.youtube.com/watch?v=AAAAAAAAAAA&v=BBBBBBBBBBB")
  = Returns (Some "BBBBBBBBBBB").
Proof. vm_compute. reflexivity. Qed.

(** An identifier followed by a query is cut at the separator; one of
    another length is refused. *)
Example getYoutubeEmbedId_query :
  getYoutubeEmbedId (Some "https://youtu.be/0pThnRneDjw?t=42") = Returns (Some "0pThnRneDjw").
Proof. vm_compute. reflexivity. Qed.

Example getYoutubeEmbedId_short :
  getYoutubeEmbedId (Some "https://www.youtube.com/watch?v=short") = Returns None.
Proof. vm_compute. reflexivity. Qed.

(** ** The history of a profile *)

(** The profile was rebuilt with the same history. *)
Ltac history_same :=
  unfold historyKept;
  cbn [performance quizScores completedTopics name classInfo subject level goal language
       with_topic with_timeSpentMinutes with_lastFeedback];
  repeat split; try (exists []; now rewrite app_nil_r).

(** X23. No step of a session loses history.  Whatever handler runs
    after the onboarding (choosing a topic or a module, ending a session,
    rating it, starting, completing or leaving a quiz, the logo), a state
    with a profile is followed by a state with a profile that has the same
    name, class, subject, level, goal and language, and whose quiz scores
    and completed topics are the old ones with at most new entries
    appended.  The sign-out and a new onboarding, which replace the
    profile, are not among these steps. *)
Theorem session_keeps_history :
  forall (st st' : AppState) (p : UserProfile),
    profile st = Some p ->
    sessionStep st st' ->
    exists p', profile st' = Some p' /\ historyKept p p'.
Proof.
  intros st st' p Hp Hstep.
  destruct Hstep as [svc newTopic|m now|now|feedback|svc|score total| |].
  - unfold handleSelectSuggested. rewrite Hp.
    exists (with_topic newTopic p). split; [|history_same].
    destruct (svc_generateLearningPath svc (with_topic newTopic p)) as [path|e];
      [|reflexivity].
    unfold loadSuggestions_detached, loadSuggestions.
    destruct (svc_getRelatedCourseSuggestions svc (with_topic newTopic p)); reflexivity.
  - exists p. split; [exact Hp|history_same].
  - unfold handleEndSession. rewrite Hp. eexists. split; [reflexivity|history_same].
  - unfold submitFeedback. rewrite Hp.
    destruct (learningPath st) as [path|].
    + eexists. split; [reflexivity|history_same].
    + exists p. split; [exact Hp|history_same].
  - exists p. split; [|history_same].
    unfold startQuiz. rewrite Hp.
    destruct (currentModule st) as [m|]; [|exact Hp].
    destruct (svc_generateQuiz svc p (Mod.title m)); exact Hp.
  - unfold handleQuizComplete. rewrite Hp.
    destruct (learningPath st) as [path|]; [|exists p; split; [exact Hp|history_same]].
    destruct (currentModule st) as [cm|];
      [|exists p; split; [exact Hp|history_same]].
    exists (with_quiz_result score (passes score total) (Mod.title cm) p).
    split; [destruct (passes score total); reflexivity|].
    unfold historyKept. cbn [performance quizScores completedTopics with_quiz_result name
                             classInfo subject level goal language].
    split; [now exists [score]|].
    split; [|repeat split].
    destruct (passes score total);
      [now exists [Mod.title cm]|exists []; now rewrite app_nil_r].
  - exists p. split; [exact Hp|history_same].
  - exists p. split; [|history_same].
    unfold handleLogoClick. rewrite Hp. exact Hp.
Qed.

Lemma session_keeps_history_witness :
  exists p',
    profile (handleQuizComplete 5 5 adaDashboard) = Some p' /\ historyKept adaProfile p'.
Proof.
  exact (session_keeps_history adaDashboard _ adaProfile eq_refl (step_quiz_complete _ 5 5)).
Defined.

(** ** From the fallback path to a finished path *)

(** X24. A learner on the fallback path finishes it with one quiz.  When
    path synthesis fails during the onboarding and the quiz of the module
    then shown is passed, the learning path has all its modules completed
    and the dashboard shows 100 percent; the title of the module, which
    names the topic of the profile, is the one completed topic. *)
Theorem fallback_path_finished_by_one_quiz :
  forall (g : Gateway) (draft : UserProfile) (st : AppState) (score total : Z),
    pathSynthesisFails (pathReply g) ->
    passes score total = true ->
    completedTopics (performance draft) = [] ->
    let onboarded := handleOnboardingComplete (geminiService g) draft st in
    let finished := handleQuizComplete score total onboarded in
    exists path p,
      learningPath finished = Some path /\ profile finished = Some p /\
      (forall m, In m (modules path) -> Mod.status m = completed) /\
      progress path = 100 /\
      completedTopics (performance p) = [("Foundations of " ++ topic draft)%string].
Proof.
  intros g draft st score total Hfail Hpass Htopics onboarded finished.
  pose proof (generateLearningPath_fallback _ draft Hfail) as Hgen.
  destruct (handleOnboardingComplete_resolved g draft st _ Hgen)
    as (_ & Hp & Hpath & Hcm & _).
  fold onboarded in Hp, Hpath, Hcm. cbn [modules fallbackPath hd_error] in Hcm.
  destruct (handleQuizComplete_guarded score total onboarded _ _ _ Hpath Hcm Hp)
    as (Hp' & Hpath' & _).
  fold finished in Hp', Hpath'. rewrite Hpass in Hp', Hpath'.
  eexists. eexists. split; [exact Hpath'|]. split; [exact Hp'|].
  split; [|split].
  - cbn. intros m [<-|[]]. reflexivity.
  - unfold progress, progressRatio.
    rewrite all_completed_count by (cbn; intros m [<-|[]]; reflexivity).
    apply percent_full. cbn. lia.
  - cbn [performance completedTopics with_quiz_result Mod.title]. now rewrite Htopics.
Qed.

Lemma fallback_path_finished_by_one_quiz_witness :
  exists path p,
    learningPath (handleQuizComplete 5 5
                    (handleOnboardingComplete (geminiService gatewayDown) adaProfile
                       onboardingScreen)) = Some path /\
    profile (handleQuizComplete 5 5
               (handleOnboardingComplete (geminiService gatewayDown) adaProfile
                  onboardingScreen)) = Some p /\
    progress path = 100.
Proof.
  destruct (fallback_path_finished_by_one_quiz gatewayDown adaProfile onboardingScreen 5 5
              I passes_5_5 eq_refl)
    as (path & p & Hpath & Hp & _ & Hprogress & _).
  exists path, p. split; [exact Hpath|]. split; [exact Hp|exact Hprogress].
Defined.

(** X25. The minutes that [endSession] adds are the duration to the
    nearest minute.  For a tutoring session opened at [t0] and ended at
    [t1] (values of [Date.now()], integers from 0 to below 2^53), not
    before [t0] and less than 2^51 milliseconds later, by a
    learner with fewer than 2^52 minutes so far, the number added to
    [timeSpentMinutes] is a non-negative integer that differs from the
    duration by at most half a minute: the division by 60000 and its
    rounding in binary64 never move the result to another minute, and
    the binary64 sum is exact. *)
Theorem endSession_minutes_nearest :
  forall (st : AppState) (p : UserProfile) (m : Mod.t) (t0 t1 : Z),
    profile st = Some p ->
    0 <= t0 <= t1 ->
    t1 < 2 ^ 53 ->
    t1 - t0 < 2 ^ 51 ->
    0 <= timeSpentMinutes (performance p) < 2 ^ 52 ->
    let ended := handleEndSession t1 (handleSelectModule m t0 st) in
    exists p' minutes,
      profile ended = Some p' /\
      timeSpentMinutes (performance p') = timeSpentMinutes (performance p) + minutes /\
      0 <= minutes /\
      (t1 - t0) - 30000 <= 60000 * minutes <= (t1 - t0) + 30000.
Proof.
  intros st p m t0 t1 Hp Ht Hnow Hlong Hold ended.
  pose proof (elapsedMinutes_nonneg t1 t0 Ht Hnow) as Hpos.
  pose proof (elapsedMinutes_nearest t1 t0 Ht Hnow Hlong) as Hnear.
  change (2 ^ 51) with 2251799813685248 in Hlong.
  change (2 ^ 52) with 4503599627370496 in Hold.
  exists (with_timeSpentMinutes (timeSpentMinutes (performance p) + elapsedMinutes t1 t0) p),
    (elapsedMinutes t1 t0).
  split.
  { subst ended. unfold handleEndSession, handleSelectModule. setters.
    rewrite Hp, or_zero_id.
    rewrite plus_exact by (change (2 ^ 53) with 9007199254740992; lia).
    reflexivity. }
  split; [reflexivity|].
  split; [exact Hpos|exact Hnear].
Qed.

Lemma endSession_minutes_nearest_witness :
  exists p' minutes,
    profile (handleEndSession 151000 (handleSelectModule opticsModule 1000 adaDashboard))
      = Some p' /\
    timeSpentMinutes (performance p') = 0 + minutes /\
    150000 - 30000 <= 60000 * minutes <= 150000 + 30000.
Proof.
  destruct (endSession_minutes_nearest adaDashboard adaProfile opticsModule 1000 151000
              eq_refl ltac:(lia) ltac:(cbn; lia) ltac:(cbn; lia) ltac:(cbn; lia))
    as (p' & minutes & Hp' & Htime & _ & Hnear).
  exists p', minutes. split; [exact Hp'|]. split; [exact Htime|exact Hnear].
Defined.
